(** * SpiNNer wiring guide: a shallow embedding of [wiring_guide.py]

    The script is Python 2: [/] on two integers is floor division, on
    floats it is IEEE division.  Dictionaries are modelled by [gmap],
    frozensets by [gset], lists by [list]; a raised exception is an explicit
    [Raise] in the [result] monad below.  The modules [model.board],
    [model.topology], [model.transforms], [model.metrics] and
    [model.coordinates] are imported by the script but are not part of it:
    the board graph ([follow_wire]) and the other imported operations are
    parameters of the sections that use them. *)

From Stdlib Require Import ZArith QArith Qcanon PrimFloat Uint63 Lia Lqa.
From Stdlib Require Import Sorted Permutation.
From stdpp Require Import base option list gmap sets strings finite sorting.

#[global] Set Warnings "-clear-no-such-hyp".

Local Open Scope Z_scope.

(** ** Exceptions *)

Inductive exn : Type :=
  | KeyError | ValueError | ZeroDivisionError | AssertionError
  | NotTerminated.

Inductive result (A : Type) : Type :=
  | Ok (a : A)
  | Raise (e : exn).
Arguments Ok {A} a.
Arguments Raise {A} e.

#[global] Instance result_ret : MRet result := fun _ a => Ok a.
#[global] Instance result_bind : MBind result := fun _ _ f m =>
  match m with Ok a => f a | Raise e => Raise e end.
#[global] Instance result_fmap : FMap result := fun _ _ f m =>
  match m with Ok a => Ok (f a) | Raise e => Raise e end.

(** [d[k]] on a dictionary: a missing key raises [KeyError]. *)
Definition getitem `{Countable K} {V} (d : gmap K V) (k : K) : result V :=
  match d !! k with Some v => Ok v | None => Raise KeyError end.

(** [dict(pairs)]: later pairs overwrite earlier ones. *)
Definition dict_of_list `{Countable K} {V} (l : list (K * V)) : gmap K V :=
  foldl (fun m kv => <[kv.1 := kv.2]> m) ∅ l.

(** [for x in xs: body(x)] where the body may raise. *)
Fixpoint mapM {A B} (f : A -> result B) (l : list A) : result (list B) :=
  match l with
  | [] => Ok []
  | x :: xs => y ← f x; ys ← mapM f xs; mret (y :: ys)
  end.

(** ** [model.topology]: the six directions *)

Module topology.

Inductive Direction : Type :=
  | NORTH | NORTH_EAST | EAST | SOUTH | SOUTH_WEST | WEST.

#[global] Instance Direction_eq_dec : EqDecision Direction.
Proof. solve_decision. Defined.

(** Modelled from the spec: [topology.opposite] is imported, not defined in
    the script; the spec pairs North/South, NorthEast/SouthWest, East/West. *)
Definition opposite (d : Direction) : Direction :=
  match d with
  | NORTH => SOUTH | SOUTH => NORTH
  | NORTH_EAST => SOUTH_WEST | SOUTH_WEST => NORTH_EAST
  | EAST => WEST | WEST => EAST
  end.

End topology.
Export topology.

#[global] Instance Direction_countable : Countable Direction.
Proof.
  refine (inj_countable'
    (fun d => match d with
              | NORTH => 0 | NORTH_EAST => 1 | EAST => 2
              | SOUTH => 3 | SOUTH_WEST => 4 | WEST => 5 end%nat)
    (fun n => match n with
              | 0 => NORTH | 1 => NORTH_EAST | 2 => EAST
              | 3 => SOUTH | 4 => SOUTH_WEST | _ => WEST end%nat) _).
  by intros [].
Defined.

(** [DIRECTION_COLOURS], used through [dict(DIRECTION_COLOURS)[d]]: only the
    three principal directions have a colour. *)
Definition DIRECTION_COLOURS : list (Direction * string) :=
  [(NORTH, "red"); (EAST, "green"); (SOUTH_WEST, "blue")]%string.

(** The directions the script iterates over, [[NORTH, EAST, SOUTH_WEST]]. *)
Definition principal_directions : list Direction := [NORTH; EAST; SOUTH_WEST].

Definition direction_colour (d : Direction) : result string :=
  getitem (dict_of_list DIRECTION_COLOURS) d.

(** ** Loop analysis *)

Section Loops.
Context {Board : Type} `{Countable Board}.
Context {Coord : Type} `{Countable Coord}.

(** The adjacency table of [model.board.Board]. *)
Variable follow_wire : Board -> Direction -> Board.

(** [Board.follow_packet] and [board.follow_packet_loop], both imported. *)
Variable follow_packet : Board -> Direction -> Direction -> Direction * Board.
Variable follow_packet_loop :
  Board -> Direction -> Direction -> list (Direction * Board).

(** What the script asks the [diagram] object to draw. *)
Inductive Command : Type :=
  | add_wire (b : Board) (d : Direction) (style : list string)
  | add_packet_path (b : Board) (d_in d_out : Direction) (style : list string).

(** Modelled from the spec: [board.follow_wiring_loop] is imported, not
    defined in the script.  "From a start board, repeatedly apply
    follow_wire in a fixed direction until the start board recurs; returns
    the visited sequence."  [fuel] bounds the number of boards inspected
    after the start. *)
Fixpoint wiring_loop_from (fuel : nat) (start cur : Board) (d : Direction)
  : result (list Board) :=
  match fuel with
  | O => Raise NotTerminated
  | S fuel' =>
      if decide (cur = start) then Ok []
      else rest ← wiring_loop_from fuel' start (follow_wire cur d) d;
           mret (cur :: rest)
  end.

Definition follow_wiring_loop (fuel : nat) (start : Board) (d : Direction)
  : result (list Board) :=
  rest ← wiring_loop_from fuel start (follow_wire start d) d;
  mret (start :: rest).

(** [generate_wiring_loop(boards, direction, diagram, start)] *)
Definition generate_wiring_loop (fuel : nat) (boards : list (Board * Coord))
    (direction : Direction) (diagram : list Command) (start : Coord)
  : result (Z * list Command) :=
  let c2b := dict_of_list (prod_swap <$> boards) in
  start_board ← getitem c2b start;
  loop ← follow_wiring_loop fuel start_board direction;
  colour ← direction_colour direction;
  let style := ["thick"; colour]%string in
  let diagram' :=
    foldl (fun dg b =>
             dg ++ [add_wire b direction style;
                    add_packet_path b direction (opposite direction)
                      ("dashed"%string :: style)])
          diagram loop in
  mret (Z.of_nat (length loop), diagram').

(** [generate_packet_loop(boards, direction, diagram, start)]; the result
    is [((len(loop)*3)/2) * 4] on Python 2 integers. *)
Definition generate_packet_loop (boards : list (Board * Coord))
    (direction : Direction) (diagram : list Command) (start : Coord)
  : result (Z * list Command) :=
  let c2b := dict_of_list (prod_swap <$> boards) in
  start_board ← getitem c2b start;
  let loop := follow_packet_loop start_board (opposite direction) direction in
  colour ← direction_colour direction;
  let style := ["thick"; colour]%string in
  let diagram' :=
    foldl (fun dg '(in_direction, b) =>
             dg ++ [add_packet_path b in_direction
                      (opposite (follow_packet b in_direction direction).1)
                      ("dashed"%string :: style);
                    add_wire b in_direction style])
          diagram loop in
  mret (((Z.of_nat (length loop) * 3) / 2) * 4, diagram').

End Loops.

(** ** [model.coordinates]: cabinet triples *)

Module coordinates.

(** A cabinet coordinate is the triple [(cabinet, rack, slot)]; the script
    unpacks it as a 3-tuple. *)
Definition Cabinet : Type := Z * Z * Z.

Definition cabinet_of (c : Cabinet) : Z := c.1.1.
Definition rack_of (c : Cabinet) : Z := c.1.2.
Definition slot_of (c : Cabinet) : Z := c.2.

(** Modelled from the spec: subtraction of coordinates is imported from
    [model.coordinates]; the relative wire vector is "the wire target's
    cabinet-triple minus the board's own", component by component. *)
Definition sub (a b : Cabinet) : Cabinet :=
  (cabinet_of a - cabinet_of b, rack_of a - rack_of b, slot_of a - slot_of b).

(** Modelled from the spec: [abs] of a coordinate is imported from
    [model.coordinates]; the script unpacks its result into three
    components, the absolute value of each difference. *)
Definition abs (a : Cabinet) : Cabinet :=
  (Z.abs (cabinet_of a), Z.abs (rack_of a), Z.abs (slot_of a)).

End coordinates.
Export coordinates.

(** [for x in xs: state = body(state, x)] where the body may raise. *)
Fixpoint foldM {A S} (f : S -> A -> result S) (s : S) (l : list A) : result S :=
  match l with
  | [] => Ok s
  | x :: xs => s' ← f s x; foldM f s' xs
  end.

(** [sum(xs)] *)
Definition sum (l : list Z) : Z := foldr Z.add 0 l.

(** [range(n)] *)
Definition range (n : Z) : list Z := Z.of_nat <$> seq 0 (Z.to_nat n).

(** [sorted(xs)]: Python's sort is stable and compares with [<]; on a list
    it is modelled by a stable insertion sort. *)
Fixpoint insort {A} (lt : A -> A -> bool) (x : A) (l : list A) : list A :=
  match l with
  | [] => [x]
  | y :: ys => if lt y x then y :: insort lt x ys else x :: y :: ys
  end.

Definition sorted {A} (lt : A -> A -> bool) (l : list A) : list A :=
  foldr (insort lt) [] l.

(** ** Wiring statistics for cabinets *)

Section CabinetStats.
Context {Board : Type} `{Countable Board}.
Variable follow_wire : Board -> Direction -> Board.

(** The module-level variable [cabinet_torus], which the loop of
    [calculate_wire_cabinet_stats] reads instead of its argument. *)
Variable cabinet_torus : list (Board * Cabinet).

(** The initial counters; the columns are indexed 0, 1, 2. *)
Definition initial_stats : list (Direction * list Z) :=
  [(NORTH, [0; 0; 0]); (EAST, [0; 0; 0]); (SOUTH_WEST, [0; 0; 0])].

(** The body of the inner loop, for one board and one [(direction,
    counters)] entry. *)
Definition count_wire (b2c : gmap Board Cabinet) (board : Board)
    (entry : Direction * list Z) : result (Direction * list Z) :=
  let '(direction, counters) := entry in
  source ← getitem b2c board;
  target ← getitem b2c (follow_wire board direction);
  let '(cabinets, racks, slots) := abs (sub target source) in
  if 0 <? cabinets then mret (direction, alter (fun c => c + 1) 0%nat counters)
  else if 0 <? racks then mret (direction, alter (fun c => c + 1) 1%nat counters)
  else if 0 <? slots then mret (direction, alter (fun c => c + 1) 2%nat counters)
  else Raise AssertionError.

(** The counters after both loops. *)
Definition wire_counters (boards : list (Board * Cabinet))
  : result (list (Direction * list Z)) :=
  let b2c := dict_of_list boards in
  foldM (fun stats '(board, coord) => mapM (count_wire b2c board) stats)
        initial_stats cabinet_torus.

(** One row of the table: direction, total, then [counters[2]],
    [counters[1]], [counters[0]] under the headings "Staying In-Rack",
    "Between Racks", "Between Cabinets". *)
Definition stats_row (entry : Direction * list Z) : Direction * (Z * Z * Z * Z) :=
  (entry.1, (sum entry.2, entry.2 !!! 2%nat, entry.2 !!! 1%nat, entry.2 !!! 0%nat)).

(** [calculate_wire_cabinet_stats(boards)]: the numbers of the per-direction
    rows and of the "Total" row, before they are formatted. *)
Definition calculate_wire_cabinet_stats (boards : list (Board * Cabinet))
  : result (list (Direction * (Z * Z * Z * Z)) * (Z * Z * Z * Z)) :=
  stats ← wire_counters boards;
  let wire_cabinet_stats := stats_row <$> stats in
  let total_wire_cabinet_stats :=
    (sum ((fun e => sum e.2) <$> stats),
     sum ((fun e => e.2 !!! 2%nat) <$> stats),
     sum ((fun e => e.2 !!! 1%nat) <$> stats),
     sum ((fun e => e.2 !!! 0%nat) <$> stats)) in
  mret (wire_cabinet_stats, total_wire_cabinet_stats).

(** The three classes of the spec, by comparison of the source and target
    cabinet triples of a wire. *)
Definition in_slot (source target : Cabinet) : bool :=
  bool_decide (cabinet_of source = cabinet_of target
               /\ rack_of source = rack_of target).

Definition between_rack (source target : Cabinet) : bool :=
  bool_decide (cabinet_of source = cabinet_of target
               /\ rack_of source <> rack_of target).

Definition between_cabinet (source target : Cabinet) : bool :=
  bool_decide (cabinet_of source <> cabinet_of target).

(** The cabinet triples at the two ends of the wire that leaves [board] in
    [direction]. *)
Definition wire_ends (b2c : gmap Board Cabinet) (board : Board)
    (direction : Direction) : option (Cabinet * Cabinet) :=
  source ← b2c !! board;
  target ← b2c !! follow_wire board direction;
  Some (source, target).

(** The number of boards of [cabinet_torus] whose wire in [direction] is of
    class [cls]. *)
Definition count_wires (b2c : gmap Board Cabinet) (direction : Direction)
    (cls : Cabinet -> Cabinet -> bool) : Z :=
  Z.of_nat (length (filter
    (fun bc => from_option (fun st => cls st.1 st.2) false
                 (wire_ends b2c bc.1 direction) = true)
    cabinet_torus)).

(** Every wire of the list has two known ends in different places. *)
Definition wires_leave (b2c : gmap Board Cabinet) (l : list (Board * Cabinet))
  : Prop :=
  Forall (fun bc => forall d, d ∈ principal_directions ->
            exists s t, wire_ends b2c bc.1 d = Some (s, t)
                        /\ s <> t) l.

End CabinetStats.

(** ** Wire length statistics *)

(** The numbers the histogram code computes with.  [metrics.wire_length]
    returns Python floats; the same code also runs on Python integers, where
    [/] truncates. *)
Class PyNum (T : Type) := {
  py_zero : T;                        (* the literal [0.0] *)
  py_add : T -> T -> T;
  py_sub : T -> T -> T;
  py_mul_int : Z -> T -> T;           (* [bin_num * bin_len] *)
  py_div_int : T -> Z -> result T;    (* [x / num_bins] *)
  py_lt : T -> T -> bool;
  py_le : T -> T -> bool;
  py_eq : T -> T -> bool;             (* equality of dictionary keys *)
}.

Definition float_of_Z (z : Z) : float :=
  if z <? 0 then PrimFloat.opp (PrimFloat.of_uint63 (Uint63.of_Z (- z)))
  else PrimFloat.of_uint63 (Uint63.of_Z z).

(** Python floats: IEEE 754 binary64. *)
#[global] Instance float_PyNum : PyNum float := {|
  py_zero := 0%float;
  py_add := PrimFloat.add;
  py_sub := PrimFloat.sub;
  py_mul_int k x := PrimFloat.mul (float_of_Z k) x;
  py_div_int x n :=
    if n =? 0 then Raise ZeroDivisionError
    else Ok (PrimFloat.div x (float_of_Z n));
  py_lt := PrimFloat.ltb;
  py_le := PrimFloat.leb;
  py_eq := PrimFloat.eqb;
|}.

(** Python 2 integers: [/] is floor division. *)
#[global] Instance int_PyNum : PyNum Z := {|
  py_zero := 0;
  py_add := Z.add;
  py_sub := Z.sub;
  py_mul_int := Z.mul;
  py_div_int x n := if n =? 0 then Raise ZeroDivisionError else Ok (x / n);
  py_lt := Z.ltb;
  py_le := Z.leb;
  py_eq := Z.eqb;
|}.

(** Exact rationals: the real-number reading of the same arithmetic. *)
#[global] Instance Qc_PyNum : PyNum Qc := {|
  py_zero := Q2Qc 0;
  py_add := Qcplus;
  py_sub := Qcminus;
  py_mul_int k x := Qcmult (Q2Qc (inject_Z k)) x;
  py_div_int x n :=
    if n =? 0 then Raise ZeroDivisionError
    else Ok (Qcdiv x (Q2Qc (inject_Z n)));
  py_lt x y := bool_decide (Qclt x y);
  py_le x y := bool_decide (Qcle x y);
  py_eq x y := bool_decide (x = y);
|}.

(** The laws of exact arithmetic that the histogram of equal lengths relies
    on; they hold of Python integers and of the rationals. *)
Class PyNumLaws (T : Type) `{PyNum T} : Prop := {
  py_eq_refl (x : T) : py_eq x x = true;
  py_lt_irrefl (x : T) : py_lt x x = false;
  py_lt_asym (x y : T) : py_lt x y = true -> py_lt y x = false;
  py_le_refl (x : T) : py_le x x = true;
  py_div_total (x : T) (n : Z) : n <> 0 -> exists r, py_div_int x n = Ok r;
  py_sub_diag_div (x : T) (n : Z) :
    n <> 0 -> py_div_int (py_sub x x) n = Ok py_zero;
  py_mul_zero (k : Z) : py_mul_int k py_zero = (py_zero : T);
  py_add_zero (x : T) : py_add x py_zero = x;
}.

Section LengthStats.
Context {T : Type} `{PyNum T}.
Context {Board Phys Offsets : Type}.

(** [metrics.wire_length(boards, board, direction, wire_offsets)], imported. *)
Variable wire_length :
  list (Board * Phys) -> Board -> Direction -> Offsets -> T.

(** The module-level variable [cabinet_torus], which the loop reads. *)
Variable cabinet_torus : list (Board * Cabinet).

(** [hist[length] = hist.get(length, 0) + 1] *)
Fixpoint hist_incr (length : T) (hist : list (T * Z)) : list (T * Z) :=
  match hist with
  | [] => [(length, 0 + 1)]
  | (k, c) :: hist' =>
      if py_eq k length then (k, c + 1) :: hist'
      else (k, c) :: hist_incr length hist'
  end.

(** [min(hist)] and [max(hist)] over the keys; an empty dictionary raises
    [ValueError]. *)
Definition py_min (keys : list T) : result T :=
  match keys with
  | [] => Raise ValueError
  | k :: ks => Ok (foldl (fun m x => if py_lt x m then x else m) k ks)
  end.

Definition py_max (keys : list T) : result T :=
  match keys with
  | [] => Raise ValueError
  | k :: ks => Ok (foldl (fun m x => if py_lt m x then x else m) k ks)
  end.

(** [sorted(xs, key=...)] *)
Definition sorted_by {A} (key : A -> T) (l : list A) : list A :=
  sorted (fun a b => py_lt (key a) (key b)) l.

(** The body of [for direction, lengths in stats]: the bins
    [(bin_start, bin_end, count)] of one direction. *)
Definition frequencies (num_bins : Z) (lengths : list T)
  : result (list (T * T * Z)) :=
  let hist := foldl (fun h l => hist_incr l h) [] lengths in
  min_len ← py_min (fst <$> hist);
  max_len ← py_max (fst <$> hist);
  bin_len ← py_div_int (py_sub max_len min_len) num_bins;
  let out_frequencies :=
    (fun bin_num =>
       let bin_start :=
         if 0 <? bin_num then py_add min_len (py_mul_int bin_num bin_len)
         else py_zero in
       let bin_end :=
         py_add (py_add min_len (py_mul_int bin_num bin_len)) bin_len in
       (bin_start, bin_end,
        sum (snd <$> filter (fun lc => py_lt bin_start lc.1 && py_le lc.1 bin_end = true)
                            hist)))
      <$> range num_bins in
  mret (sorted_by (fun b => b.1.1) out_frequencies).

(** [calculate_wire_length_stats(boards, wire_offsets, num_bins)]: the
    list [freq_stats], before it is formatted. *)
Definition calculate_wire_length_stats (boards : list (Board * Phys))
    (wire_offsets : Offsets) (num_bins : Z)
  : result (list (Direction * list (T * T * Z))) :=
  let stats :=
    (fun direction =>
       (direction,
        (fun bc => wire_length boards bc.1 direction wire_offsets)
          <$> cabinet_torus))
      <$> principal_directions in
  mapM (fun '(direction, lengths) =>
          freqs ← frequencies num_bins lengths;
          mret (direction, freqs))
       stats.

End LengthStats.

(** ** Wiring pattern finding *)

Section Patterns.
Context {Board : Type} `{Countable Board}.
Variable follow_wire : Board -> Direction -> Board.

(** [get_relative_wires(boards, direction)] *)
Definition get_relative_wires (boards : list (Board * Cabinet))
    (direction : Direction) : result (list (Cabinet * Cabinet)) :=
  let b2c := dict_of_list boards in
  mapM (fun '(board, coord) =>
          target ← getitem b2c (follow_wire board direction);
          mret (coord, sub target coord))
       boards.

(** [group_relative_wires(rel_wires, group_key, elem_key)]; [groups] is a
    [defaultdict(set)], the result maps each key to a frozenset.
    [group_add] is the body of the loop,
    [groups[group_key(coord)].add((elem_key(coord), wire_relative_target))]. *)
Definition group_add {G E : Type} `{Countable G} `{Countable E}
    (group_key : Cabinet -> G) (elem_key : Cabinet -> E)
    (groups : gmap G (gset (E * Cabinet))) (wire : Cabinet * Cabinet)
  : gmap G (gset (E * Cabinet)) :=
  let '(coord, wire_relative_target) := wire in
  <[group_key coord :=
      default ∅ (groups !! group_key coord)
      ∪ {[ (elem_key coord, wire_relative_target) ]}]> groups.

Definition group_relative_wires {G E : Type} `{Countable G} `{Countable E}
    (rel_wires : list (Cabinet * Cabinet))
    (group_key : Cabinet -> G) (elem_key : Cabinet -> E)
  : gmap G (gset (E * Cabinet)) :=
  foldl (group_add group_key elem_key) ∅ rel_wires.

(** [distinct_count(iterable)]; [counts] is a [defaultdict(lambda:0)]. *)
Definition distinct_count {A : Type} `{Countable A} (iterable : list A)
  : gmap A Z :=
  foldl (fun counts item => <[item := default 0 (counts !! item) + 1]> counts)
        ∅ iterable.

(** [d.itervalues()] *)
Definition itervalues {K V : Type} `{Countable K} (d : gmap K V) : list V :=
  (map_to_list d).*2.

(** The number of distinct patterns of a grouping:
    [len(distinct_count(grouped_relative_wires.itervalues()))], the number
    of pattern ids the script hands out. *)
Definition num_patterns {G E : Type} `{Countable G} `{Countable E}
    (rel_wires : list (Cabinet * Cabinet))
    (group_key : Cabinet -> G) (elem_key : Cabinet -> E) : nat :=
  size (distinct_count
          (itervalues (group_relative_wires rel_wires group_key elem_key))).

End Patterns.

(** ** Wiring instructions *)

Section Instructions.
Context {Board : Type} `{Countable Board}.
Variable follow_wire : Board -> Direction -> Board.

(** Module-level variables read by [generate_wiring_instructions]. *)
Variable cabinet_torus : list (Board * Cabinet).
Variables num_cabinets num_racks_per_cabinet : Z.

(** One end of a wire: [(cabinet, rack, slot, socket)]. *)
Definition WireEnd : Type := Z * Z * Z * string.
Definition Wire : Type := WireEnd * WireEnd.

(** Python compares tuples lexicographically, integers by value and
    byte strings by character code. *)
Definition end_compare (a b : WireEnd) : comparison :=
  let '(c1, r1, s1, n1) := a in
  let '(c2, r2, s2, n2) := b in
  match c1 ?= c2 with
  | Eq => match r1 ?= r2 with
          | Eq => match s1 ?= s2 with
                  | Eq => String.compare n1 n2
                  | o => o
                  end
          | o => o
          end
  | o => o
  end.

Definition end_lt (a b : WireEnd) : bool :=
  match end_compare a b with Lt => true | _ => false end.

Definition wire_compare (a b : Wire) : comparison :=
  match end_compare a.1 b.1 with
  | Eq => end_compare a.2 b.2
  | o => o
  end.

Definition wire_lt (a b : Wire) : bool :=
  match wire_compare a b with Lt => true | _ => false end.

(** [generate_wiring_list(wires)]: the rows of the table, in the order
    they are printed. *)
Definition generate_wiring_list (wires : list Wire) : list Wire :=
  sorted wire_lt wires.

(** [tuple(sorted([source, target]))] *)
Definition sorted_pair (source target : WireEnd) : Wire :=
  match sorted end_lt [source; target] with
  | [a; b] => (a, b)
  | _ => (source, target)
  end.

(** The first loop: the list [wires]. *)
Definition collect_wires (boards : list (Board * Cabinet))
    (socket_names : gmap Direction string) : result (list Wire) :=
  let b2c := dict_of_list boards in
  per_board ← mapM (fun '(board, source_coord) =>
    mapM (fun direction =>
            target_coord ← getitem b2c (follow_wire board direction);
            source_socket ← getitem socket_names direction;
            target_socket ← getitem socket_names (opposite direction);
            let source : WireEnd := (source_coord, source_socket) in
            let target : WireEnd := (target_coord, target_socket) in
            mret (sorted_pair source target))
         principal_directions)
    cabinet_torus;
  mret (concat per_board).

(** [d[k].append(w)] on a [defaultdict(list)] *)
Definition group_append {K : Type} `{Countable K} (k : K) (w : Wire)
    (d : gmap K (list Wire)) : gmap K (list Wire) :=
  <[k := default [] (d !! k) ++ [w]]> d.

(** The body of the second loop: the wire goes to the list of its rack,
    else to the list of its cabinet, else to the list of wires between
    cabinets. *)
Definition place_wire
    (groups : gmap (Z * Z) (list Wire) * gmap Z (list Wire) * list Wire)
    (wire : Wire)
  : gmap (Z * Z) (list Wire) * gmap Z (list Wire) * list Wire :=
  let '(wires_between_slots, wires_between_racks, wires_between_cabinets) :=
    groups in
  let '(source, target) := wire in
  if decide ((cabinet_of source.1, rack_of source.1)
             = (cabinet_of target.1, rack_of target.1))
  then (group_append (cabinet_of source.1, rack_of source.1)
          (source, target) wires_between_slots,
        wires_between_racks, wires_between_cabinets)
  else if decide (cabinet_of source.1 = cabinet_of target.1)
  then (wires_between_slots,
        group_append (cabinet_of source.1) (source, target)
          wires_between_racks,
        wires_between_cabinets)
  else (wires_between_slots, wires_between_racks,
        wires_between_cabinets ++ [(source, target)]).

(** The second loop: [wires_between_slots], [wires_between_racks] and
    [wires_between_cabinets]. *)
Definition group_wires (wires : list Wire)
  : gmap (Z * Z) (list Wire) * gmap Z (list Wire) * list Wire :=
  foldl place_wire (∅, ∅, []) wires.

Definition wire_le (a b : Wire) : Prop := wire_lt b a = false.

Definition same_cabinet (w : Wire) : Prop :=
  cabinet_of w.1.1 = cabinet_of w.2.1.
Definition same_rack (w : Wire) : Prop := rack_of w.1.1 = rack_of w.2.1.

(** All the wires of a dictionary of lists. *)
Definition all_wires {K : Type} `{Countable K} (d : gmap K (list Wire))
  : list Wire :=
  concat (map_to_list d).*2.

(** The pieces of the generated text. *)
Inductive Block : Type :=
  | subsection (title : string)
  | subsubsection_rack (cabinet_num rack_num : Z)
  | subsubsection_cabinet (cabinet_num : Z)
  | wiringtable (rows : list Wire).

(** [generate_wiring_instructions(boards, socket_names)] *)
Definition generate_wiring_instructions (boards : list (Board * Cabinet))
    (socket_names : gmap Direction string) : result (list Block) :=
  wires ← collect_wires boards socket_names;
  let '(wires_between_slots, wires_between_racks, wires_between_cabinets) :=
    group_wires wires in
  let within_racks :=
    subsection "Wires Within Racks"
    :: concat ((fun cabinet_num =>
         concat ((fun rack_num =>
           [subsubsection_rack cabinet_num rack_num;
            wiringtable (generate_wiring_list
              (default [] (wires_between_slots !! (cabinet_num, rack_num))))])
           <$> range num_racks_per_cabinet))
         <$> range num_cabinets) in
  let within_cabinets :=
    if decide (wires_between_racks = ∅) then []
    else subsection "Wires Within Cabinets"
         :: concat ((fun cabinet_num =>
              [subsubsection_cabinet cabinet_num;
               wiringtable (generate_wiring_list
                 (default [] (wires_between_racks !! cabinet_num)))])
              <$> range num_cabinets) in
  let between_cabinets :=
    match wires_between_cabinets with
    | [] => []
    | _ => [subsection "Wires Between Cabinets";
            wiringtable (generate_wiring_list wires_between_cabinets)]
    end in
  mret (within_racks ++ within_cabinets ++ between_cabinets).

End Instructions.

(** ** The pipeline driver *)

Module pipeline.
Section Pipeline.
Context {Board Hex Cart Phys System : Type}.

(** [board.create_torus] and the stages of [model.transforms], imported. *)
Variable create_torus : Z -> Z -> list (Board * Hex).
Variable hex_to_cartesian : list (Board * Hex) -> list (Board * Cart).
Variable rhombus_to_rect : list (Board * Cart) -> list (Board * Cart).
Variable compress : list (Board * Cart) -> Z -> Z -> list (Board * Cart).
Variable space_folds : list (Board * Cart) -> Z * Z -> list (Board * Cart).
Variable fold : list (Board * Cart) -> Z * Z -> list (Board * Cart).
Variable cabinetise :
  list (Board * Cart) -> Z -> Z -> Z -> list (Board * Cabinet).
Variable cabinet_to_physical :
  list (Board * Cabinet) -> System -> list (Board * Phys).

(** The parameters loaded with [from params_... import *]. *)
Record Params : Type := {
  width : Z; height : Z;
  compress_rows : bool;
  num_folds_x : Z; num_folds_y : Z;
  num_cabinets : Z; num_racks_per_cabinet : Z; num_slots_per_rack : Z;
}.

(** The module-level variables assigned by "Generate models". *)
Record Models : Type := {
  torus : list (Board * Hex);
  cart_torus : list (Board * Cart);
  rect_torus : list (Board * Cart);
  comp_torus : list (Board * Cart);
  fold_spaced_torus : list (Board * Cart);
  folded_torus : list (Board * Cart);
  folded_spaced_torus : list (Board * Cart);
  folded_cabinet_spaced_torus : list (Board * Cart);
  cabinet_torus : list (Board * Cabinet);
  phys_torus : list (Board * Phys);
}.

Definition generate_models (p : Params) (cabinet_system : System) : Models :=
  let torus := create_torus (width p) (height p) in
  let cart_torus := hex_to_cartesian torus in
  let rect_torus := rhombus_to_rect cart_torus in
  let comp_torus :=
    compress rect_torus (if compress_rows p then 1 else 2)
                        (if compress_rows p then 2 else 1) in
  let fold_spaced_torus :=
    space_folds comp_torus (num_folds_x p, num_folds_y p) in
  let folded_torus := fold comp_torus (num_folds_x p, num_folds_y p) in
  let folded_spaced_torus :=
    space_folds folded_torus (num_folds_x p, num_folds_y p) in
  let folded_cabinet_spaced_torus :=
    space_folds folded_torus (num_cabinets p, num_racks_per_cabinet p) in
  let cabinet_torus :=
    cabinetise folded_torus (num_cabinets p) (num_racks_per_cabinet p)
               (num_slots_per_rack p) in
  let phys_torus := cabinet_to_physical cabinet_torus cabinet_system in
  {| torus := torus; cart_torus := cart_torus; rect_torus := rect_torus;
     comp_torus := comp_torus; fold_spaced_torus := fold_spaced_torus;
     folded_torus := folded_torus;
     folded_spaced_torus := folded_spaced_torus;
     folded_cabinet_spaced_torus := folded_cabinet_spaced_torus;
     cabinet_torus := cabinet_torus; phys_torus := phys_torus |}.

End Pipeline.
End pipeline.

(** ** Further functions of the script *)

(** [len(xs)] *)
Definition len {A} (l : list A) : Z := Z.of_nat (length l).

(** [max(xs)] on integers; an empty sequence raises [ValueError]. *)
Definition py_max_int (xs : list Z) : result Z :=
  match xs with
  | [] => Raise ValueError
  | x :: xs' => Ok (foldl (fun m y => if m <? y then y else m) x xs')
  end.

(** [a / b] and [a % b] on Python 2 integers. *)
Definition py_div (a b : Z) : result Z :=
  if b =? 0 then Raise ZeroDivisionError else Ok (a / b).

Definition py_mod (a b : Z) : result Z :=
  if b =? 0 then Raise ZeroDivisionError else Ok (a mod b).

(** [xs[k:]]: a negative [k] counts from the end, and no [k] is out of
    range. *)
Definition slice_from {A} (l : list A) (k : Z) : list A :=
  if k <? 0 then drop (Z.to_nat (Z.max 0 (len l + k))) l
  else drop (Z.to_nat k) l.

(** [xs[i]] on a list: a negative [i] counts from the end; [None] stands
    for [IndexError]. *)
Definition list_getitem {A} (l : list A) (i : Z) : option A :=
  if (0 <=? i) && (i <? len l) then l !! Z.to_nat i
  else if (- len l <=? i) && (i <? 0) then l !! Z.to_nat (len l + i)
  else None.

(** [enumerate(xs)] *)
Definition enumerate {A} (l : list A) : list (Z * A) :=
  zip (Z.of_nat <$> seq 0 (length l)) l.

(** [d.keys()] *)
Definition keys {K V : Type} `{Countable K} (d : gmap K V) : list K :=
  (map_to_list d).*1.

(** *** Lookups between boards and Cartesian coordinates *)

Section CoordinateLookups.
Context {Board : Type} `{Countable Board}.
Context {Coord : Type} `{Countable Coord}.

(** [board2coord = dict(cart_torus)] *)
Definition board2coord (cart_torus : list (Board * Coord))
  : gmap Board Coord :=
  dict_of_list cart_torus.

(** [cart_coord2board = dict((c,b) for (b,c) in cart_torus)] *)
Definition cart_coord2board (cart_torus : list (Board * Coord))
  : gmap Coord Board :=
  dict_of_list (prod_swap <$> cart_torus).

End CoordinateLookups.

(** [width_boards = max(x for (c,(x,y)) in comp_torus) + 1] and
    [height_boards = max(y for (c,(x,y)) in comp_torus) + 1] *)
Definition width_boards {Board : Type} (comp_torus : list (Board * (Z * Z)))
  : result Z :=
  m ← py_max_int ((fun bc => bc.2.1) <$> comp_torus); mret (m + 1).

Definition height_boards {Board : Type} (comp_torus : list (Board * (Z * Z)))
  : result Z :=
  m ← py_max_int ((fun bc => bc.2.2) <$> comp_torus); mret (m + 1).

(** *** [generate_diagram] *)

Section Diagram.
Context {Board : Type} `{Countable Board}.
Context {Coord System Scale : Type}.

(** The calls made on the [diagram.Diagram] object, in order. *)
Inductive DiagramCall : Type :=
  | call_set_cabinet_system (cabinet_system : option System)
      (cabinet_scale : Scale)
  | call_add_board (board : Board) (coord : Coord)
  | call_add_label (board : Board) (label : Z * Z) (style : list string)
  | call_add_wire (board : Board) (direction : Direction)
      (style : list string).

(** [generate_diagram(boards, b2l, add_board_func, show_wires,
    cabinet_system, cabinet_scale)]; the label is the pair of numbers that
    [b2l[board]] supplies to the format string. *)
Definition generate_diagram (boards : list (Board * Coord))
    (b2l : gmap Board (Z * Z)) (show_wires : bool)
    (cabinet_system : option System) (cabinet_scale : Scale)
  : result (list DiagramCall) :=
  per_board ← mapM (fun '(board, coord) =>
    label ← getitem b2l board;
    let label_style :=
      match cabinet_system with
      | Some _ => ["rotate=90"%string]
      | None => []
      end in
    let wires :=
      if show_wires
      then (fun '(direction, colour) =>
              call_add_wire board direction ["thick"%string; colour])
             <$> DIRECTION_COLOURS
      else [] in
    mret (call_add_board board coord
          :: call_add_label board label label_style :: wires))
    boards;
  mret (call_set_cabinet_system cabinet_system cabinet_scale
        :: concat per_board).

End Diagram.

(** *** The basic torus diagram and its chop line *)

Section TorusDiagram.
Context {Board : Type} `{Countable Board}.
Context {System : Type}.

(** "Basic Torus Diagram": [generate_diagram(cart_torus, board2coord, ...)]
    with the defaults (wires shown, no cabinet system, scale 1.0), and the
    two boards between which the dashed line is drawn,
    [cart_coord2board[(0,0)]] and [cart_coord2board[(0,max_y)]] with
    [max_y = max(y for (x,y) in cart_coord2board if x == 0)]. *)
Definition torus_diagram (cart_torus : list (Board * (Z * Z)))
  : result (list (@DiagramCall Board (Z * Z) System float) * Board * Board) :=
  calls ← generate_diagram cart_torus (board2coord cart_torus) true None
            1%float;
  bottom_left ← getitem (cart_coord2board cart_torus) (0, 0);
  max_y ← py_max_int ((fun xy : Z * Z => xy.2)
                        <$> filter (fun xy : Z * Z => xy.1 = 0)
                                   (keys (cart_coord2board cart_torus)));
  top_left ← getitem (cart_coord2board cart_torus) (0, max_y);
  mret (calls, bottom_left, top_left).

End TorusDiagram.

(** *** The colouring of wiring patterns *)

(** The three filters of the loop over [wire_filter, filter_name]. *)
Definition change_slot (o : Cabinet) : bool :=
  (cabinet_of o =? 0) && (rack_of o =? 0).

Definition change_rack (o : Cabinet) : bool :=
  (cabinet_of o =? 0) && negb (rack_of o =? 0).

Definition change_cabinet (o : Cabinet) : bool :=
  negb (cabinet_of o =? 0).

Definition wire_filters : list ((Cabinet -> bool) * string) :=
  [(change_slot, "Change Slot"); (change_rack, "Change Rack");
   (change_cabinet, "Change Cabinet")]%string.

Section PatternColouring.
Context {Board : Type} `{Countable Board}.
Variable follow_wire : Board -> Direction -> Board.

(** [pattern2id = dict((p,i) for (i,p) in enumerate(counts.keys()))] *)
Definition pattern_ids (distinct_pattern_counts : gmap (gset (() * Cabinet)) Z)
  : gmap (gset (() * Cabinet)) Z :=
  dict_of_list ((fun ip => (ip.2, ip.1))
                  <$> enumerate (keys distinct_pattern_counts)).

(** The body of the loop over the filters and the directions, up to the
    call of [generate_cabinet_colouring_diagram]: the dictionary from
    cabinet coordinate to pattern id, and the number of colours. *)
Definition pattern_colouring (cabinet_torus : list (Board * Cabinet))
    (wire_filter : Cabinet -> bool) (direction : Direction)
  : result (gmap Cabinet Z * Z) :=
  all_relative_wires ← get_relative_wires follow_wire cabinet_torus direction;
  let relative_wires :=
    filter (fun co => wire_filter co.2 = true) all_relative_wires in
  let grouped_relative_wires :=
    group_relative_wires relative_wires (fun c => c) (fun _ => ()) in
  let distinct_pattern_counts :=
    distinct_count (itervalues grouped_relative_wires) in
  let pattern2id := pattern_ids distinct_pattern_counts in
  entries ← mapM (fun '(coord, pattern) =>
                    id ← getitem pattern2id pattern; mret (coord, id))
                 (map_to_list grouped_relative_wires);
  num_colours ←
    (if decide (pattern2id = ∅) then mret 1
     else m ← py_max_int (itervalues pattern2id); mret (m + 1));
  mret (dict_of_list entries, num_colours).

End PatternColouring.

(** *** [generate_cabinet_colouring_diagram] *)

Definition spectrum : list string := ["red"; "green"; "blue"; "yellow"]%string.

(** The first loop, "Generate pallet": the colour [start!point!end] of each
    index, as the triple [(start, point, end)].  Unpacking a slice that
    does not hold two colours raises [ValueError]. *)
Definition palette (num_colours : Z) : result (list (string * Z * string)) :=
  segment_size ← py_div (num_colours + len spectrum - 2) (len spectrum - 1);
  mapM (fun i =>
          first ← py_div i segment_size;
          match take 2 (slice_from spectrum first) with
          | [start_colour; end_colour] =>
              r ← py_mod i segment_size;
              p ← py_div (r * 100) segment_size;
              mret (start_colour, 100 - p, end_colour)
          | _ => Raise ValueError
          end)
       (range num_colours).

(** The outcome of the function: the boards added to the diagram with
    their fill colour, an exception of the palette, or the [IndexError] of
    [colours[colour_index]]. *)
Inductive Colouring : Type :=
  | Coloured (boards : list (Cabinet * (string * Z * string)))
  | PaletteError (e : exn)
  | IndexError.

Fixpoint colour_boards (colours : list (string * Z * string))
    (items : list (Cabinet * Z)) : option (list (Cabinet * (string * Z * string))) :=
  match items with
  | [] => Some []
  | (coord, colour_index) :: rest =>
      match list_getitem colours colour_index with
      | Some colour =>
          match colour_boards colours rest with
          | Some boards => Some ((coord, colour) :: boards)
          | None => None
          end
      | None => None
      end
  end.

(** [generate_cabinet_colouring_diagram(colouring, num_colours,
    cabinet_system, cabinet_scale)]: the calls of [add_board_cabinet]. *)
Definition generate_cabinet_colouring_diagram (colouring : gmap Cabinet Z)
    (num_colours : Z) : Colouring :=
  match palette num_colours with
  | Raise e => PaletteError e
  | Ok colours =>
      match colour_boards colours (map_to_list colouring) with
      | Some boards => Coloured boards
      | None => IndexError
      end
  end.

(** *** [generate_board_position_list] *)

(** Python's order on pairs of integers. *)
Definition pair_lt (a b : Z * Z) : bool :=
  (a.1 <? b.1) || ((a.1 =? b.1) && (a.2 <? b.2)).

(** [generate_board_position_list(boards, b2c)]: the rows
    [(x, y, cabinet, rack, slot)], in the order they are written.  The keys
    of the sort are computed before the sort. *)
Definition generate_board_position_list {Board : Type} `{Countable Board}
    (boards : list (Board * Cabinet)) (b2c : gmap Board (Z * Z))
  : result (list (Z * Z * Cabinet)) :=
  keyed ← mapM (fun bc => key ← getitem b2c bc.1; mret (key, bc)) boards;
  mapM (fun '(_, (board, coord)) =>
          xy ← getitem b2c board;
          mret (xy.1, xy.2, coord))
       (sorted (fun a b => pair_lt a.1 b.1) keyed).

(** ** Example configurations *)

(** A ring of three boards: North, East and South-West lead to the next
    board, the opposite directions to the previous one. *)
Definition ring3 (b : nat) (d : Direction) : nat :=
  match d with
  | NORTH | EAST | SOUTH_WEST => (b + 1) mod 3
  | SOUTH | WEST | NORTH_EAST => (b + 2) mod 3
  end%nat.

Definition ring3_torus : list (nat * Cabinet) :=
  [(0%nat, (0, 0, 0)); (1%nat, (0, 0, 1)); (2%nat, (0, 0, 2))].

(** Three boards in three different places: two racks of cabinet 0 and one
    rack of cabinet 1. *)
Definition ring3_cabinets : list (nat * Cabinet) :=
  [(0%nat, (0, 0, 0)); (1%nat, (0, 1, 0)); (2%nat, (1, 0, 0))].

(** Six boards whose wires have the lengths 1, 1, 1, 5, 5, 9 in every
    direction. *)
Definition six_boards : list (nat * Cabinet) :=
  [(0%nat, (0, 0, 0)); (1%nat, (0, 0, 1)); (2%nat, (0, 0, 2));
   (3%nat, (0, 0, 3)); (4%nat, (0, 0, 4)); (5%nat, (0, 0, 5))].

Definition six_lengths (boards : list (nat * unit)) (board : nat)
    (direction : Direction) (wire_offsets : unit) : float :=
  nth board [1; 1; 1; 5; 5; 9]%float 0%float.



(** Two racks of two slots each; every wire leads to the same slot of the
    other rack. *)
Definition two_racks : list (nat * Cabinet) :=
  [(0%nat, (0, 0, 0)); (1%nat, (0, 0, 1));
   (2%nat, (0, 1, 0)); (3%nat, (0, 1, 1))].

Definition cross_rack (b : nat) (d : Direction) : nat := ((b + 2) mod 4)%nat.

(** A name for the socket of each direction. *)
Definition example_socket_names : gmap Direction string :=
  dict_of_list [(NORTH, "N"); (NORTH_EAST, "NE"); (EAST, "E");
                (SOUTH, "S"); (SOUTH_WEST, "SW"); (WEST, "W")]%string.

(** * Properties of the loop analysis *)

Section LoopFacts.
Context {Board : Type} `{Countable Board}.
Context {Coord : Type} `{Countable Coord}.
Variable follow_wire : Board -> Direction -> Board.

Lemma direction_colour_principal d :
  d ∈ principal_directions -> exists c, direction_colour d = Ok c.
Proof.
  unfold principal_directions. rewrite !elem_of_cons, elem_of_nil.
  intros [->|[->|[->|[]]]]; eexists; vm_compute; reflexivity.
Qed.

Lemma iter_shift (f : Board -> Board) n b :
  Nat.iter n f (f b) = f (Nat.iter n f b).
Proof. induction n as [|n IH]; simpl; congruence. Qed.

(** If the start board is [m] wires ahead of [cur], the traversal from
    [cur] stops after at most [m] boards, none of them the start. *)
Lemma wiring_loop_from_returns d start m :
  forall fuel cur,
    Nat.iter m (fun b => follow_wire b d) cur = start ->
    (m < fuel)%nat ->
    exists rest,
      wiring_loop_from follow_wire fuel start cur d = Ok rest
      /\ (length rest <= m)%nat
      /\ (forall i, (i < length rest)%nat ->
            rest !! i = Some (Nat.iter i (fun b => follow_wire b d) cur))
      /\ (start ∉ rest)
      /\ Nat.iter (length rest) (fun b => follow_wire b d) cur = start.
Proof.
  induction m as [|m IH]; intros [|fuel] cur Hm Hlt; (try lia); simpl in *.
  - subst. rewrite decide_True by done.
    exists []. repeat split; simpl; (try lia); (try done). apply not_elem_of_nil.
  - destruct (decide (cur = start)) as [->|Hne].
    + exists []. repeat split; simpl; (try lia); (try done). apply not_elem_of_nil.
    + pose proof (iter_shift (fun b => follow_wire b d)) as Hshift.
      simpl in Hshift. rewrite <- Hshift in Hm.
      destruct (IH fuel (follow_wire cur d) Hm ltac:(lia))
        as (rest & -> & Hlen & Hnth & Hnotin & Hback).
      exists (cur :: rest). simpl. repeat split; try lia.
      * intros [|i] Hi; simpl; [done|].
        rewrite Hnth by lia. by rewrite Hshift.
      * apply not_elem_of_cons. split; [congruence|done].
      * by rewrite <- Hshift.
Qed.

Section Torus.
Variable boards : list (Board * Coord).

(** Every wire of a board of the torus leads to a board of the torus,
    and the board at its other end is wired back. *)
Hypothesis wires_stay :
  forall b d, b ∈ boards.*1 -> follow_wire b d ∈ boards.*1.
Hypothesis wires_link_back :
  forall b d, b ∈ boards.*1 ->
    follow_wire (follow_wire b d) (opposite d) = b.

Lemma iter_stays d start n :
  start ∈ boards.*1 ->
  Nat.iter n (fun b => follow_wire b d) start ∈ boards.*1.
Proof. intros Hs. induction n; simpl; auto. Qed.

Lemma follow_wire_inj d a b :
  a ∈ boards.*1 -> b ∈ boards.*1 ->
  follow_wire a d = follow_wire b d -> a = b.
Proof.
  intros Ha Hb Heq.
  rewrite <- (wires_link_back a d Ha), <- (wires_link_back b d Hb).
  by rewrite Heq.
Qed.

Lemma iter_cancel d start i k :
  start ∈ boards.*1 ->
  Nat.iter i (fun b => follow_wire b d) start
  = Nat.iter (i + k) (fun b => follow_wire b d) start ->
  Nat.iter k (fun b => follow_wire b d) start = start.
Proof.
  intros Hs. induction i as [|i IH]; simpl; [done|].
  intros Heq. apply IH.
  eapply follow_wire_inj; eauto using iter_stays.
Qed.

(** Some board count [k], at least one and at most the number of
    boards, brings the traversal back to its start. *)
Lemma returns_within_board_count d start :
  start ∈ boards.*1 ->
  exists k, (1 <= k <= length boards)%nat
    /\ Nat.iter k (fun b => follow_wire b d) start = start.
Proof.
  intros Hs.
  set (visits := (fun i => Nat.iter i (fun b => follow_wire b d) start)
                   <$> seq 0 (S (length boards))).
  destruct (list_pigeonhole visits (boards.*1)) as (i1 & i2 & x & Hlt & H1 & H2).
  - intros b. unfold visits. rewrite list_elem_of_fmap.
    intros (i & -> & _). by apply iter_stays.
  - unfold visits. rewrite !length_fmap, length_seq. lia.
  - unfold visits in H1, H2.
    rewrite list_lookup_fmap in H1, H2.
    destruct (seq 0 (S (length boards)) !! i1) as [j1|] eqn:E1; [|done].
    destruct (seq 0 (S (length boards)) !! i2) as [j2|] eqn:E2; [|done].
    apply lookup_seq in E1 as [-> ?], E2 as [-> ?].
    simpl in H1, H2. exists (i2 - i1)%nat. split; [lia|].
    apply (iter_cancel d start i1); [done|].
    replace (i1 + (i2 - i1))%nat with i2 by lia. congruence.
Qed.

(** C4.  A wiring loop started from any board of the torus, in any
    direction, terminates within [length boards] steps: the traversal
    returns a sequence of at most [length boards] boards, which begins
    with the start board, lists the boards reached by following the wire
    0, 1, 2, ... times, never repeats a board (so the start occurs once),
    and ends at the board whose wire leads back to the start.  For a
    principal direction, [generate_wiring_loop] returns the length of
    that sequence. *)
Theorem wiring_loop_terminates d start :
  start ∈ boards.*1 ->
  exists loop,
    follow_wiring_loop follow_wire (length boards) start d = Ok loop
    /\ (1 <= length loop <= length boards)%nat
    /\ (forall i, (i < length loop)%nat ->
          loop !! i = Some (Nat.iter i (fun b => follow_wire b d) start))
    /\ NoDup loop
    /\ Nat.iter (length loop) (fun b => follow_wire b d) start = start
    /\ (forall diagram c,
          d ∈ principal_directions ->
          dict_of_list (prod_swap <$> boards) !! c = Some start ->
          exists diagram',
            generate_wiring_loop follow_wire (length boards) boards d
              diagram c
            = Ok (Z.of_nat (length loop), diagram')).
Proof.
  intros Hs.
  destruct (returns_within_board_count d start Hs) as (k & Hk & Hret).
  destruct k as [|m]; [lia|]. simpl in Hret.
  pose proof (iter_shift (fun b => follow_wire b d)) as Hshift.
  simpl in Hshift. rewrite <- Hshift in Hret.
  destruct (wiring_loop_from_returns d start m (length boards)
              (follow_wire start d) Hret ltac:(lia))
    as (rest & Hrun & Hlen & Hnth & Hnotin & Hback).
  assert (Hall : forall i, (i < length (start :: rest))%nat ->
            (start :: rest) !! i
            = Some (Nat.iter i (fun b => follow_wire b d) start)).
  { intros [|i] Hi; simpl in *; [done|].
    rewrite Hnth by lia. by rewrite Hshift. }
  exists (start :: rest). unfold follow_wiring_loop. rewrite Hrun. simpl.
  split; [done|]. split; [lia|]. split; [exact Hall|].
  split; [|split].
  - apply NoDup_alt. intros i j x Hi Hj.
    assert (Hdist : forall a b y, (a < b)%nat ->
              (start :: rest) !! a = Some y ->
              (start :: rest) !! b = Some y -> False).
    { intros a b y Hab Ha Hb.
      pose proof (lookup_lt_Some _ _ _ Ha) as Hla.
      pose proof (lookup_lt_Some _ _ _ Hb) as Hlb.
      rewrite Hall in Ha by done. rewrite Hall in Hb by done.
      assert (Hcyc : Nat.iter (b - a) (fun b => follow_wire b d) start
                     = start).
      { apply (iter_cancel d start a); [done|].
        replace (a + (b - a))%nat with b by lia. congruence. }
      apply Hnotin. apply list_elem_of_lookup.
      exists (b - a - 1)%nat.
      assert (Hin : (start :: rest) !! (b - a)%nat = Some start).
      { rewrite Hall by lia. by rewrite Hcyc. }
      replace (b - a)%nat with (S (b - a - 1)) in Hin by lia.
      exact Hin. }
    destruct (Nat.lt_trichotomy i j) as [Hlt|[->|Hlt]];
      [exfalso; eauto|done|exfalso; eauto].
  - simpl. rewrite <- Hshift. exact Hback.
  - intros diagram c Hd Hc.
    destruct (direction_colour_principal d Hd) as [colour Hcol].
    unfold generate_wiring_loop, getitem. rewrite Hc. simpl.
    unfold follow_wiring_loop. rewrite Hrun. simpl. rewrite Hcol. simpl.
    eexists. reflexivity.
Qed.
End Torus.

Variable follow_packet : Board -> Direction -> Direction -> Direction * Board.
Variable follow_packet_loop :
  Board -> Direction -> Direction -> list (Direction * Board).

End LoopFacts.

Lemma ring3_elem b : b ∈ ring3_torus.*1 <-> b = 0%nat \/ b = 1%nat \/ b = 2%nat.
Proof.
  unfold ring3_torus. simpl. rewrite !elem_of_cons, elem_of_nil. tauto.
Qed.

Lemma wiring_loop_terminates_witness :
  exists loop,
    follow_wiring_loop ring3 3 0%nat NORTH = Ok loop /\ length loop = 3%nat.
Proof.
  destruct (wiring_loop_terminates ring3 ring3_torus) with (d := NORTH)
    (start := 0%nat) as (loop & Hrun & _).
  - intros b d. rewrite !ring3_elem.
    intros [-> | [-> | ->] ]; destruct d; vm_compute; tauto.
  - intros b d. rewrite !ring3_elem.
    intros [-> | [-> | ->] ]; destruct d; reflexivity.
  - apply ring3_elem. tauto.
  - exists loop. split; [exact Hrun|].
    vm_compute in Hrun. by injection Hrun as <-.
Defined.



(** * Properties of dictionaries and of the loops of the script *)

Section DictFacts.
Context {K : Type} `{Countable K} {V : Type}.

Lemma dict_of_list_list_to_map (l : list (K * V)) :
  dict_of_list l = list_to_map (reverse l).
Proof.
  unfold dict_of_list, list_to_map.
  rewrite <- (reverse_involutive l) at 1.
  generalize (reverse l). intros r.
  induction r as [|x r IH]; [done|].
  rewrite reverse_cons, foldl_app. simpl. by rewrite IH.
Qed.

Lemma dict_of_list_lookup_elem (l : list (K * V)) k v :
  dict_of_list l !! k = Some v -> (k, v) ∈ l.
Proof.
  rewrite dict_of_list_list_to_map. intros Hl.
  apply elem_of_list_to_map_2 in Hl. rewrite elem_of_reverse in Hl. exact Hl.
Qed.

Lemma dict_of_list_lookup_NoDup (l : list (K * V)) k v :
  NoDup l.*1 -> (k, v) ∈ l -> dict_of_list l !! k = Some v.
Proof.
  intros Hnd Hin. rewrite dict_of_list_list_to_map.
  apply elem_of_list_to_map_1.
  - by rewrite fmap_reverse, reverse_Permutation.
  - rewrite elem_of_reverse. exact Hin.
Qed.

Lemma dict_of_list_lookup_key (l : list (K * V)) k :
  k ∈ l.*1 -> is_Some (dict_of_list l !! k).
Proof.
  intros Hin. rewrite dict_of_list_list_to_map.
  apply not_eq_None_Some. intros Hnone.
  apply not_elem_of_list_to_map in Hnone.
  apply Hnone. rewrite fmap_reverse, elem_of_reverse. exact Hin.
Qed.

End DictFacts.

Lemma mapM_Ok {A B} (f : A -> result B) (l : list A) (r : list B) :
  mapM f l = Ok r <-> Forall2 (fun x y => f x = Ok y) l r.
Proof.
  revert r. induction l as [|x l IH]; intros r; simpl.
  - split; [intros [= <-]; constructor | by inversion 1].
  - split.
    + destruct (f x) as [y|e] eqn:Ef; simpl; [|done].
      destruct (mapM f l) as [ys|e] eqn:Em; simpl; [|done].
      intros [= <-]. constructor; [done|]. by apply IH.
    + inversion 1 as [|? y ? ys Hy Hys]; subst.
      apply IH in Hys. rewrite Hy. simpl. rewrite Hys. done.
Qed.

Lemma mapM_total {A B} (f : A -> result B) (P : B -> Prop) (l : list A) :
  Forall (fun x => exists y, f x = Ok y /\ P y) l ->
  exists r, mapM f l = Ok r /\ Forall P r.
Proof.
  induction 1 as [|x l (y & Hy & HP) _ (r & Hr & HPr)]; simpl.
  - exists []. by split.
  - exists (y :: r). rewrite Hy. simpl. rewrite Hr. simpl.
    split; [done|]. by constructor.
Qed.

(** * Properties of the cabinet statistics *)

Section CabinetStatsFacts.
Context {Board : Type} `{Countable Board}.
Variable follow_wire : Board -> Direction -> Board.

(** Equality of lists of tuples of counters, component by component. *)
Ltac counters_eq :=
  repeat match goal with
         | |- _ :: _ = _ :: _ => f_equal
         | |- (_, _) = (_, _) => f_equal
         end;
  try reflexivity; try lia.

(** The three classes exclude each other and leave no wire out. *)
Lemma wire_class_exactly_one (s t : Cabinet) :
  Z.b2z (in_slot s t) + Z.b2z (between_rack s t) + Z.b2z (between_cabinet s t)
  = 1.
Proof.
  unfold in_slot, between_rack, between_cabinet.
  destruct (decide (cabinet_of s = cabinet_of t)) as [Hc|Hc];
    destruct (decide (rack_of s = rack_of t)) as [Hr|Hr];
    repeat first
      [ rewrite bool_decide_eq_true_2 by tauto
      | rewrite bool_decide_eq_false_2 by tauto ];
    reflexivity.
Qed.

Lemma positive_abs (z : Z) : (0 <? Z.abs z) = bool_decide (z <> 0).
Proof.
  destruct (Z.ltb_spec 0 (Z.abs z)).
  - by rewrite bool_decide_eq_true_2 by lia.
  - by rewrite bool_decide_eq_false_2 by lia.
Qed.

Lemma cabinet_neq (s t : Cabinet) :
  s <> t <->
  cabinet_of t - cabinet_of s <> 0 \/ rack_of t - rack_of s <> 0
  \/ slot_of t - slot_of s <> 0.
Proof.
  destruct s as [[c1 r1] s1], t as [[c2 r2] s2].
  unfold cabinet_of, rack_of, slot_of. simpl. split.
  - intros Hne.
    destruct (decide (c2 - c1 = 0)); [|tauto].
    destruct (decide (r2 - r1 = 0)); [|tauto].
    destruct (decide (s2 - s1 = 0)); [|tauto].
    exfalso. apply Hne. f_equal; [f_equal|]; lia.
  - intros Hd [= -> -> ->]. lia.
Qed.

(** One step of the inner loop: the wire has two ends in different places,
    and exactly the counter of its class grows. *)
Lemma count_wire_Ok b2c board d c0 c1 c2 e' :
  count_wire follow_wire b2c board (d, [c0; c1; c2]) = Ok e' ->
  exists s t,
    wire_ends follow_wire b2c board d = Some (s, t) /\ s <> t
    /\ e' = (d, [c0 + Z.b2z (between_cabinet s t);
                 c1 + Z.b2z (between_rack s t);
                 c2 + Z.b2z (in_slot s t)]).
Proof.
  unfold count_wire, wire_ends, getitem.
  destruct (b2c !! board) as [s|]; simpl; [|done].
  destruct (b2c !! follow_wire board d) as [t|]; simpl; [|done].
  intros Hrun. exists s, t. split; [done|].
  unfold abs, sub in Hrun. unfold cabinet_of at 1, rack_of at 1, slot_of at 1 in Hrun.
  simpl in Hrun. rewrite !positive_abs in Hrun.
  unfold in_slot, between_rack, between_cabinet.
  rewrite cabinet_neq.
  destruct (decide (cabinet_of t - cabinet_of s = 0)) as [Hc|Hc].
  - rewrite (bool_decide_eq_false_2 (cabinet_of t - cabinet_of s <> 0)) in Hrun by tauto.
    rewrite (bool_decide_eq_false_2 (cabinet_of s <> cabinet_of t)) by lia.
    destruct (decide (rack_of t - rack_of s = 0)) as [Hr|Hr].
    + rewrite (bool_decide_eq_false_2 (rack_of t - rack_of s <> 0)) in Hrun by tauto.
      rewrite (bool_decide_eq_false_2 (_ /\ rack_of s <> rack_of t)) by lia.
      rewrite (bool_decide_eq_true_2 (_ /\ rack_of s = rack_of t)) by lia.
      destruct (decide (slot_of t - slot_of s = 0)) as [Hs|Hs].
      * rewrite bool_decide_eq_false_2 in Hrun by tauto. done.
      * rewrite bool_decide_eq_true_2 in Hrun by tauto.
        injection Hrun as <-. split; [tauto|]. simpl.
        counters_eq.
    + rewrite (bool_decide_eq_true_2 (rack_of t - rack_of s <> 0)) in Hrun by tauto.
      rewrite (bool_decide_eq_true_2 (_ /\ rack_of s <> rack_of t)) by lia.
      rewrite (bool_decide_eq_false_2 (_ /\ rack_of s = rack_of t)) by lia.
      injection Hrun as <-. split; [tauto|]. simpl. counters_eq.
  - rewrite (bool_decide_eq_true_2 (cabinet_of t - cabinet_of s <> 0)) in Hrun by tauto.
    rewrite (bool_decide_eq_true_2 (cabinet_of s <> cabinet_of t)) by lia.
    rewrite (bool_decide_eq_false_2 (_ /\ rack_of s <> rack_of t)) by lia.
    rewrite (bool_decide_eq_false_2 (_ /\ rack_of s = rack_of t)) by lia.
    injection Hrun as <-. split; [tauto|]. simpl. counters_eq.
Qed.

(** Conversely the step succeeds on every wire whose ends differ. *)
Lemma count_wire_total b2c board d counters s t :
  wire_ends follow_wire b2c board d = Some (s, t) -> s <> t ->
  exists counters',
    count_wire follow_wire b2c board (d, counters) = Ok (d, counters').
Proof.
  unfold count_wire, wire_ends, getitem.
  destruct (b2c !! board) as [s'|]; simpl; [|done].
  destruct (b2c !! follow_wire board d) as [t'|]; simpl; [|done].
  intros [= -> ->] Hne. apply cabinet_neq in Hne.
  unfold abs, sub. unfold cabinet_of at 1, rack_of at 1, slot_of at 1.
  simpl. rewrite !positive_abs.
  destruct (decide (cabinet_of t - cabinet_of s = 0)).
  - rewrite (bool_decide_eq_false_2 (cabinet_of t - cabinet_of s <> 0)) by tauto.
    destruct (decide (rack_of t - rack_of s = 0)).
    + rewrite (bool_decide_eq_false_2 (rack_of t - rack_of s <> 0)) by tauto.
      rewrite bool_decide_eq_true_2 by tauto. eexists. reflexivity.
    + rewrite (bool_decide_eq_true_2 (rack_of t - rack_of s <> 0)) by tauto.
      eexists. reflexivity.
  - rewrite (bool_decide_eq_true_2 (cabinet_of t - cabinet_of s <> 0)) by tauto.
    eexists. reflexivity.
Qed.

Lemma count_wires_nil b2c d cls : count_wires follow_wire [] b2c d cls = 0.
Proof. reflexivity. Qed.

Lemma count_wires_cons bc l b2c d cls :
  count_wires follow_wire (bc :: l) b2c d cls
  = Z.b2z (from_option (fun st => cls st.1 st.2) false
             (wire_ends follow_wire b2c bc.1 d))
    + count_wires follow_wire l b2c d cls.
Proof.
  unfold count_wires. rewrite filter_cons.
  destruct (from_option _ _ _); case_decide; (try done); simpl length; simpl Z.b2z; lia.
Qed.

(** The two loops, from any counters: each counter grows by the number of
    wires of its class. *)
Lemma wire_counters_fold b2c l :
  forall n0 n1 n2 e0 e1 e2 s0 s1 s2 stats',
    foldM (fun stats '(board, coord) =>
             mapM (count_wire follow_wire b2c board) stats)
          [(NORTH, [n0; n1; n2]); (EAST, [e0; e1; e2]);
           (SOUTH_WEST, [s0; s1; s2])] l
    = Ok stats' ->
    let count := count_wires follow_wire l b2c in
    stats' = [(NORTH, [n0 + count NORTH between_cabinet;
                       n1 + count NORTH between_rack;
                       n2 + count NORTH in_slot]);
              (EAST, [e0 + count EAST between_cabinet;
                      e1 + count EAST between_rack;
                      e2 + count EAST in_slot]);
              (SOUTH_WEST, [s0 + count SOUTH_WEST between_cabinet;
                            s1 + count SOUTH_WEST between_rack;
                            s2 + count SOUTH_WEST in_slot])]
    /\ wires_leave follow_wire b2c l.
Proof.
  induction l as [|[board coord] l IH]; intros * Hrun; cbn [foldM] in Hrun.
  - injection Hrun as <-. simpl. rewrite !count_wires_nil, !Z.add_0_r.
    split; [done|constructor].
  - destruct (mapM _ _) as [stats1|] eqn:Hstep; cbn in Hrun; [|done].
    apply mapM_Ok in Hstep.
    inversion Hstep as [|? a1 ? r1 Ha Hstep1]; subst; clear Hstep.
    inversion Hstep1 as [|? a2 ? r2 Hb Hstep2]; subst; clear Hstep1.
    inversion Hstep2 as [|? a3 ? r3 Hc Hstep3]; subst; clear Hstep2.
    inversion Hstep3; subst; clear Hstep3.
    apply count_wire_Ok in Ha as (sn & tn & Hn & Hnn & ->).
    apply count_wire_Ok in Hb as (se & te & He & Hne & ->).
    apply count_wire_Ok in Hc as (ss & ts & Hs & Hns & ->).
    apply IH in Hrun as [-> Hrest]. simpl. split.
    + rewrite !count_wires_cons. simpl. rewrite Hn, He, Hs. simpl.
      counters_eq.
    + constructor; [|done]. simpl. intros d Hd.
      unfold principal_directions in Hd.
      rewrite !elem_of_cons, elem_of_nil in Hd.
      destruct Hd as [-> | [-> | [-> | [] ] ] ]; eauto.
Qed.

Lemma wire_counters_total b2c l :
  wires_leave follow_wire b2c l ->
  forall stats, Forall (fun e => e.1 ∈ principal_directions) stats ->
    exists stats',
      foldM (fun stats '(board, coord) =>
               mapM (count_wire follow_wire b2c board) stats) stats l
      = Ok stats'.
Proof.
  induction 1 as [|[board coord] l Hx _ IH]; intros stats Hdirs; simpl.
  - by eexists.
  - destruct (mapM_total (count_wire follow_wire b2c board)
                (fun e => e.1 ∈ principal_directions) stats)
      as (stats1 & -> & Hdirs1).
    + eapply Forall_impl; [exact Hdirs|]. intros [d counters] Hd. simpl in Hd.
      destruct (Hx d Hd) as (s & t & Hends & Hne).
      destruct (count_wire_total b2c board d counters s t Hends Hne)
        as [counters' ->].
      eexists. split; [reflexivity|done].
    + simpl. by apply IH.
Qed.

Lemma count_wires_classes b2c l d :
  d ∈ principal_directions -> wires_leave follow_wire b2c l ->
  count_wires follow_wire l b2c d in_slot
  + count_wires follow_wire l b2c d between_rack
  + count_wires follow_wire l b2c d between_cabinet
  = Z.of_nat (length l).
Proof.
  intros Hd. induction 1 as [|bc l Hx _ IH].
  - reflexivity.
  - rewrite !count_wires_cons. destruct (Hx d Hd) as (s & t & -> & _).
    simpl from_option. pose proof (wire_class_exactly_one s t).
    simpl length. lia.
Qed.

(** C3.  When [calculate_wire_cabinet_stats] returns, the row of each
    principal direction holds the number of wires, then the number of
    wires whose two ends have the same cabinet and the same rack (in-slot),
    the number with the same cabinet and different racks (between racks)
    and the number with different cabinets (between cabinets); every wire
    is in exactly one of the three classes, so the three counts add up to
    the number of wires; the "Total" row adds the rows up. *)
Theorem wire_cabinet_stats_classes cabinet_torus boards rows total :
  calculate_wire_cabinet_stats follow_wire cabinet_torus boards
  = Ok (rows, total) ->
  let count := count_wires follow_wire cabinet_torus (dict_of_list boards) in
  let wires := Z.of_nat (length cabinet_torus) in
  rows = [(NORTH, (wires, count NORTH in_slot, count NORTH between_rack,
                   count NORTH between_cabinet));
          (EAST, (wires, count EAST in_slot, count EAST between_rack,
                  count EAST between_cabinet));
          (SOUTH_WEST, (wires, count SOUTH_WEST in_slot,
                        count SOUTH_WEST between_rack,
                        count SOUTH_WEST between_cabinet))]
  /\ (forall d, d ∈ principal_directions ->
        count d in_slot + count d between_rack + count d between_cabinet
        = wires)
  /\ (forall s t, Z.b2z (in_slot s t) + Z.b2z (between_rack s t)
                  + Z.b2z (between_cabinet s t) = 1)
  /\ total = (3 * wires,
              count NORTH in_slot + count EAST in_slot
              + count SOUTH_WEST in_slot,
              count NORTH between_rack + count EAST between_rack
              + count SOUTH_WEST between_rack,
              count NORTH between_cabinet + count EAST between_cabinet
              + count SOUTH_WEST between_cabinet).
Proof.
  intros Hrun count wires.
  unfold calculate_wire_cabinet_stats, wire_counters, initial_stats in Hrun.
  destruct (foldM _ _ _) as [stats|] eqn:Hfold; [|done].
  apply wire_counters_fold in Hfold as [-> Hleave].
  injection Hrun as <- <-.
  assert (Hsum : forall d, d ∈ principal_directions ->
            count d in_slot + count d between_rack + count d between_cabinet
            = wires).
  { intros d Hd. by apply count_wires_classes. }
  pose proof (Hsum NORTH ltac:(compute_done)) as HN.
  pose proof (Hsum EAST ltac:(compute_done)) as HE.
  pose proof (Hsum SOUTH_WEST ltac:(compute_done)) as HS.
  fold count in HN, HE, HS |- *.
  split; [|split; [exact Hsum|split; [exact wire_class_exactly_one|] ] ].
  - unfold stats_row, sum. simpl. counters_eq.
  - unfold sum. simpl. counters_eq.
Qed.

(** C10.  In a one-to-one cabinet mapping whose boards are wired to other
    boards of the mapping, never to themselves, the triple at the far end
    of every wire differs from the triple of the board in the cabinet, the
    rack or the slot, and [calculate_wire_cabinet_stats] returns: the
    assertion is never reached and no key is missing. *)
Theorem wire_cabinet_stats_total (boards : list (Board * Cabinet)) :
  NoDup boards.*1 -> NoDup boards.*2 ->
  (forall b d, b ∈ boards.*1 -> follow_wire b d ∈ boards.*1) ->
  (forall b d, b ∈ boards.*1 -> follow_wire b d <> b) ->
  (forall board coord d,
      (board, coord) ∈ boards -> d ∈ principal_directions ->
      exists target,
        dict_of_list boards !! board = Some coord
        /\ dict_of_list boards !! follow_wire board d = Some target
        /\ (cabinet_of target <> cabinet_of coord
            \/ rack_of target <> rack_of coord
            \/ slot_of target <> slot_of coord))
  /\ exists r, calculate_wire_cabinet_stats follow_wire boards boards = Ok r.
Proof.
  intros Hb Hc Hstay Hself.
  assert (Hends : forall board coord d, (board, coord) ∈ boards ->
            exists target,
              dict_of_list boards !! board = Some coord
              /\ dict_of_list boards !! follow_wire board d = Some target
              /\ target <> coord).
  { intros board coord d Hin.
    assert (Hboard : board ∈ boards.*1).
    { apply list_elem_of_fmap. by exists (board, coord). }
    destruct (dict_of_list_lookup_key boards (follow_wire board d)
                (Hstay _ d Hboard)) as [target Ht].
    exists target. split; [by apply dict_of_list_lookup_NoDup|].
    split; [done|]. intros ->.
    apply dict_of_list_lookup_elem in Ht.
    apply (Hself board d Hboard).
    destruct (list_elem_of_lookup_1 _ _ Ht) as [i Hi].
    destruct (list_elem_of_lookup_1 _ _ Hin) as [j Hj].
    assert (i = j) as ->.
    { eapply (NoDup_lookup _ i j coord Hc); rewrite list_lookup_fmap.
      - by rewrite Hi.
      - by rewrite Hj. }
    congruence. }
  split.
  - intros board coord d Hin _.
    destruct (Hends board coord d Hin) as (target & Hs & Ht & Hne).
    exists target. split; [done|]. split; [done|].
    assert (Hne' : coord <> target) by congruence.
    apply cabinet_neq in Hne'. lia.
  - assert (Hleave : wires_leave follow_wire (dict_of_list boards) boards).
    { apply Forall_forall. intros [board coord] Hin d _.
      destruct (Hends board coord d Hin) as (target & Hs & Ht & Hne).
      exists coord, target. unfold wire_ends. simpl. rewrite Hs, Ht. simpl.
      split; [done|congruence]. }
    destruct (wire_counters_total _ _ Hleave initial_stats) as [stats Hstats].
    { unfold initial_stats, principal_directions.
      repeat constructor; compute_done. }
    unfold calculate_wire_cabinet_stats, wire_counters.
    rewrite Hstats. simpl. by eexists.
Qed.

End CabinetStatsFacts.

Lemma wire_cabinet_stats_classes_witness :
  exists rows total,
    calculate_wire_cabinet_stats ring3 ring3_cabinets ring3_cabinets
    = Ok (rows, total)
    /\ total = (9, 0, 3, 6).
Proof.
  eexists _, _. split; [vm_compute; reflexivity|].
  pose proof (wire_cabinet_stats_classes ring3 ring3_cabinets ring3_cabinets
                _ _ eq_refl) as (_ & _ & _ & Htotal).
  vm_compute in Htotal |- *. reflexivity.
Defined.

Lemma wire_cabinet_stats_total_witness :
  exists r, calculate_wire_cabinet_stats ring3 ring3_cabinets ring3_cabinets
            = Ok r.
Proof.
  apply (wire_cabinet_stats_total ring3 ring3_cabinets).
  - compute_done.
  - compute_done.
  - intros b d. unfold ring3_cabinets. simpl.
    rewrite !elem_of_cons, !elem_of_nil.
    intros [-> | [-> | [-> | [] ] ] ]; destruct d; vm_compute; tauto.
  - intros b d. unfold ring3_cabinets. simpl.
    rewrite !elem_of_cons, !elem_of_nil.
    intros [-> | [-> | [-> | [] ] ] ]; destruct d; vm_compute; lia.
Defined.

(** * Properties of the wire length histogram *)

Lemma int_PyNumLaws : PyNumLaws Z.
Proof.
  split; simpl.
  - apply Z.eqb_refl.
  - apply Z.ltb_irrefl.
  - intros x y Hlt. apply Z.ltb_lt in Hlt. apply Z.ltb_ge. lia.
  - apply Z.leb_refl.
  - intros x n Hn. destruct (Z.eqb_spec n 0); [done|by eexists].
  - intros x n Hn. destruct (Z.eqb_spec n 0); [done|].
    by rewrite Z.sub_diag, Z.div_0_l.
  - intros k. lia.
  - intros x. lia.
Qed.


Lemma float_div_total (x : float) (n : Z) :
  n <> 0 -> exists r, py_div_int x n = Ok r.
Proof. simpl. destruct (Z.eqb_spec n 0); [done|by eexists]. Qed.

Section LengthStatsFacts.
Context {T : Type} `{PyNum T}.
Context {Board Phys Offsets : Type}.
Variable wire_length : list (Board * Phys) -> Board -> Direction -> Offsets -> T.

Lemma hist_incr_nonempty (l : T) (hist : list (T * Z)) : hist_incr l hist <> [].
Proof. destruct hist as [|[k c] hist]; simpl; [done|]. by destruct (py_eq k l). Qed.

Lemma hist_nonempty (lengths : list T) (hist : list (T * Z)) :
  hist <> [] \/ lengths <> [] ->
  foldl (fun h l => hist_incr l h) hist lengths <> [].
Proof.
  revert hist. induction lengths as [|l lengths IH]; intros hist Hne; simpl.
  - by destruct Hne.
  - apply IH. left. apply hist_incr_nonempty.
Qed.

(** The histogram of a non-empty list of lengths is computed whenever the
    division by the number of bins is. *)
Lemma frequencies_total (num_bins : Z) (lengths : list T) :
  (forall x, exists r, py_div_int x num_bins = Ok r) ->
  lengths <> [] ->
  exists bins, frequencies num_bins lengths = Ok bins.
Proof.
  intros Hdiv Hne. unfold frequencies.
  pose proof (hist_nonempty lengths [] (or_intror Hne)) as Hhist.
  destruct (foldl _ _ _) as [|[k c] hist]; [done|].
  cbn [fmap list_fmap fst py_min py_max mbind result_bind].
  match goal with
  | |- context [py_div_int ?a num_bins] => destruct (Hdiv a) as [r ->]
  end.
  by eexists.
Qed.

Lemma frequencies_Ok_nonempty (num_bins : Z) (lengths : list T) bins :
  frequencies num_bins lengths = Ok bins -> lengths <> [].
Proof. by intros Hrun ->. Qed.

(** The histogram of one direction is one entry of [freq_stats]. *)
Lemma wire_length_stats_entry (cabinet_torus : list (Board * Cabinet))
    boards wire_offsets num_bins d bins :
  (forall x, exists r, py_div_int x num_bins = Ok r) ->
  d ∈ principal_directions ->
  frequencies num_bins
    ((fun bc => wire_length boards bc.1 d wire_offsets) <$> cabinet_torus)
  = Ok bins ->
  exists freq_stats,
    calculate_wire_length_stats wire_length cabinet_torus boards wire_offsets
      num_bins = Ok freq_stats
    /\ (d, bins) ∈ freq_stats.
Proof.
  intros Hdiv Hd Hrun.
  assert (Hne : cabinet_torus <> []).
  { intros ->. by apply frequencies_Ok_nonempty in Hrun. }
  assert (Hall : forall d', exists bins',
            frequencies num_bins
              ((fun bc => wire_length boards bc.1 d' wire_offsets)
                 <$> cabinet_torus) = Ok bins').
  { intros d'. apply frequencies_total; [done|].
    destruct cabinet_torus; [done|]. by rewrite fmap_cons. }
  destruct (Hall NORTH) as [bn Hn], (Hall EAST) as [be He],
    (Hall SOUTH_WEST) as [bs Hs].
  exists [(NORTH, bn); (EAST, be); (SOUTH_WEST, bs)]. split.
  - unfold calculate_wire_length_stats, principal_directions.
    cbn [fmap list_fmap mapM]. rewrite Hn, He, Hs. reflexivity.
  - unfold principal_directions in Hd.
    rewrite !elem_of_cons, elem_of_nil in Hd.
    rewrite !elem_of_cons.
    destruct Hd as [-> | [-> | [-> | [] ] ] ]; [left | right; left | right; right; left];
      congruence.
Qed.

Section ExactArithmetic.
Context `{!PyNumLaws T}.






End ExactArithmetic.
End LengthStatsFacts.

(** C1.  Scenario B on Python floats, which is what [metrics.wire_length]
    hands to the histogram: for the wire lengths 1, 1, 1, 5, 5, 9 in a
    principal direction and 5 bins, [calculate_wire_length_stats] returns
    exactly 5 bins for that direction, the first starting at 0, the last
    ending at 9, each starting where the one before ends; the counts are
    3, 0, 2, 0, 1, which add up to 6; a bin has a nonzero count exactly
    when 1, 5 or 9 lies in it. *)
Theorem scenario_b_histogram {Board Phys Offsets : Type}
    (wire_length : list (Board * Phys) -> Board -> Direction -> Offsets -> float)
    (cabinet_torus : list (Board * Cabinet)) boards wire_offsets d :
  d ∈ principal_directions ->
  (fun bc => wire_length boards bc.1 d wire_offsets) <$> cabinet_torus
  = [1; 1; 1; 5; 5; 9]%float ->
  exists freq_stats bins,
    calculate_wire_length_stats wire_length cabinet_torus boards wire_offsets 5
    = Ok freq_stats
    /\ (d, bins) ∈ freq_stats
    /\ bins = [(0, 0x1.4cccccccccccdp+1, 3%Z);
               (0x1.4cccccccccccdp+1, 0x1.0cccccccccccdp+2, 0%Z);
               (0x1.0cccccccccccdp+2, 0x1.7333333333334p+2, 2%Z);
               (0x1.7333333333334p+2, 0x1.d99999999999ap+2, 0%Z);
               (0x1.d99999999999ap+2, 9, 1%Z)]%float
    /\ length bins = 5%nat
    /\ sum bins.*2 = 6
    /\ Forall (fun b =>
         b.2 <> 0 <->
         Exists (fun l => PrimFloat.ltb b.1.1 l && PrimFloat.leb l b.1.2 = true)
                [1; 5; 9]%float) bins.
Proof.
  intros Hd Hlen.
  destruct (wire_length_stats_entry wire_length cabinet_torus boards
              wire_offsets 5 d
              [(0, 0x1.4cccccccccccdp+1, 3%Z);
               (0x1.4cccccccccccdp+1, 0x1.0cccccccccccdp+2, 0%Z);
               (0x1.0cccccccccccdp+2, 0x1.7333333333334p+2, 2%Z);
               (0x1.7333333333334p+2, 0x1.d99999999999ap+2, 0%Z);
               (0x1.d99999999999ap+2, 9, 1%Z)]%float)
    as (freq_stats & Hrun & Hin).
  - intros x. by apply float_div_total.
  - done.
  - rewrite Hlen. vm_compute. reflexivity.
  - exists freq_stats. eexists. split; [exact Hrun|]. split; [exact Hin|].
    split; [reflexivity|]. split; [reflexivity|]. split; [reflexivity|].
    repeat first [apply List.Forall_nil | apply List.Forall_cons];
      rewrite !Exists_cons, Exists_nil; vm_compute; intuition congruence.
Qed.

(** The same code on Python 2 integers: the bin width 8/5 truncates to 1,
    the bins end at 6 and the length 9 is not counted. *)
Lemma integer_lengths_truncate :
  frequencies (T := Z) 5 [1; 1; 1; 5; 5; 9]
  = Ok [(0, 2, 3); (2, 3, 0); (3, 4, 0); (4, 5, 2); (5, 6, 0)].
Proof. reflexivity. Qed.

(** Equal lengths on Python floats: three wires of length 3 fill the first
    of five bins, as in the exact reading. *)
Lemma float_equal_lengths_example :
  frequencies (T := float) 5 [3; 3; 3]%float
  = Ok [(0, 3, 3%Z); (3, 3, 0%Z); (3, 3, 0%Z); (3, 3, 0%Z); (3, 3, 0%Z)]%float.
Proof. vm_compute. reflexivity. Qed.

Lemma scenario_b_histogram_witness :
  exists freq_stats,
    calculate_wire_length_stats six_lengths six_boards [] tt 5 = Ok freq_stats
    /\ length freq_stats = 3%nat.
Proof.
  destruct (scenario_b_histogram six_lengths six_boards [] tt NORTH)
    as (freq_stats & bins & Hrun & _).
  - compute_done.
  - reflexivity.
  - exists freq_stats. split; [exact Hrun|].
    vm_compute in Hrun. by injection Hrun as <-.
Defined.


(** * Properties of the wiring patterns *)

Section PatternFacts.
Context {Board : Type} `{Countable Board}.
Variable follow_wire : Board -> Direction -> Board.

Lemma distinct_count_dom {A : Type} `{Countable A} (iterable : list A) :
  dom (distinct_count iterable) = list_to_set iterable.
Proof.
  unfold distinct_count.
  assert (Hgen : forall (counts : gmap A Z),
            dom (foldl (fun counts item =>
                          <[item := default 0 (counts !! item) + 1]> counts)
                       counts iterable)
            = dom counts ∪ list_to_set iterable).
  { induction iterable as [|x l IH]; intros counts; simpl.
    - set_solver.
    - rewrite IH, dom_insert_L. set_solver. }
  rewrite Hgen, dom_empty_L. set_solver.
Qed.

(** A non-empty dictionary whose values are all equal has one distinct
    value. *)
Lemma one_distinct_value {K A : Type} `{Countable K} `{Countable A}
    (d : gmap K A) :
  d <> ∅ ->
  (forall k1 v1 k2 v2, d !! k1 = Some v1 -> d !! k2 = Some v2 -> v1 = v2) ->
  size (distinct_count (itervalues d)) = 1%nat.
Proof.
  intros Hne Heq.
  rewrite <- size_dom, distinct_count_dom. unfold itervalues.
  destruct (map_to_list d) as [|[k v] l] eqn:Hl.
  - by apply map_to_list_empty_iff in Hl.
  - assert (Hall : forall x, x ∈ ((k, v) :: l).*2 -> x = v).
    { intros x Hx. apply list_elem_of_fmap in Hx as ([k' v'] & -> & Hin).
      rewrite <- Hl in Hin. apply elem_of_map_to_list in Hin.
      assert (Hv : d !! k = Some v).
      { apply elem_of_map_to_list. rewrite Hl. apply list_elem_of_here. }
      simpl. eauto. }
    assert (Hset : list_to_set ((k, v) :: l).*2 =@{gset A} {[ v ]}).
    { apply set_eq. intros x. rewrite elem_of_list_to_set, elem_of_singleton.
      split; [apply Hall|]. intros ->. simpl. apply list_elem_of_here. }
    rewrite Hset. apply size_singleton.
Qed.

Section Grouping.
Context {G E : Type} `{Countable G} `{Countable E}.
Variables (group_key : Cabinet -> G) (elem_key : Cabinet -> E).

Lemma groups_nonempty (rel_wires : list (Cabinet * Cabinet)) groups :
  groups <> ∅ \/ rel_wires <> [] -> foldl (group_add group_key elem_key) groups rel_wires <> ∅.
Proof.
  revert groups. induction rel_wires as [|[c o] l IH]; intros groups Hne.
  - by destruct Hne.
  - simpl. apply IH. left. apply insert_non_empty.
Qed.

(** Wires of one group make one entry. *)
Lemma groups_one_key (g : G) (rel_wires : list (Cabinet * Cabinet)) groups :
  Forall (fun cv => group_key cv.1 = g) rel_wires ->
  dom groups ⊆ {[ g ]} ->
  dom (foldl (group_add group_key elem_key) groups rel_wires) ⊆ {[ g ]}.
Proof.
  intros Hall. revert groups.
  induction Hall as [|[c o] l Hg _ IH]; intros groups Hdom; simpl; [done|].
  apply IH. rewrite dom_insert_L. simpl in Hg. set_solver.
Qed.

(** Wires with one element key and one relative vector make the same
    one-element pattern in every group. *)
Lemma groups_one_pattern (e : E) (v : Cabinet)
    (rel_wires : list (Cabinet * Cabinet)) groups :
  Forall (fun cv => elem_key cv.1 = e /\ cv.2 = v) rel_wires ->
  (forall g s, groups !! g = Some s -> s = {[ (e, v) ]}) ->
  forall g s, foldl (group_add group_key elem_key) groups rel_wires !! g = Some s -> s = {[ (e, v) ]}.
Proof.
  intros Hall. revert groups.
  induction Hall as [|[c o] l [He Ho] _ IH]; intros groups Hinv; simpl;
    [done|].
  apply IH. intros g s. simpl in He, Ho. subst.
  destruct (decide (group_key c = g)) as [<-|Hne].
  - rewrite lookup_insert_eq. intros [= <-].
    destruct (groups !! group_key c) as [s0|] eqn:Hs0; simpl.
    + rewrite (Hinv _ _ Hs0). set_solver.
    + set_solver.
  - rewrite lookup_insert_ne by done. apply Hinv.
Qed.

End Grouping.

(** What [get_relative_wires] returns: for each board, in order, its own
    triple and the triple of the wire target minus its own. *)
Lemma get_relative_wires_Ok (boards : list (Board * Cabinet)) direction
    rel_wires :
  get_relative_wires follow_wire boards direction = Ok rel_wires ->
  Forall2 (fun bc cv =>
             cv.1 = bc.2
             /\ exists target,
                  dict_of_list boards !! follow_wire bc.1 direction
                  = Some target
                  /\ cv.2 = sub target bc.2)
          boards rel_wires.
Proof.
  unfold get_relative_wires. intros Hrun. apply mapM_Ok in Hrun.
  eapply Forall2_impl; [exact Hrun|].
  intros [board coord] cv. unfold getitem. simpl.
  destruct (dict_of_list boards !! follow_wire board direction) as [t|];
    simpl; [|done].
  intros [= <-]. simpl. eauto.
Qed.

(** C7.  Take the relative wires of one direction and keep those of the
    boards of one rack.  If the rack holds a board and the wire of every
    board of the rack has the same relative vector (the triple of the wire
    target minus the triple of the board), then these wires, grouped by
    rack with the slot as element key, or grouped as the script does (by
    full coordinate, with no element key), show exactly one distinct
    pattern. *)
Theorem identical_vectors_one_pattern (boards : list (Board * Cabinet))
    direction rel_wires (cabinet rack : Z) (v : Cabinet) :
  get_relative_wires follow_wire boards direction = Ok rel_wires ->
  (exists board coord,
      (board, coord) ∈ boards
      /\ cabinet_of coord = cabinet /\ rack_of coord = rack) ->
  (forall board coord target,
      (board, coord) ∈ boards ->
      cabinet_of coord = cabinet -> rack_of coord = rack ->
      dict_of_list boards !! follow_wire board direction = Some target ->
      sub target coord = v) ->
  let rack_wires :=
    filter (fun cv => cabinet_of cv.1 = cabinet /\ rack_of cv.1 = rack)
           rel_wires in
  num_patterns rack_wires (fun c => (cabinet_of c, rack_of c)) slot_of = 1%nat
  /\ num_patterns rack_wires (fun c => c) (fun _ => ()) = 1%nat.
Proof.
  intros Hrun (board0 & coord0 & Hin0 & Hc0 & Hr0) Hsame rack_wires.
  apply get_relative_wires_Ok in Hrun.
  assert (Hne : rack_wires <> []).
  { destruct (list_elem_of_lookup_1 _ _ Hin0) as [i Hi].
    destruct (Forall2_lookup_l _ _ _ _ _ Hrun Hi) as (cv & Hcv & Hfst & _).
    simpl in Hfst.
    assert (Hmem : cv ∈ rack_wires).
    { apply list_elem_of_filter. split; [by rewrite Hfst|].
      by eapply list_elem_of_lookup_2. }
    intros Hnil. rewrite Hnil in Hmem. by apply elem_of_nil in Hmem. }
  assert (Hvec : Forall (fun cv => cv.2 = v) rack_wires).
  { apply Forall_forall. intros cv Hcv.
    apply list_elem_of_filter in Hcv as [[Hc Hr] Hcv].
    destruct (list_elem_of_lookup_1 _ _ Hcv) as [i Hi].
    destruct (Forall2_lookup_r _ _ _ _ _ Hrun Hi)
      as ([board coord] & Hbc & Hfst & target & Ht & ->).
    simpl in *. rewrite Hfst in Hc, Hr.
    eapply Hsame; eauto. by eapply list_elem_of_lookup_2. }
  unfold num_patterns. split.
  - apply one_distinct_value.
    + apply groups_nonempty. by right.
    + assert (Hdom : dom (group_relative_wires rack_wires
                            (fun c => (cabinet_of c, rack_of c)) slot_of)
                     ⊆ {[ (cabinet, rack) ]}).
      { apply groups_one_key; [|set_solver].
        apply Forall_forall. intros cv Hcv.
        apply list_elem_of_filter in Hcv as [[-> ->] _]. done. }
      intros k1 v1 k2 v2 H1 H2.
      assert (Hk1 : k1 ∈ dom (group_relative_wires rack_wires
                         (fun c => (cabinet_of c, rack_of c)) slot_of))
        by (apply elem_of_dom; eauto).
      assert (Hk2 : k2 ∈ dom (group_relative_wires rack_wires
                         (fun c => (cabinet_of c, rack_of c)) slot_of))
        by (apply elem_of_dom; eauto).
      apply Hdom, elem_of_singleton in Hk1, Hk2. congruence.
  - apply one_distinct_value.
    + apply groups_nonempty. by right.
    + intros k1 v1 k2 v2 H1 H2.
      assert (Hpat : forall g s,
                group_relative_wires rack_wires (fun c => c) (fun _ => ())
                  !! g = Some s -> s = {[ ((), v) ]}).
      { apply groups_one_pattern.
        - eapply Forall_impl; [exact Hvec|]. by intros cv ->.
        - intros g s. by rewrite lookup_empty. }
      rewrite (Hpat _ _ H1), (Hpat _ _ H2). done.
Qed.

End PatternFacts.

Lemma identical_vectors_one_pattern_witness :
  exists rel_wires,
    get_relative_wires cross_rack two_racks NORTH = Ok rel_wires
    /\ num_patterns (filter (fun cv => cabinet_of cv.1 = 0 /\ rack_of cv.1 = 0)
                           rel_wires)
         (fun c => c) (fun _ => ()) = 1%nat.
Proof.
  eexists. split; [vm_compute; reflexivity|].
  apply (identical_vectors_one_pattern cross_rack two_racks NORTH _ 0 0
           (0, 1, 0)).
  - vm_compute. reflexivity.
  - exists 0%nat, (0, 0, 0). split; [apply list_elem_of_here|done].
  - intros board coord target Hin Hc Hr. unfold two_racks in Hin.
    rewrite !elem_of_cons, elem_of_nil in Hin.
    destruct Hin as [ [= -> ->] | [ [= -> ->] | [ [= -> ->] | [ [= -> ->] | [] ] ] ] ];
      try discriminate; vm_compute; by intros [= <-].
Defined.

(** * Properties of sorting *)

Section SortFacts.
Context {A : Type} (lt : A -> A -> bool).
Hypothesis lt_asym : forall a b, lt a b = true -> lt b a = false.

Lemma insort_Permutation x l : insort lt x l ≡ₚ x :: l.
Proof.
  induction l as [|y l IH]; simpl; [done|].
  destruct (lt y x); [|done]. rewrite IH. apply Permutation_swap.
Qed.

Lemma sorted_Permutation l : sorted lt l ≡ₚ l.
Proof.
  induction l as [|x l IH]; [done|].
  change (sorted lt (x :: l)) with (insort lt x (sorted lt l)).
  by rewrite insort_Permutation, IH.
Qed.

Lemma insort_HdRel a x l :
  lt x a = false ->
  HdRel (fun a b => lt b a = false) a l ->
  HdRel (fun a b => lt b a = false) a (insort lt x l).
Proof.
  intros Hax Hl. destruct l as [|y l]; simpl.
  - by constructor.
  - destruct (lt y x); constructor; [|done].
    by apply HdRel_inv in Hl.
Qed.

Lemma insort_Sorted x l :
  Sorted (fun a b => lt b a = false) l ->
  Sorted (fun a b => lt b a = false) (insort lt x l).
Proof.
  induction 1 as [|y l Hl IH Hhd]; simpl.
  - by repeat constructor.
  - destruct (lt y x) eqn:Hyx.
    + constructor; [done|]. apply insort_HdRel; [|done]. by apply lt_asym.
    + constructor; [by constructor|]. by constructor.
Qed.

Lemma sorted_Sorted l : Sorted (fun a b => lt b a = false) (sorted lt l).
Proof.
  induction l as [|x l IH]; [constructor|].
  change (sorted lt (x :: l)) with (insort lt x (sorted lt l)).
  by apply insort_Sorted.
Qed.

End SortFacts.

Lemma concat_Permutation {A} (l l' : list (list A)) :
  l ≡ₚ l' -> concat l ≡ₚ concat l'.
Proof.
  induction 1 as [|x l l' _ IH|x y l|l l' l'' _ IH1 _ IH2]; simpl.
  - done.
  - by rewrite IH.
  - rewrite !(assoc app). by rewrite (comm app y x).
  - by rewrite IH1.
Qed.

(** * Properties of the wiring instructions *)

Lemma end_compare_antisym (a b : WireEnd) :
  end_compare b a = CompOpp (end_compare a b).
Proof.
  destruct a as [[[c1 r1] s1] n1], b as [[[c2 r2] s2] n2]. simpl.
  rewrite (Z.compare_antisym c1 c2), (Z.compare_antisym r1 r2),
    (Z.compare_antisym s1 s2), (String.compare_antisym n2 n1).
  destruct (c1 ?= c2); simpl; try done.
  destruct (r1 ?= r2); simpl; try done.
  destruct (s1 ?= s2); simpl; done.
Qed.


Lemma wire_lt_asym (a b : Wire) : wire_lt a b = true -> wire_lt b a = false.
Proof.
  unfold wire_lt, wire_compare.
  rewrite (end_compare_antisym a.1 b.1), (end_compare_antisym a.2 b.2).
  destruct (end_compare a.1 b.1); simpl; try done.
  by destruct (end_compare a.2 b.2).
Qed.

(** The two ends of a record are stored in order. *)
Lemma sorted_pair_cases (source target : WireEnd) :
  sorted_pair source target
  = if end_lt target source then (target, source) else (source, target).
Proof.
  unfold sorted_pair, sorted. simpl. by destruct (end_lt target source).
Qed.


(** The tables are sorted and hold the wires they are given. *)
Lemma generate_wiring_list_Sorted wires :
  Sorted wire_le (generate_wiring_list wires).
Proof. apply (sorted_Sorted wire_lt), wire_lt_asym. Qed.

Lemma generate_wiring_list_Permutation wires :
  generate_wiring_list wires ≡ₚ wires.
Proof. apply sorted_Permutation. Qed.

Section GroupFacts.
Context {K : Type} `{Countable K}.

Lemma all_wires_empty : all_wires (∅ : gmap K (list Wire)) = [].
Proof. unfold all_wires. by rewrite map_to_list_empty. Qed.

Lemma all_wires_group_append (k : K) (w : Wire) (d : gmap K (list Wire)) :
  all_wires (group_append k w d) ≡ₚ w :: all_wires d.
Proof.
  unfold all_wires, group_append.
  destruct (d !! k) as [old|] eqn:Hk; simpl.
  - rewrite <- insert_delete_eq.
    rewrite (concat_Permutation _ _ (fmap_Permutation snd _ _
      (map_to_list_insert (delete k d) k (old ++ [w]) (lookup_delete_eq d k)))).
    rewrite <- (concat_Permutation _ _ (fmap_Permutation snd _ _
      (map_to_list_delete d k old Hk))).
    simpl. rewrite <- (assoc app). simpl.
    symmetry. apply Permutation_middle.
  - by rewrite (concat_Permutation _ _ (fmap_Permutation snd _ _
      (map_to_list_insert d k [w] Hk))).
Qed.

Lemma elem_of_all_wires (d : gmap K (list Wire)) (w : Wire) :
  w ∈ all_wires d <-> exists k l, d !! k = Some l /\ w ∈ l.
Proof.
  unfold all_wires. rewrite list_elem_of_In, in_concat. split.
  - intros (l & Hl & Hw). apply list_elem_of_In in Hl, Hw.
    apply list_elem_of_fmap in Hl as ([k l'] & -> & Hkl).
    apply elem_of_map_to_list in Hkl. eauto.
  - intros (k & l & Hk & Hw). exists l. rewrite <- !list_elem_of_In.
    split; [|done]. apply list_elem_of_fmap. exists (k, l).
    split; [done|]. by apply elem_of_map_to_list.
Qed.

Lemma group_append_lookup (k k' : K) (w w' : Wire) (d : gmap K (list Wire)) l :
  group_append k w d !! k' = Some l -> w' ∈ l ->
  (k' = k /\ w' = w) \/ (exists l', d !! k' = Some l' /\ w' ∈ l').
Proof.
  unfold group_append. destruct (decide (k = k')) as [->|Hne].
  - rewrite lookup_insert_eq. intros [= <-].
    rewrite elem_of_app, list_elem_of_singleton. intros [Hold| ->]; [|by left].
    right. destruct (d !! k') as [old|]; simpl in *; [eauto|].
    by apply elem_of_nil in Hold.
  - rewrite lookup_insert_ne by done. eauto.
Qed.

End GroupFacts.

(** What holds of the three collections during the second loop: the
    wires of a rack list have both ends in that rack, the wires of a
    cabinet list have both ends in that cabinet and in different racks,
    and the remaining wires join different cabinets. *)
Lemma place_wire_scopes slots racks cabs w slots' racks' cabs' :
  place_wire (slots, racks, cabs) w = (slots', racks', cabs') ->
  (forall k l x, slots !! k = Some l -> x ∈ l ->
     same_cabinet x /\ same_rack x /\ k = (cabinet_of x.1.1, rack_of x.1.1)) ->
  (forall k l x, racks !! k = Some l -> x ∈ l ->
     same_cabinet x /\ ~ same_rack x /\ k = cabinet_of x.1.1) ->
  (forall x, x ∈ cabs -> ~ same_cabinet x) ->
  (forall k l x, slots' !! k = Some l -> x ∈ l ->
     same_cabinet x /\ same_rack x /\ k = (cabinet_of x.1.1, rack_of x.1.1))
  /\ (forall k l x, racks' !! k = Some l -> x ∈ l ->
        same_cabinet x /\ ~ same_rack x /\ k = cabinet_of x.1.1)
  /\ (forall x, x ∈ cabs' -> ~ same_cabinet x)
  /\ all_wires slots' ++ all_wires racks' ++ cabs'
     ≡ₚ w :: all_wires slots ++ all_wires racks ++ cabs.
Proof.
  destruct w as [source target]. unfold place_wire, same_cabinet, same_rack.
  intros Hplace Hs Hr Hc.
  destruct (decide (_ = _)) as [Hsame|Hdiff].
  - injection Hplace as <- <- <-. injection Hsame as Hcab Hrack.
    split; [|split; [done|split; [done|] ] ].
    + intros k l x Hk Hx.
      destruct (group_append_lookup _ _ _ _ _ _ Hk Hx)
        as [ [-> ->] | (l' & Hk' & Hx') ]; [done|eauto].
    + by rewrite all_wires_group_append.
  - destruct (decide (cabinet_of source.1 = cabinet_of target.1)) as [Hcab|Hcab].
    + injection Hplace as <- <- <-.
      split; [done|split; [|split; [done|] ] ].
      * intros k l x Hk Hx.
        destruct (group_append_lookup _ _ _ _ _ _ Hk Hx)
          as [ [-> ->] | (l' & Hk' & Hx') ]; [|eauto].
        simpl. split; [done|]. split; [|done]. intros Hrack.
        apply Hdiff. by rewrite Hcab, Hrack.
      * rewrite all_wires_group_append. simpl.
        symmetry. apply Permutation_middle.
    + injection Hplace as <- <- <-.
      split; [done|split; [done|split] ].
      * intros x. rewrite elem_of_app, list_elem_of_singleton.
        intros [Hx| ->]; [by apply Hc|done].
      * rewrite !(assoc app). symmetry. apply Permutation_cons_append.
Qed.

Lemma group_wires_scopes wires :
  forall slots racks cabs slots' racks' cabs',
    foldl place_wire (slots, racks, cabs) wires = (slots', racks', cabs') ->
    (forall k l x, slots !! k = Some l -> x ∈ l ->
       same_cabinet x /\ same_rack x /\ k = (cabinet_of x.1.1, rack_of x.1.1)) ->
    (forall k l x, racks !! k = Some l -> x ∈ l ->
       same_cabinet x /\ ~ same_rack x /\ k = cabinet_of x.1.1) ->
    (forall x, x ∈ cabs -> ~ same_cabinet x) ->
    (forall k l x, slots' !! k = Some l -> x ∈ l ->
       same_cabinet x /\ same_rack x /\ k = (cabinet_of x.1.1, rack_of x.1.1))
    /\ (forall k l x, racks' !! k = Some l -> x ∈ l ->
          same_cabinet x /\ ~ same_rack x /\ k = cabinet_of x.1.1)
    /\ (forall x, x ∈ cabs' -> ~ same_cabinet x)
    /\ all_wires slots' ++ all_wires racks' ++ cabs'
       ≡ₚ (all_wires slots ++ all_wires racks ++ cabs) ++ wires.
Proof.
  induction wires as [|w wires IH]; intros * Hfold Hs Hr Hc.
  - injection Hfold as <- <- <-. by rewrite app_nil_r.
  - cbn [foldl] in Hfold.
    destruct (place_wire (slots, racks, cabs) w) as [[slots1 racks1] cabs1]
      eqn:Hplace.
    destruct (place_wire_scopes _ _ _ _ _ _ _ Hplace Hs Hr Hc)
      as (Hs1 & Hr1 & Hc1 & Hperm1).
    destruct (IH _ _ _ _ _ _ Hfold Hs1 Hr1 Hc1) as (Hs' & Hr' & Hc' & Hperm).
    split; [done|split; [done|split; [done|] ] ].
    rewrite Hperm, Hperm1. simpl. apply Permutation_middle.
Qed.

Lemma elem_of_concat {A} (x : A) (ls : list (list A)) :
  x ∈ concat ls <-> exists l, l ∈ ls /\ x ∈ l.
Proof.
  rewrite list_elem_of_In, in_concat.
  split; intros (l & Hl & Hx); exists l; by rewrite ?list_elem_of_In in *.
Qed.

Section InstructionFacts.
Context {Board : Type} `{Countable Board}.
Variable follow_wire : Board -> Direction -> Board.
Variable cabinet_torus : list (Board * Cabinet).
Variables num_cabinets num_racks_per_cabinet : Z.



End InstructionFacts.


(** * Properties of the pipeline driver *)

Section PipelineFacts.
Context {Board Hex Cart Phys System : Type}.
Variable create_torus : Z -> Z -> list (Board * Hex).
Variable hex_to_cartesian : list (Board * Hex) -> list (Board * Cart).
Variable rhombus_to_rect : list (Board * Cart) -> list (Board * Cart).
Variable compress : list (Board * Cart) -> Z -> Z -> list (Board * Cart).
Variable fold : list (Board * Cart) -> Z * Z -> list (Board * Cart).
Variable cabinetise :
  list (Board * Cart) -> Z -> Z -> Z -> list (Board * Cabinet).
Variable cabinet_to_physical :
  list (Board * Cabinet) -> System -> list (Board * Phys).

(** C8.  Whatever [space_folds] returns, the functional chain is the same:
    [fold] is applied to the output of [compress], [cabinetise] to the
    output of [fold], and the physical placement is
    [cabinet_to_physical(cabinetise(fold(compress(rhombus_to_rect(
    hex_to_cartesian(torus))))))]; the outputs of [space_folds] are the
    three diagram variables and nothing else depends on them. *)
Theorem space_folds_only_for_diagrams
    (space_folds space_folds' :
       list (Board * Cart) -> Z * Z -> list (Board * Cart))
    (p : pipeline.Params) (cabinet_system : System) :
  let models sf :=
    pipeline.generate_models create_torus hex_to_cartesian rhombus_to_rect
      compress sf fold cabinetise cabinet_to_physical p cabinet_system in
  let m := models space_folds in
  let m' := models space_folds' in
  pipeline.folded_torus m
  = fold (pipeline.comp_torus m)
         (pipeline.num_folds_x p, pipeline.num_folds_y p)
  /\ pipeline.cabinet_torus m
     = cabinetise (pipeline.folded_torus m) (pipeline.num_cabinets p)
         (pipeline.num_racks_per_cabinet p) (pipeline.num_slots_per_rack p)
  /\ pipeline.phys_torus m
     = cabinet_to_physical
         (cabinetise
            (fold
               (compress
                  (rhombus_to_rect
                     (hex_to_cartesian (pipeline.torus m)))
                  (if pipeline.compress_rows p then 1 else 2)
                  (if pipeline.compress_rows p then 2 else 1))
               (pipeline.num_folds_x p, pipeline.num_folds_y p))
            (pipeline.num_cabinets p) (pipeline.num_racks_per_cabinet p)
            (pipeline.num_slots_per_rack p))
         cabinet_system
  /\ pipeline.fold_spaced_torus m
     = space_folds (pipeline.comp_torus m)
         (pipeline.num_folds_x p, pipeline.num_folds_y p)
  /\ pipeline.folded_spaced_torus m
     = space_folds (pipeline.folded_torus m)
         (pipeline.num_folds_x p, pipeline.num_folds_y p)
  /\ pipeline.folded_cabinet_spaced_torus m
     = space_folds (pipeline.folded_torus m)
         (pipeline.num_cabinets p, pipeline.num_racks_per_cabinet p)
  /\ pipeline.torus m = pipeline.torus m'
  /\ pipeline.cart_torus m = pipeline.cart_torus m'
  /\ pipeline.rect_torus m = pipeline.rect_torus m'
  /\ pipeline.comp_torus m = pipeline.comp_torus m'
  /\ pipeline.folded_torus m = pipeline.folded_torus m'
  /\ pipeline.cabinet_torus m = pipeline.cabinet_torus m'
  /\ pipeline.phys_torus m = pipeline.phys_torus m'.
Proof.
  intros models m m'. unfold m, m', models, pipeline.generate_models.
  cbn [pipeline.torus pipeline.cart_torus pipeline.rect_torus
       pipeline.comp_torus pipeline.fold_spaced_torus pipeline.folded_torus
       pipeline.folded_spaced_torus pipeline.folded_cabinet_spaced_torus
       pipeline.cabinet_torus pipeline.phys_torus].
  repeat split; reflexivity.
Qed.

End PipelineFacts.

(** * Further properties: errors of the loops *)

Lemma mapM_Raise {A B} (f : A -> result B) (l : list A) (e : exn) :
  mapM f l = Raise e -> exists x, x ∈ l /\ f x = Raise e.
Proof.
  induction l as [|x l IH]; simpl; [done|].
  destruct (f x) as [y|e'] eqn:Ef; simpl.
  - destruct (mapM f l) as [ys|e'] eqn:Em; simpl; [done|].
    intros [= ->]. destruct (IH eq_refl) as (x' & Hin & Hx').
    exists x'. split; [by apply list_elem_of_further|done].
  - intros [= ->]. exists x. split; [apply list_elem_of_here|done].
Qed.

(** * Further properties of the cabinet statistics *)

Section CabinetStatsMore.
Context {Board : Type} `{Countable Board}.
Variable follow_wire : Board -> Direction -> Board.

Lemma count_wire_direction b2c board (entry entry' : Direction * list Z) :
  count_wire follow_wire b2c board entry = Ok entry' -> entry'.1 = entry.1.
Proof.
  destruct entry as [d counters]. unfold count_wire, getitem.
  destruct (b2c !! board) as [s|]; simpl; [|done].
  destruct (b2c !! follow_wire board d) as [t|]; simpl; [|done].
  unfold mret, result_ret.
  repeat (destruct (0 <? _)); first [by intros [= <-] | done].
Qed.

Lemma wire_ends_Some b2c board d (s t : Cabinet) :
  wire_ends follow_wire b2c board d = Some (s, t) <->
  b2c !! board = Some s /\ b2c !! follow_wire board d = Some t.
Proof.
  unfold wire_ends.
  destruct (b2c !! board) as [s'|]; simpl; [|split; [done|by intros [? ?] ] ].
  destruct (b2c !! follow_wire board d) as [t'|]; simpl.
  - split; [by intros [= -> ->]|by intros [ [= ->] [= ->] ] ].
  - split; [done|by intros [? ?] ].
Qed.

(** Why one step of the inner loop fails: a missing key, or a wire whose
    two ends are the same triple. *)
Lemma count_wire_Raise b2c board d counters e :
  count_wire follow_wire b2c board (d, counters) = Raise e ->
  (e = KeyError /\ wire_ends follow_wire b2c board d = None)
  \/ (e = AssertionError
      /\ exists s, wire_ends follow_wire b2c board d = Some (s, s)).
Proof.
  intros Hrun.
  destruct (wire_ends follow_wire b2c board d) as [ [s t]|] eqn:Hends.
  - right. destruct (decide (s = t)) as [->|Hne].
    + split; [|eauto]. apply wire_ends_Some in Hends as [Hs Ht].
      unfold count_wire, getitem in Hrun. rewrite Hs, Ht in Hrun.
      simpl in Hrun. unfold abs, sub in Hrun.
      unfold cabinet_of at 1, rack_of at 1, slot_of at 1 in Hrun.
      simpl in Hrun. rewrite !Z.sub_diag in Hrun. simpl in Hrun.
      by injection Hrun as <-.
    + destruct (count_wire_total follow_wire b2c board d counters s t
                  Hends Hne) as [counters' Hok].
      congruence.
  - left. split; [|done]. unfold count_wire, wire_ends, getitem in *.
    destruct (b2c !! board) as [s|]; simpl in *; [|by injection Hrun as <-].
    destruct (b2c !! follow_wire board d) as [t|]; simpl in *; [done|].
    by injection Hrun as <-.
Qed.

(** Why the two loops fail. *)
Lemma wire_counters_Raise b2c (l : list (Board * Cabinet)) e :
  forall stats,
    Forall (fun entry => entry.1 ∈ principal_directions) stats ->
    foldM (fun stats '(board, coord) =>
             mapM (count_wire follow_wire b2c board) stats) stats l
    = Raise e ->
    exists bc d,
      bc ∈ l /\ d ∈ principal_directions
      /\ ((e = KeyError /\ wire_ends follow_wire b2c bc.1 d = None)
          \/ (e = AssertionError
              /\ exists s, wire_ends follow_wire b2c bc.1 d = Some (s, s))).
Proof.
  induction l as [|[board coord] l IH]; intros stats Hdirs Hrun;
    cbn [foldM] in Hrun; [done|].
  destruct (mapM (count_wire follow_wire b2c board) stats) as [stats1|e1]
    eqn:Hstep; cbn in Hrun.
  - assert (Hdirs1 : Forall (fun entry => entry.1 ∈ principal_directions)
                       stats1).
    { apply mapM_Ok in Hstep. clear Hrun.
      induction Hstep as [|x y xs ys Hxy _ IHs]; [constructor|].
      apply Forall_cons in Hdirs as [Hx Hxs]. constructor; [|by apply IHs].
      by rewrite (count_wire_direction _ _ _ _ Hxy). }
    destruct (IH stats1 Hdirs1 Hrun) as (bc & d & Hbc & Hd & Hwhy).
    exists bc, d. split; [by apply list_elem_of_further|done].
  - injection Hrun as ->.
    apply mapM_Raise in Hstep as ([d counters] & Hin & Hraise).
    exists (board, coord), d. split; [apply list_elem_of_here|].
    split; [by apply (proj1 (Forall_forall _ _) Hdirs _ Hin)|].
    by apply count_wire_Raise in Hraise.
Qed.

Lemma initial_stats_principal :
  Forall (fun entry : Direction * list Z => entry.1 ∈ principal_directions)
         initial_stats.
Proof. unfold initial_stats, principal_directions. repeat constructor; compute_done. Qed.

(** X1.  [calculate_wire_cabinet_stats] returns exactly when every wire of
    [cabinet_torus] has a known triple at both ends and the two triples
    differ.  Otherwise it raises [KeyError] for a board without a triple,
    or [AssertionError] for a wire whose ends have the same triple. *)
Theorem wire_cabinet_stats_returns_iff (cabinet_torus boards : list (Board * Cabinet)) :
  ((exists r, calculate_wire_cabinet_stats follow_wire cabinet_torus boards
              = Ok r)
   <-> wires_leave follow_wire (dict_of_list boards) cabinet_torus)
  /\ (forall e,
        calculate_wire_cabinet_stats follow_wire cabinet_torus boards
        = Raise e ->
        exists bc d,
          bc ∈ cabinet_torus /\ d ∈ principal_directions
          /\ ((e = KeyError
               /\ wire_ends follow_wire (dict_of_list boards) bc.1 d = None)
              \/ (e = AssertionError
                  /\ exists s,
                       wire_ends follow_wire (dict_of_list boards) bc.1 d
                       = Some (s, s)))).
Proof.
  unfold calculate_wire_cabinet_stats, wire_counters. split; [split|].
  - intros [r Hrun].
    destruct (foldM _ _ _) as [stats|] eqn:Hfold; [|done].
    unfold initial_stats in Hfold.
    by apply wire_counters_fold in Hfold as [_ Hleave].
  - intros Hleave.
    destruct (wire_counters_total follow_wire _ _ Hleave initial_stats
                initial_stats_principal) as [stats ->].
    by eexists.
  - intros e Hrun.
    destruct (foldM _ _ _) as [stats|e'] eqn:Hfold; [done|].
    injection Hrun as ->.
    by apply wire_counters_Raise in Hfold; [|apply initial_stats_principal].
Qed.

Lemma foldM_fst {A B S} (g : A -> S -> result S) (l : list (A * B)) (s : S) :
  foldM (fun s '(a, _) => g a s) s l = foldM (fun s a => g a s) s l.*1.
Proof.
  revert s. induction l as [|[a b] l IH]; intros s; simpl; [done|].
  destruct (g a s); simpl; [apply IH|done].
Qed.

(** X2.  The loop takes only the boards from [cabinet_torus]: the triples
    stored there are not read, every triple comes from [boards]. *)
Theorem wire_cabinet_stats_reads_boards_only
    (cabinet_torus cabinet_torus' boards : list (Board * Cabinet)) :
  cabinet_torus.*1 = cabinet_torus'.*1 ->
  calculate_wire_cabinet_stats follow_wire cabinet_torus boards
  = calculate_wire_cabinet_stats follow_wire cabinet_torus' boards.
Proof.
  intros Hsame. unfold calculate_wire_cabinet_stats, wire_counters.
  rewrite (foldM_fst (fun board stats =>
             mapM (count_wire follow_wire (dict_of_list boards) board) stats)
             cabinet_torus).
  rewrite (foldM_fst (fun board stats =>
             mapM (count_wire follow_wire (dict_of_list boards) board) stats)
             cabinet_torus').
  by rewrite Hsame.
Qed.

End CabinetStatsMore.

Lemma wire_cabinet_stats_reads_boards_only_witness :
  calculate_wire_cabinet_stats ring3 ring3_torus ring3_cabinets
  = calculate_wire_cabinet_stats ring3 ring3_cabinets ring3_cabinets.
Proof.
  apply (wire_cabinet_stats_reads_boards_only ring3 ring3_torus ring3_cabinets
           ring3_cabinets).
  reflexivity.
Defined.

(** * Further properties of the loop functions *)

Section LoopMore.
Context {Board : Type} `{Countable Board}.
Context {Coord : Type} `{Countable Coord}.
Variable follow_wire : Board -> Direction -> Board.
Variable follow_packet : Board -> Direction -> Direction -> Direction * Board.
Variable follow_packet_loop :
  Board -> Direction -> Direction -> list (Direction * Board).

Lemma direction_colour_not_principal d :
  d ∉ principal_directions -> direction_colour d = Raise KeyError.
Proof.
  unfold principal_directions. rewrite !not_elem_of_cons.
  intros (? & ? & ? & _). by destruct d.
Qed.

(** X3.  Neither loop function returns for a start coordinate that no board
    has, or for a direction without a colour (any direction but North, East
    and South-West): [generate_packet_loop] raises [KeyError], and so does
    [generate_wiring_loop] unless its traversal has not ended before. *)
Theorem loop_functions_key_errors fuel (boards : list (Board * Coord))
    direction diagram (start : Coord) :
  dict_of_list (prod_swap <$> boards) !! start = None
  \/ direction ∉ principal_directions ->
  generate_packet_loop follow_packet follow_packet_loop boards direction
    diagram start = Raise KeyError
  /\ (generate_wiring_loop follow_wire fuel boards direction diagram start
      = Raise KeyError
      \/ generate_wiring_loop follow_wire fuel boards direction diagram start
         = Raise NotTerminated).
Proof.
  unfold generate_packet_loop, generate_wiring_loop, getitem.
  intros [Hstart|Hdir].
  - rewrite Hstart. simpl. auto.
  - rewrite (direction_colour_not_principal _ Hdir).
    destruct (dict_of_list (prod_swap <$> boards) !! start) as [b|]; simpl;
      [|auto].
    split; [done|].
    destruct (follow_wiring_loop follow_wire fuel b direction) as [loop|e]
      eqn:Hloop; simpl; [auto|].
    unfold follow_wiring_loop in Hloop.
    assert (Hfuel : forall n cur e',
              wiring_loop_from follow_wire n b cur direction = Raise e' ->
              e' = NotTerminated).
    { induction n as [|n IH]; intros cur e'; simpl; [by intros [= <-]|].
      destruct (decide (cur = b)); [done|].
      destruct (wiring_loop_from follow_wire n b _ direction) eqn:Hrec;
        simpl; [done|]. intros [= <-]. eauto. }
    destruct (wiring_loop_from follow_wire fuel b _ direction) eqn:Hrec;
      simpl in Hloop; [done|].
    injection Hloop as <-. right. f_equal. eauto.
Qed.




End LoopMore.

Lemma loop_functions_key_errors_witness :
  generate_packet_loop (fun b _ d => (opposite d, ring3 b d))
    (fun b _ d => [(SOUTH, b)]) ring3_torus SOUTH [] (0, 0, 0)
  = Raise KeyError.
Proof.
  apply (loop_functions_key_errors ring3 (fun b _ d => (opposite d, ring3 b d))
           (fun b _ d => [(SOUTH, b)]) 3 ring3_torus SOUTH [] (0, 0, 0)).
  right. compute_done.
Defined.


(** * Further properties of the wire length histogram *)

Section LengthStatsMore.
Context {T : Type} `{PyNum T}.
Context {Board Phys Offsets : Type}.
Variable wire_length : list (Board * Phys) -> Board -> Direction -> Offsets -> T.

Lemma sorted_length {A} (lt : A -> A -> bool) (l : list A) :
  length (sorted lt l) = length l.
Proof. by rewrite (sorted_Permutation lt l). Qed.

Lemma frequencies_length (num_bins : Z) (lengths : list T) bins :
  frequencies num_bins lengths = Ok bins ->
  length bins = Z.to_nat num_bins.
Proof.
  unfold frequencies.
  destruct (py_min _) as [min_len|]; [|done].
  destruct (py_max _) as [max_len|]; [|done].
  cbn [mbind result_bind].
  destruct (py_div_int _ _) as [bin_len|]; [|done].
  cbn [mbind result_bind mret result_ret]. intros [= <-].
  unfold sorted_by, range.
  by rewrite sorted_length, !length_fmap, length_seq.
Qed.

(** X5.  When [calculate_wire_length_stats] returns, it has one entry for each of
    North, East and South-West, in this order, and every entry has exactly
    [num_bins] bins (none when [num_bins] is negative). *)
Theorem wire_length_stats_shape (cabinet_torus : list (Board * Cabinet))
    boards wire_offsets num_bins freq_stats :
  calculate_wire_length_stats wire_length cabinet_torus boards wire_offsets
    num_bins = Ok freq_stats ->
  freq_stats.*1 = [NORTH; EAST; SOUTH_WEST]
  /\ Forall (fun entry => length entry.2 = Z.to_nat num_bins) freq_stats.
Proof.
  unfold calculate_wire_length_stats. intros Hrun.
  apply mapM_Ok in Hrun. split.
  - change [NORTH; EAST; SOUTH_WEST] with
      ((fun d : Direction =>
          (d, (fun bc : Board * Cabinet =>
                 wire_length boards bc.1 d wire_offsets) <$> cabinet_torus))
         <$> principal_directions).*1.
    induction Hrun as [|[d ls] [d' bins] stats fs Hd _ IH]; [done|].
    simpl in *. destruct (frequencies num_bins ls); [|done].
    simpl in Hd. injection Hd as <- _. by f_equal.
  - induction Hrun as [|[d ls] [d' bins] stats fs Hd _ IH]; [done|].
    constructor; [|done]. simpl.
    destruct (frequencies num_bins ls) as [bins'|] eqn:Hf; [|done].
    simpl in Hd. injection Hd as _ <-. by eapply frequencies_length.
Qed.

(** The dictionary [hist] adds up, over the keys that satisfy a test, to
    the number of lengths that satisfy it, as long as two lengths that
    compare equal are the same. *)
Lemma hist_incr_sum (P : T -> bool) (l : T) (hist : list (T * Z)) :
  (forall k, k ∈ hist.*1 -> py_eq k l = true -> k = l) ->
  sum (snd <$> filter (fun lc => P lc.1 = true) (hist_incr l hist))
  = sum (snd <$> filter (fun lc => P lc.1 = true) hist) + Z.b2z (P l).
Proof.
  unfold sum.
  induction hist as [|[k c] hist IH]; intros Heq.
  - cbn [hist_incr]. rewrite filter_cons, filter_nil. cbn [fst].
    destruct (P l); case_decide; (try done); rewrite ?fmap_cons, ?fmap_nil;
      cbn [foldr snd Z.b2z]; lia.
  - cbn [hist_incr]. destruct (py_eq k l) eqn:Hkl.
    + assert (k = l) as -> by (apply Heq; [apply list_elem_of_here|done]).
      rewrite !filter_cons. cbn [fst].
      destruct (P l); repeat case_decide; (try done); rewrite ?fmap_cons;
        cbn [foldr snd Z.b2z]; lia.
    + rewrite !filter_cons. cbn [fst].
      assert (IH' := IH (fun k' Hk' => Heq k' (list_elem_of_further _ _ _ Hk'))).
      destruct (P k); repeat case_decide; (try done); rewrite ?fmap_cons;
        cbn [foldr snd]; lia.
Qed.

Lemma hist_incr_keys (l : T) (hist : list (T * Z)) k :
  k ∈ (hist_incr l hist).*1 -> k ∈ hist.*1 \/ k = l.
Proof.
  induction hist as [|[k' c] hist IH]; simpl.
  - rewrite list_elem_of_singleton. auto.
  - destruct (py_eq k' l); simpl; rewrite !elem_of_cons; [tauto|].
    intros [->|Hin]; [tauto|]. destruct (IH Hin); tauto.
Qed.

Lemma hist_sum (P : T -> bool) (lengths : list T) :
  forall hist,
    (forall x y, x ∈ hist.*1 ++ lengths -> y ∈ lengths ->
                 py_eq x y = true -> x = y) ->
    sum (snd <$> filter (fun lc => P lc.1 = true)
                        (foldl (fun h l => hist_incr l h) hist lengths))
    = sum (snd <$> filter (fun lc => P lc.1 = true) hist)
      + Z.of_nat (length (filter (fun l => P l = true) lengths)).
Proof.
  induction lengths as [|l lengths IH]; intros hist Heq.
  - simpl. lia.
  - cbn [foldl]. rewrite IH.
    + rewrite hist_incr_sum.
      * rewrite filter_cons. destruct (P l); case_decide; (try done);
          simpl length; simpl Z.b2z; lia.
      * intros k Hk. apply Heq; [|apply list_elem_of_here].
        apply elem_of_app. by left.
    + intros x y Hx Hy. apply Heq; [|by apply list_elem_of_further].
      apply elem_of_app in Hx as [Hx|Hx].
      * apply hist_incr_keys in Hx as [Hx| ->].
        -- apply elem_of_app. by left.
        -- apply elem_of_app. right. apply list_elem_of_here.
      * apply elem_of_app. right. by apply list_elem_of_further.
Qed.

(** X6.  Every bin counts the wires whose length lies in it: above its start
    and at most its end.  This needs that lengths which compare equal are
    the same number (true of integers, of rationals, and of floats other
    than the two zeros). *)
Theorem bins_count_lengths_inside (num_bins : Z) (lengths : list T) bins :
  (forall x y, x ∈ lengths -> y ∈ lengths -> py_eq x y = true -> x = y) ->
  frequencies num_bins lengths = Ok bins ->
  Forall (fun bin =>
            bin.2 = Z.of_nat (length (filter
                      (fun l => py_lt bin.1.1 l && py_le l bin.1.2 = true)
                      lengths)))
         bins.
Proof.
  intros Heq. unfold frequencies.
  destruct (py_min _) as [min_len|]; [|done].
  destruct (py_max _) as [max_len|]; [|done].
  cbn [mbind result_bind].
  destruct (py_div_int _ _) as [bin_len|]; [|done].
  cbn [mbind result_bind mret result_ret]. intros [= <-].
  unfold sorted_by. rewrite (sorted_Permutation _ _).
  apply Forall_fmap, Forall_forall. intros bin_num _. simpl.
  rewrite (hist_sum (fun l => py_lt _ l && py_le l _)).
  - simpl. unfold sum. simpl. lia.
  - intros x y Hx Hy. simpl in Hx. by apply Heq.
Qed.

End LengthStatsMore.



Lemma wire_length_stats_shape_witness :
  exists freq_stats,
    calculate_wire_length_stats six_lengths six_boards [] tt 5 = Ok freq_stats
    /\ freq_stats.*1 = [NORTH; EAST; SOUTH_WEST].
Proof.
  assert (Hrun : exists fs, calculate_wire_length_stats six_lengths six_boards
                              [] tt 5 = Ok fs)
    by (eexists; vm_compute; reflexivity).
  destruct Hrun as [fs Hrun]. exists fs. split; [exact Hrun|].
  by destruct (wire_length_stats_shape six_lengths six_boards [] tt 5 fs Hrun).
Defined.

Lemma bins_count_lengths_inside_witness :
  exists bins,
    frequencies 5 [1; 1; 1; 5; 5; 9]%float = Ok bins
    /\ Forall (fun bin =>
                 bin.2 = Z.of_nat (length (filter
                           (fun l => py_lt bin.1.1 l && py_le l bin.1.2 = true)
                           [1; 1; 1; 5; 5; 9]%float)))
              bins.
Proof.
  assert (Hrun : exists bins, frequencies 5 [1; 1; 1; 5; 5; 9]%float = Ok bins)
    by (eexists; vm_compute; reflexivity).
  destruct Hrun as [bins Hrun]. exists bins. split; [exact Hrun|].
  apply (bins_count_lengths_inside 5 [1; 1; 1; 5; 5; 9]%float bins);
    [|exact Hrun].
  intros x y Hx Hy.
  rewrite !elem_of_cons, elem_of_nil in Hx, Hy.
  destruct Hx as [-> | [-> | [-> | [-> | [-> | [-> | [] ] ] ] ] ] ];
    destruct Hy as [-> | [-> | [-> | [-> | [-> | [-> | [] ] ] ] ] ] ];
    vm_compute; congruence.
Defined.

(** * Further properties of the wiring patterns *)

Lemma foldl_snoc {A B} (f : A -> B -> A) (a : A) (l : list B) (x : B) :
  foldl f a (l ++ [x]) = f (foldl f a l) x.
Proof. by rewrite foldl_app. Qed.

Section PatternMore.
Context {Board : Type} `{Countable Board}.
Variable follow_wire : Board -> Direction -> Board.

(** X8.  [get_relative_wires] returns exactly when the wire of every board, in
    the given direction, leads to a board of the list; it then gives one
    entry per board, in order, under the board's own coordinate.
    Otherwise it raises [KeyError]. *)
Theorem get_relative_wires_outcome (boards : list (Board * Cabinet))
    direction :
  match get_relative_wires follow_wire boards direction with
  | Ok rel_wires =>
      rel_wires.*1 = boards.*2
      /\ Forall (fun bc => follow_wire bc.1 direction ∈ boards.*1) boards
  | Raise e =>
      e = KeyError
      /\ Exists (fun bc => follow_wire bc.1 direction ∉ boards.*1) boards
  end.
Proof.
  destruct (get_relative_wires follow_wire boards direction)
    as [rel_wires|e] eqn:Hrun.
  - apply get_relative_wires_Ok in Hrun. split.
    + assert (Hfst : Forall2 (fun (bc : Board * Cabinet)
                                  (cv : Cabinet * Cabinet) => cv.1 = bc.2)
                             boards rel_wires).
      { eapply Forall2_impl; [exact Hrun|]. by intros bc cv [Hcv _]. }
      clear Hrun. induction Hfst as [|bc cv l r Hcv _ IH]; [done|].
      rewrite !fmap_cons. by f_equal.
    + eapply Forall2_Forall_l; [exact Hrun|].
      apply Forall_forall. intros cv _ bc (_ & target & Hlook & _).
      apply dict_of_list_lookup_elem in Hlook.
      apply list_elem_of_fmap. by exists (follow_wire bc.1 direction, target).
  - unfold get_relative_wires in Hrun.
    apply mapM_Raise in Hrun as ([board coord] & Hin & Hraise).
    unfold getitem in Hraise.
    destruct (dict_of_list boards !! follow_wire board direction)
      as [target|] eqn:Hlook; [done|].
    simpl in Hraise. injection Hraise as <-. split; [done|].
    apply Exists_exists. exists (board, coord). split; [done|]. simpl.
    intros Hkey. apply dict_of_list_lookup_key in Hkey as [v Hv]. congruence.
Qed.

Section GroupingMore.
Context {G E : Type} `{Countable G} `{Countable E}.
Variables (group_key : Cabinet -> G) (elem_key : Cabinet -> E).

(** X9.  What a group holds: the pairs of element key and relative vector of
    the wires whose coordinate has the group's key.  A key that no wire
    has is not in the dictionary, so that no group is empty. *)
Theorem group_relative_wires_members (rel_wires : list (Cabinet * Cabinet))
    (g : G) :
  match group_relative_wires rel_wires group_key elem_key !! g with
  | Some s =>
      s <> ∅
      /\ forall e o,
           (e, o) ∈ s
           <-> exists coord,
                 (coord, o) ∈ rel_wires
                 /\ group_key coord = g /\ elem_key coord = e
  | None => forall coord o, (coord, o) ∈ rel_wires -> group_key coord <> g
  end.
Proof.
  unfold group_relative_wires.
  induction rel_wires as [|[c o'] l IH] using rev_ind.
  - simpl. rewrite lookup_empty. intros coord o Hin.
    by apply elem_of_nil in Hin.
  - rewrite foldl_snoc. cbn [group_add].
    destruct (decide (group_key c = g)) as [<-|Hne].
    + rewrite lookup_insert_eq. split; [set_solver|].
      intros e o. rewrite elem_of_union, elem_of_singleton.
      destruct (foldl _ _ l !! group_key c) as [s0|] eqn:Hs0; simpl.
      * destruct IH as [_ IH]. rewrite IH. split.
        -- intros [(coord & Hin & Hg & He)|[= -> ->] ].
           ++ exists coord. rewrite elem_of_app. tauto.
           ++ exists c. rewrite elem_of_app, list_elem_of_singleton. tauto.
        -- intros (coord & Hin & Hg & He).
           apply elem_of_app in Hin as [Hin|Hin].
           ++ left. by exists coord.
           ++ apply list_elem_of_singleton in Hin as [= -> ->].
              right. by subst.
      * split.
        -- intros [Hin|[= -> ->] ]; [by apply elem_of_empty in Hin|].
           exists c. rewrite elem_of_app, list_elem_of_singleton. tauto.
        -- intros (coord & Hin & Hg & He).
           apply elem_of_app in Hin as [Hin|Hin].
           ++ by destruct (IH coord o Hin).
           ++ apply list_elem_of_singleton in Hin as [= -> ->].
              right. by subst.
    + rewrite lookup_insert_ne by done.
      destruct (foldl _ _ l !! g) as [s|] eqn:Hs.
      * destruct IH as [Hs0 IH]. split; [done|]. intros e o. rewrite IH.
        split; intros (coord & Hin & Hg & He); exists coord.
        -- rewrite elem_of_app. tauto.
        -- apply elem_of_app in Hin as [Hin|Hin]; [done|].
           apply list_elem_of_singleton in Hin as [= -> ->]. done.
      * intros coord o Hin. apply elem_of_app in Hin as [Hin|Hin].
        -- by apply IH in Hin.
        -- apply list_elem_of_singleton in Hin as [= -> ->]. done.
Qed.

End GroupingMore.

(** X10.  [distinct_count] maps every item of the iterable to the number of
    times it occurs, and holds no other key. *)
Theorem distinct_count_occurrences {A : Type} `{Countable A}
    (iterable : list A) (item : A) :
  distinct_count iterable !! item
  = if decide (item ∈ iterable)
    then Some (Z.of_nat (length (filter (fun x => x = item) iterable)))
    else None.
Proof.
  unfold distinct_count.
  induction iterable as [|x l IH] using rev_ind.
  - cbn [foldl]. rewrite lookup_empty.
    destruct (decide (item ∈ [])) as [Hin|_]; [|done].
    by apply elem_of_nil in Hin.
  - rewrite foldl_snoc, filter_app, length_app.
    destruct (decide (x = item)) as [->|Hne].
    + rewrite lookup_insert_eq, IH.
      destruct (decide (item ∈ l ++ [item])) as [_|Hnin].
      2:{ exfalso. apply Hnin.
          rewrite elem_of_app, list_elem_of_singleton. tauto. }
      rewrite filter_cons_True by done.
      rewrite filter_nil. cbn [length].
      destruct (decide (item ∈ l)) as [Hin|Hin]; cbn [default].
      * f_equal. cbn [length id]. unfold id. lia.
      * f_equal.
        assert (filter (fun x => x = item) l = []) as ->;
          [|unfold id; simpl; lia].
        clear IH. induction l as [|y l IHl]; [done|].
        apply not_elem_of_cons in Hin as [Hy Hin].
        rewrite filter_cons_False by (intros ->; done). by apply IHl.
    + rewrite lookup_insert_ne by done. rewrite IH.
      rewrite filter_cons_False by done. rewrite filter_nil.
      cbn [length]. rewrite Nat.add_0_r.
      destruct (decide (item ∈ l)) as [Hin|Hin];
        destruct (decide (item ∈ l ++ [x])) as [Hin'|Hin']; try done.
      * exfalso. apply Hin'. rewrite elem_of_app. tauto.
      * exfalso. rewrite elem_of_app, list_elem_of_singleton in Hin'.
        destruct Hin' as [|]; [done|congruence].
Qed.

End PatternMore.

(** * Properties of the colouring of wiring patterns *)

Lemma mapM_returns {A B} (f : A -> result B) (l : list A) :
  Forall (fun x => exists y, f x = Ok y) l -> exists r, mapM f l = Ok r.
Proof.
  intros Hall.
  destruct (mapM_total f (fun _ => True) l) as (r & Hr & _); [|by exists r].
  eapply Forall_impl; [exact Hall|]. intros x [y Hy]. by exists y.
Qed.

Lemma enumerate_lookup {A} (l : list A) (n : nat) :
  enumerate l !! n = (fun a => (Z.of_nat n, a)) <$> l !! n.
Proof.
  unfold enumerate. rewrite lookup_zip_with, list_lookup_fmap.
  destruct (l !! n) as [a|] eqn:Hl.
  - rewrite lookup_seq_lt by (by eapply lookup_lt_Some). done.
  - by destruct (seq 0 (length l) !! n).
Qed.

Lemma elem_of_enumerate {A} (l : list A) (i : Z) (a : A) :
  (i, a) ∈ enumerate l <-> exists n : nat, i = Z.of_nat n /\ l !! n = Some a.
Proof.
  rewrite list_elem_of_lookup. split.
  - intros [n Hn]. rewrite enumerate_lookup in Hn. exists n.
    destruct (l !! n); [|done]. by injection Hn as -> ->.
  - intros (n & -> & Hn). exists n. by rewrite enumerate_lookup, Hn.
Qed.

Lemma enumerate_snd {A} (l : list A) : (enumerate l).*2 = l.
Proof.
  unfold enumerate. apply snd_zip. by rewrite length_fmap, length_seq.
Qed.

(** [max] of a non-empty list of integers is one of them and no smaller
    than any. *)
Lemma py_max_int_Ok (xs : list Z) (m : Z) :
  py_max_int xs = Ok m -> m ∈ xs /\ Forall (fun x => x <= m) xs.
Proof.
  destruct xs as [|x xs]; [done|]. simpl. intros [= <-].
  assert (Hgen : forall a,
            foldl (fun m y => if m <? y then y else m) a xs ∈ a :: xs
            /\ a <= foldl (fun m y => if m <? y then y else m) a xs
            /\ Forall (fun y => y <= foldl (fun m y => if m <? y then y else m)
                                       a xs) xs).
  { induction xs as [|y ys IH]; intros a; simpl.
    - split; [apply list_elem_of_here|]. split; [lia|constructor].
    - destruct (IH (if a <? y then y else a)) as (Hin & Hle & Hall).
      destruct (Z.ltb_spec a y).
      + split; [by apply list_elem_of_further|]. split; [lia|].
        by constructor.
      + split.
        { apply elem_of_cons in Hin as [->|Hin];
            [apply list_elem_of_here|].
          by do 2 apply list_elem_of_further. }
        split; [lia|]. constructor; [lia|done]. }
  destruct (Hgen x) as (Hin & Hle & Hall). split; [done|].
  by constructor.
Qed.

Lemma py_max_int_returns (xs : list Z) :
  xs <> [] -> exists m, py_max_int xs = Ok m.
Proof. destruct xs; [done|]. by eexists. Qed.

Section ColouringFacts.
Context {Board : Type} `{Countable Board}.
Variable follow_wire : Board -> Direction -> Board.

(** The ids of the patterns: the pattern at position [n] of
    [distinct_pattern_counts.keys()] gets the id [n]. *)
Lemma pattern_ids_lookup (counts : gmap (gset (() * Cabinet)) Z) p i :
  pattern_ids counts !! p = Some i
  <-> exists n : nat, i = Z.of_nat n /\ keys counts !! n = Some p.
Proof.
  unfold pattern_ids.
  assert (Hfst : ((fun ip : Z * gset (() * Cabinet) => (ip.2, ip.1))
                    <$> enumerate (keys counts)).*1 = keys counts).
  { rewrite <- list_fmap_compose.
    rewrite <- (enumerate_snd (keys counts)) at 2. done. }
  assert (Hnodup : NoDup (keys counts)) by apply NoDup_fst_map_to_list.
  rewrite <- elem_of_enumerate. split.
  - intros Hlook. apply dict_of_list_lookup_elem in Hlook.
    apply list_elem_of_fmap in Hlook as ([i' p'] & [= -> ->] & Hin). done.
  - intros Hin. apply dict_of_list_lookup_NoDup; [by rewrite Hfst|].
    apply list_elem_of_fmap. by exists (i, p).
Qed.

(** Whenever the relative wires can be computed, so can the colouring:
    the keys of [distinct_pattern_counts] number the patterns, every
    coordinate with a wire that passes the filter gets the number of its
    pattern, and the number of colours is the number of patterns, or one
    if there is none. *)
Lemma pattern_colouring_Ok (cabinet_torus : list (Board * Cabinet))
    (wire_filter : Cabinet -> bool) direction rel_wires :
  get_relative_wires follow_wire cabinet_torus direction = Ok rel_wires ->
  exists colouring ids,
    pattern_colouring follow_wire cabinet_torus wire_filter direction
    = Ok (colouring, Z.max 1 (len ids))
    /\ NoDup ids
    /\ Permutation ids
         (keys (distinct_count (itervalues (group_relative_wires
            (filter (fun co => wire_filter co.2 = true) rel_wires)
            (fun c => c) (fun _ => ())))))
    /\ (forall p, p ∈ ids
          <-> exists c, group_relative_wires
                          (filter (fun co => wire_filter co.2 = true) rel_wires)
                          (fun c => c) (fun _ => ()) !! c = Some p)
    /\ (forall c i, colouring !! c = Some i
          <-> exists (n : nat) p,
                i = Z.of_nat n /\ ids !! n = Some p
                /\ group_relative_wires
                     (filter (fun co => wire_filter co.2 = true) rel_wires)
                     (fun c => c) (fun _ => ()) !! c = Some p).
Proof.
  intros Hrel. unfold pattern_colouring. rewrite Hrel.
  cbn [mbind result_bind].
  set (groups := group_relative_wires _ _ _).
  set (counts := distinct_count (itervalues groups)).
  assert (Hids : forall p, p ∈ keys counts <-> exists c, groups !! c = Some p).
  { intros p.
    assert (Hdom : p ∈ keys counts <-> p ∈ dom counts).
    { unfold keys. rewrite list_elem_of_fmap, elem_of_dom. split.
      - intros ([p' v] & -> & Hin). exists v. by apply elem_of_map_to_list.
      - intros [v Hv]. exists (p, v). split; [done|].
        by apply elem_of_map_to_list. }
    rewrite Hdom. unfold counts.
    rewrite distinct_count_dom, elem_of_list_to_set. unfold itervalues.
    rewrite list_elem_of_fmap. split.
    - intros ([c p'] & -> & Hin). exists c. by apply elem_of_map_to_list.
    - intros [c Hc]. exists (c, p). split; [done|].
      by apply elem_of_map_to_list. }
  destruct (mapM_returns
              (fun '(coord, pattern) =>
                 id ← getitem (pattern_ids counts) pattern; mret (coord, id))
              (map_to_list groups)) as [entries Hentries].
  { apply Forall_forall. intros [c p] Hin.
    apply elem_of_map_to_list in Hin.
    assert (Hp : p ∈ keys counts) by (apply Hids; by exists c).
    apply list_elem_of_lookup in Hp as [n Hn].
    assert (Hlook : pattern_ids counts !! p = Some (Z.of_nat n))
      by (apply pattern_ids_lookup; by exists n).
    exists (c, Z.of_nat n). unfold getitem. by rewrite Hlook. }
  rewrite Hentries. cbn [mbind result_bind].
  apply mapM_Ok in Hentries.
  assert (Hrelate : Forall2 (fun (cp : Cabinet * gset (() * Cabinet))
                               (ci : Cabinet * Z) =>
                               ci.1 = cp.1
                               /\ pattern_ids counts !! cp.2 = Some ci.2)
                            (map_to_list groups) entries).
  { eapply Forall2_impl; [exact Hentries|].
    intros [c p] [c' i]. unfold getitem.
    destruct (pattern_ids counts !! p) as [i'|] eqn:Hp; [|done].
    unfold mret, result_ret. simpl. by intros [= <- <-]. }
  clear Hentries.
  assert (Hfst : entries.*1 = (map_to_list groups).*1).
  { induction Hrelate as [|cp ci l r [Hc _] _ IH]; [done|].
    rewrite !fmap_cons. by f_equal. }
  assert (Hcol : forall c i, dict_of_list entries !! c = Some i
                   <-> exists p, groups !! c = Some p
                                 /\ pattern_ids counts !! p = Some i).
  { intros c i. split.
    - intros Hlook. apply dict_of_list_lookup_elem in Hlook.
      apply list_elem_of_lookup in Hlook as [k Hk].
      destruct (Forall2_lookup_r _ _ _ _ _ Hrelate Hk)
        as ([c' p] & Hcp & Hc & Hp).
      simpl in Hc, Hp. subst c'. exists p. split; [|done].
      apply elem_of_map_to_list, list_elem_of_lookup. by exists k.
    - intros (p & Hg & Hp).
      apply elem_of_map_to_list, list_elem_of_lookup in Hg as [k Hk].
      destruct (Forall2_lookup_l _ _ _ _ _ Hrelate Hk)
        as ([c' i'] & Hci & Hc & Hp').
      simpl in Hc, Hp'. subst c'.
      assert (i' = i) as -> by congruence.
      apply dict_of_list_lookup_NoDup.
      + rewrite Hfst. apply NoDup_fst_map_to_list.
      + apply list_elem_of_lookup. by exists k. }
  assert (Hnum : (if decide (pattern_ids counts = ∅) then mret 1
                  else m ← py_max_int (itervalues (pattern_ids counts));
                       mret (m + 1))
                 = Ok (Z.max 1 (len (keys counts)))).
  { destruct (keys counts) as [|p0 ps] eqn:Hkeys.
    - assert (Hempty : pattern_ids counts = ∅).
      { apply map_eq. intros p. rewrite lookup_empty.
        destruct (pattern_ids counts !! p) as [i|] eqn:Hp; [|done].
        apply pattern_ids_lookup in Hp as (n & _ & Hn).
        by rewrite Hkeys in Hn. }
      rewrite decide_True by done. done.
    - assert (Hp0 : pattern_ids counts !! p0 = Some 0).
      { apply pattern_ids_lookup. exists 0%nat. by rewrite Hkeys. }
      rewrite decide_False.
      2:{ intros Hempty. by rewrite Hempty, lookup_empty in Hp0. }
      destruct (py_max_int_returns (itervalues (pattern_ids counts)))
        as [m Hm].
      { unfold itervalues.
        assert (Hin : (p0, 0) ∈ map_to_list (pattern_ids counts))
          by by apply elem_of_map_to_list.
        destruct (map_to_list (pattern_ids counts)); [|done].
        by apply elem_of_nil in Hin. }
      rewrite Hm. cbn [mbind result_bind mret result_ret]. f_equal.
      apply py_max_int_Ok in Hm as [Hin Hall].
      assert (Hvalues : forall v, v ∈ itervalues (pattern_ids counts)
                <-> exists n : nat, v = Z.of_nat n
                                    /\ (n < length (p0 :: ps))%nat).
      { intros v. unfold itervalues. rewrite list_elem_of_fmap. split.
        - intros ([p v'] & -> & Hpv). apply elem_of_map_to_list in Hpv.
          apply pattern_ids_lookup in Hpv as (n & -> & Hn).
          exists n. split; [done|]. rewrite <- Hkeys.
          by eapply lookup_lt_Some.
        - intros (n & -> & Hn). rewrite <- Hkeys in Hn.
          apply lookup_lt_is_Some in Hn as [p Hp].
          exists (p, Z.of_nat n). split; [done|].
          apply elem_of_map_to_list, pattern_ids_lookup. by exists n. }
      apply Hvalues in Hin as (n & -> & Hn).
      assert (Hlast : Z.of_nat (length ps) ∈ itervalues (pattern_ids counts)).
      { apply Hvalues. exists (length ps). simpl. split; [done|lia]. }
      rewrite Forall_forall in Hall. apply Hall in Hlast.
      unfold len. simpl length in *. lia. }
  rewrite Hnum. cbn [mbind result_bind mret result_ret].
  exists (dict_of_list entries), (keys counts).
  split; [done|]. split; [apply NoDup_fst_map_to_list|].
  split; [done|]. split; [exact Hids|].
  intros c i. rewrite Hcol. split.
  - intros (p & Hg & Hp). apply pattern_ids_lookup in Hp as (n & -> & Hn).
    by exists n, p.
  - intros (n & p & -> & Hn & Hg). exists p. split; [done|].
    apply pattern_ids_lookup. by exists n.
Qed.

(** X11.  The colouring gives a number to exactly the coordinates that have a
    wire passing the filter, and two coordinates get the same number
    exactly when they have the same pattern of relative wires. *)
Theorem pattern_colouring_same_id_same_pattern
    (cabinet_torus : list (Board * Cabinet)) (wire_filter : Cabinet -> bool)
    direction rel_wires :
  get_relative_wires follow_wire cabinet_torus direction = Ok rel_wires ->
  exists colouring num_colours,
    pattern_colouring follow_wire cabinet_torus wire_filter direction
    = Ok (colouring, num_colours)
    /\ dom colouring
       = dom (group_relative_wires
                (filter (fun co => wire_filter co.2 = true) rel_wires)
                (fun c => c) (fun _ => ()))
    /\ forall c c' i i',
         colouring !! c = Some i -> colouring !! c' = Some i' ->
         (i = i'
          <-> group_relative_wires
                (filter (fun co => wire_filter co.2 = true) rel_wires)
                (fun c => c) (fun _ => ()) !! c
              = group_relative_wires
                  (filter (fun co => wire_filter co.2 = true) rel_wires)
                  (fun c => c) (fun _ => ()) !! c').
Proof.
  intros Hrel.
  destruct (pattern_colouring_Ok cabinet_torus wire_filter direction
              rel_wires Hrel)
    as (colouring & ids & Hrun & Hnodup & _ & Hids & Hcol).
  exists colouring, (Z.max 1 (len ids)). split; [done|]. split.
  - apply set_eq. intros c. rewrite !elem_of_dom. split.
    + intros [i Hi]. apply Hcol in Hi as (n & p & _ & _ & Hg). by exists p.
    + intros [p Hp].
      assert (Hin : p ∈ ids) by (apply Hids; by exists c).
      apply list_elem_of_lookup in Hin as [n Hn].
      exists (Z.of_nat n). apply Hcol. by exists n, p.
  - intros c c' i i' Hi Hi'.
    apply Hcol in Hi as (n & p & -> & Hn & Hg).
    apply Hcol in Hi' as (n' & p' & -> & Hn' & Hg').
    rewrite Hg, Hg'. split.
    + intros Heq. apply Nat2Z.inj in Heq as ->. congruence.
    + intros [= ->]. f_equal. by eapply NoDup_lookup.
Qed.

(** X12.  The number of colours handed to the diagram is the number of distinct
    patterns, or one when no wire passes the filter; the numbers given to
    coordinates are exactly those from zero up to the number of patterns. *)
Theorem pattern_colouring_num_colours
    (cabinet_torus : list (Board * Cabinet)) (wire_filter : Cabinet -> bool)
    direction rel_wires :
  get_relative_wires follow_wire cabinet_torus direction = Ok rel_wires ->
  exists colouring,
    pattern_colouring follow_wire cabinet_torus wire_filter direction
    = Ok (colouring,
          Z.max 1 (Z.of_nat (num_patterns
                     (filter (fun co => wire_filter co.2 = true) rel_wires)
                     (fun c => c) (fun _ => ()))))
    /\ forall i,
         (exists c, colouring !! c = Some i)
         <-> 0 <= i < Z.of_nat (num_patterns
                        (filter (fun co => wire_filter co.2 = true) rel_wires)
                        (fun c => c) (fun _ => ())).
Proof.
  intros Hrel.
  destruct (pattern_colouring_Ok cabinet_torus wire_filter direction
              rel_wires Hrel)
    as (colouring & ids & Hrun & Hnodup & Hperm & Hids & Hcol).
  assert (Hlen : Z.of_nat (num_patterns
                   (filter (fun co => wire_filter co.2 = true) rel_wires)
                   (fun c => c) (fun _ => ())) = len ids).
  { unfold num_patterns, len. f_equal. rewrite (Permutation_length Hperm).
    unfold keys. by rewrite length_fmap, length_map_to_list. }
  exists colouring. rewrite Hlen. split; [done|].
  intros i. split.
  - intros [c Hc]. apply Hcol in Hc as (n & p & -> & Hn & _).
    apply lookup_lt_Some in Hn. unfold len. lia.
  - intros [Hlo Hhi]. unfold len in Hhi.
    destruct (lookup_lt_is_Some_2 ids (Z.to_nat i)) as [p Hp]; [lia|].
    assert (Hin : p ∈ ids) by (apply list_elem_of_lookup; eauto).
    apply Hids in Hin as [c Hc]. exists c. apply Hcol.
    exists (Z.to_nat i), p. split; [lia|done].
Qed.

End ColouringFacts.

Lemma pattern_colouring_same_id_same_pattern_witness :
  exists colouring num_colours,
    pattern_colouring ring3 ring3_torus change_slot NORTH
    = Ok (colouring, num_colours)
    /\ dom colouring = {[ (0, 0, 0); (0, 0, 1); (0, 0, 2) ]}.
Proof.
  assert (Hrel : get_relative_wires ring3 ring3_torus NORTH
                 = Ok [((0, 0, 0), (0, 0, 1)); ((0, 0, 1), (0, 0, 1));
                       ((0, 0, 2), (0, 0, -2))])
    by (vm_compute; reflexivity).
  destruct (pattern_colouring_same_id_same_pattern ring3 ring3_torus
              change_slot NORTH _ Hrel)
    as (colouring & num_colours & Hrun & Hdom & _).
  exists colouring, num_colours. split; [exact Hrun|].
  rewrite Hdom. vm_compute. reflexivity.
Defined.

Lemma pattern_colouring_num_colours_witness :
  exists colouring,
    pattern_colouring ring3 ring3_torus change_slot NORTH
    = Ok (colouring, 2).
Proof.
  assert (Hrel : get_relative_wires ring3 ring3_torus NORTH
                 = Ok [((0, 0, 0), (0, 0, 1)); ((0, 0, 1), (0, 0, 1));
                       ((0, 0, 2), (0, 0, -2))])
    by (vm_compute; reflexivity).
  destruct (pattern_colouring_num_colours ring3 ring3_torus change_slot NORTH
              _ Hrel)
    as (colouring & Hrun & _).
  exists colouring. exact Hrun.
Defined.

(** * Properties of [generate_cabinet_colouring_diagram] *)

Lemma mapM_Forall2 {A B} (f : A -> result B) (R : A -> B -> Prop)
    (l : list A) :
  (forall x, x ∈ l -> exists y, f x = Ok y /\ R x y) ->
  exists r, mapM f l = Ok r /\ Forall2 R l r.
Proof.
  induction l as [|x l IH]; intros Hall.
  - exists []. split; [done|constructor].
  - destruct (Hall x) as (y & Hy & HR); [apply list_elem_of_here|].
    destruct IH as (r & Hr & HRs).
    { intros x' Hx'. apply Hall. by apply list_elem_of_further. }
    exists (y :: r). simpl. rewrite Hy. simpl. rewrite Hr. simpl.
    split; [done|]. by constructor.
Qed.

Lemma range_lookup (n : Z) (k : nat) (i : Z) :
  range n !! k = Some i <-> i = Z.of_nat k /\ (k < Z.to_nat n)%nat.
Proof.
  unfold range. rewrite list_lookup_fmap. split.
  - destruct (seq 0 (Z.to_nat n) !! k) as [m|] eqn:Hm; [|done].
    apply lookup_seq in Hm as [-> Hlt]. simpl. intros [= <-]. done.
  - intros [-> Hlt]. by rewrite lookup_seq_lt.
Qed.

Lemma elem_of_range (n i : Z) : i ∈ range n <-> 0 <= i < n.
Proof.
  rewrite list_elem_of_lookup. split.
  - intros [k Hk]. apply range_lookup in Hk as [-> Hlt]. lia.
  - intros Hi. exists (Z.to_nat i). apply range_lookup. lia.
Qed.

Lemma range_length (n : Z) : len (range n) = Z.max 0 n.
Proof. unfold len, range. rewrite length_fmap, length_seq. lia. Qed.

Lemma scaled_div_lt (s r r' : Z) :
  0 < s <= 100 -> r < r' -> (r * 100) / s < (r' * 100) / s.
Proof.
  intros Hs Hlt.
  assert (Hstep : (r * 100) / s + 1 <= (r' * 100) / s).
  { rewrite <- (Z.div_add _ 1 s) by lia. apply Z.div_le_mono; lia. }
  lia.
Qed.

(** What the loop "Generate pallet" appends for the index [i]: the two
    neighbours in the spectrum of the segment of [i], and the share of the
    first. *)
Lemma palette_Ok (num_colours : Z) :
  exists colours,
    palette num_colours = Ok colours
    /\ Forall2
         (fun i colour =>
            exists start_colour end_colour,
              0 <= i / ((num_colours + 2) / 3) <= 2
              /\ spectrum !! Z.to_nat (i / ((num_colours + 2) / 3))
                 = Some start_colour
              /\ spectrum !! S (Z.to_nat (i / ((num_colours + 2) / 3)))
                 = Some end_colour
              /\ colour
                 = (start_colour,
                    100 - ((i mod ((num_colours + 2) / 3)) * 100)
                          / ((num_colours + 2) / 3),
                    end_colour))
         (range num_colours) colours.
Proof.
  unfold palette. change (len spectrum) with 4.
  replace (num_colours + 4 - 2) with (num_colours + 2) by lia.
  change (4 - 1) with 3.
  change (py_div (num_colours + 2) 3) with (Ok ((num_colours + 2) / 3)).
  cbn [mbind result_bind].
  remember ((num_colours + 2) / 3) as s eqn:Hs_def.
  apply mapM_Forall2. intros i Hi. apply elem_of_range in Hi.
  assert (Hs : 1 <= s).
  { subst s. apply Z.div_le_lower_bound; lia. }
  assert (Hn : num_colours <= 3 * s).
  { subst s. pose proof (Z.mul_succ_div_gt (num_colours + 2) 3). lia. }
  clear Hs_def.
  assert (Hk : 0 <= i / s <= 2).
  { split; [apply Z.div_pos; lia|].
    assert (i / s < 3); [|lia]. apply Z.div_lt_upper_bound; lia. }
  unfold py_div, py_mod. destruct (Z.eqb_spec s 0) as [|_]; [lia|].
  cbn [mbind result_bind].
  assert (Hcases : i / s = 0 \/ i / s = 1 \/ i / s = 2) by lia.
  destruct Hcases as [Hc | [Hc | Hc] ]; rewrite Hc;
    eexists; (split; [reflexivity|]); do 2 eexists;
    (split; [lia|]); (split; [reflexivity|]); (split; reflexivity).
Qed.

Lemma list_getitem_is_Some {A} (l : list A) (i : Z) :
  is_Some (list_getitem l i) <-> - len l <= i < len l.
Proof.
  unfold list_getitem, len.
  destruct (Z.leb_spec 0 i), (Z.ltb_spec i (Z.of_nat (length l)));
    cbn [andb].
  - rewrite lookup_lt_is_Some. lia.
  - destruct (Z.leb_spec (- Z.of_nat (length l)) i), (Z.ltb_spec i 0);
      cbn [andb]; try (split; [by intros []|lia]).
    lia.
  - destruct (Z.leb_spec (- Z.of_nat (length l)) i), (Z.ltb_spec i 0);
      cbn [andb]; try (split; [by intros []|lia]); try lia.
    rewrite lookup_lt_is_Some. lia.
  - destruct (Z.leb_spec (- Z.of_nat (length l)) i), (Z.ltb_spec i 0);
      cbn [andb]; try (split; [by intros []|lia]); try lia.
Qed.

Lemma list_getitem_nonneg {A} (l : list A) (i : Z) :
  0 <= i -> list_getitem l i = l !! Z.to_nat i.
Proof.
  intros Hi. unfold list_getitem, len.
  destruct (Z.leb_spec 0 i); [|lia].
  destruct (Z.ltb_spec i (Z.of_nat (length l))); cbn [andb]; [done|].
  destruct (Z.ltb_spec i 0); [lia|]. rewrite andb_false_r.
  symmetry. apply lookup_ge_None. lia.
Qed.

(** The loop "Add the boards": it adds every board of the colouring with
    the colour at its index, or stops at the first index that is out of
    range. *)
Lemma colour_boards_outcome (colours : list (string * Z * string))
    (items : list (Cabinet * Z)) :
  match colour_boards colours items with
  | Some boards =>
      Forall2 (fun (ci : Cabinet * Z) b =>
                 b.1 = ci.1 /\ list_getitem colours ci.2 = Some b.2)
              items boards
  | None =>
      Exists (fun ci : Cabinet * Z =>
                ~ (- len colours <= ci.2 < len colours)) items
  end.
Proof.
  induction items as [|[coord colour_index] items IH]; simpl.
  - constructor.
  - destruct (list_getitem colours colour_index) as [colour|] eqn:Hget.
    + destruct (colour_boards colours items) as [boards|].
      * constructor; [|done]. done.
      * by apply Exists_cons_tl.
    + apply Exists_cons_hd. simpl. intros Hrange.
      apply list_getitem_is_Some in Hrange as [colour Hcolour]. congruence.
Qed.

(** X13.  The palette always exists: it has one colour for each index below
    [num_colours], each a mix of two neighbours of the spectrum with a
    share between 1 and 100 of the first. *)
Theorem palette_shape (num_colours : Z) :
  exists colours,
    palette num_colours = Ok colours
    /\ len colours = Z.max 0 num_colours
    /\ Forall (fun colour : string * Z * string =>
                 1 <= colour.1.2 <= 100
                 /\ (colour.1.1, colour.2)
                    ∈ [("red", "green"); ("green", "blue");
                       ("blue", "yellow")]%string)
              colours.
Proof.
  destruct (palette_Ok num_colours) as (colours & Hrun & Hshape).
  exists colours. split; [done|]. split.
  - unfold len. rewrite <- (Forall2_length _ _ _ Hshape).
    apply range_length.
  - eapply Forall2_Forall_r; [exact Hshape|].
    apply Forall_forall. intros i Hi colour (a & b & Hk & Ha & Hb & ->).
    apply elem_of_range in Hi. cbn [fst snd].
    set (s := (num_colours + 2) / 3) in *.
    assert (Hs : 1 <= s).
    { unfold s. apply Z.div_le_lower_bound; lia. }
    split.
    + pose proof (Z.mod_pos_bound i s ltac:(lia)) as Hmod.
      assert (0 <= (i mod s * 100) / s) by (apply Z.div_pos; lia).
      assert ((i mod s * 100) / s < 100)
        by (apply Z.div_lt_upper_bound; lia).
      lia.
    + assert (Hcases : i / s = 0 \/ i / s = 1 \/ i / s = 2) by lia.
      destruct Hcases as [Hc | [Hc | Hc] ]; rewrite Hc in Ha, Hb;
        injection Ha as <-; injection Hb as <-; set_solver.
Qed.

(** Up to 300 colours no two indices get the same colour. *)
Lemma palette_NoDup (num_colours : Z) colours :
  num_colours <= 300 -> palette num_colours = Ok colours -> NoDup colours.
Proof.
  intros Hsmall Hrun.
  destruct (palette_Ok num_colours) as (colours' & Hrun' & Hshape).
  assert (colours' = colours) as -> by congruence.
  set (s := (num_colours + 2) / 3) in *.
  assert (Hspectrum : NoDup spectrum) by compute_done.
  apply NoDup_alt. intros k k' colour Hk Hk'.
  destruct (Forall2_lookup_r _ _ _ _ _ Hshape Hk)
    as (i & Hi & a & b & Hq & Ha & Hb & ->).
  destruct (Forall2_lookup_r _ _ _ _ _ Hshape Hk')
    as (i' & Hi' & a' & b' & Hq' & Ha' & Hb' & Heq).
  injection Heq as -> Hpoint ->.
  apply range_lookup in Hi as [-> Hlt].
  apply range_lookup in Hi' as [-> Hlt'].
  assert (Hs : 1 <= s <= 100).
  { unfold s. split; [apply Z.div_le_lower_bound; lia|].
    assert ((num_colours + 2) / 3 < 101); [|lia].
    apply Z.div_lt_upper_bound; lia. }
  assert (Hquot : Z.of_nat k / s = Z.of_nat k' / s).
  { pose proof (NoDup_lookup _ _ _ _ Hspectrum Ha Ha'). lia. }
  assert (Hrem : Z.of_nat k mod s = Z.of_nat k' mod s).
  { destruct (Z.lt_trichotomy (Z.of_nat k mod s) (Z.of_nat k' mod s))
      as [Hlt0 | [Heq0 | Hlt0] ]; [|done|].
    - pose proof (scaled_div_lt s _ _ ltac:(lia) Hlt0). lia.
    - pose proof (scaled_div_lt s _ _ ltac:(lia) Hlt0). lia. }
  pose proof (Z.div_mod (Z.of_nat k) s ltac:(lia)).
  pose proof (Z.div_mod (Z.of_nat k') s ltac:(lia)).
  nia.
Qed.

(** X14.  The colours of the palette are pairwise different exactly when there
    are at most 300 of them: from 301 on, the first two colours are both
    pure red. *)
Theorem palette_distinct_up_to_300 (num_colours : Z) :
  exists colours,
    palette num_colours = Ok colours
    /\ (NoDup colours <-> num_colours <= 300).
Proof.
  destruct (palette_Ok num_colours) as (colours & Hrun & Hshape).
  exists colours. split; [done|].
  set (s := (num_colours + 2) / 3) in *.
  split; [|intros Hsmall; by eapply palette_NoDup].
  intros Hnodup.
  destruct (Z.le_gt_cases num_colours 300) as [|Hbig]; [done|exfalso].
  assert (Hs : 101 <= s).
  { unfold s. apply Z.div_le_lower_bound; lia. }
  assert (H0 : range num_colours !! 0%nat = Some 0)
    by (apply range_lookup; lia).
  assert (H1 : range num_colours !! 1%nat = Some 1)
    by (apply range_lookup; lia).
  destruct (Forall2_lookup_l _ _ _ _ _ Hshape H0)
    as (c0 & Hc0 & a0 & b0 & _ & Ha0 & Hb0 & ->).
  destruct (Forall2_lookup_l _ _ _ _ _ Hshape H1)
    as (c1 & Hc1 & a1 & b1 & _ & Ha1 & Hb1 & ->).
  rewrite Z.div_0_l in Ha0, Hb0 by lia.
  rewrite Z.div_small in Ha1, Hb1 by lia.
  rewrite Z.mod_0_l in Hc0 by lia. rewrite Z.mod_small in Hc1 by lia.
  rewrite (Z.div_small (1 * 100) s) in Hc1 by lia.
  rewrite Z.mul_0_l, Z.div_0_l in Hc0 by lia.
  assert (a1 = a0) as -> by congruence.
  assert (b1 = b0) as -> by congruence.
  pose proof (NoDup_lookup _ _ _ _ Hnodup Hc0 Hc1). done.
Qed.

(** X15.  [generate_cabinet_colouring_diagram] never fails in the palette.  It
    adds every board of the colouring when all colour indices lie between
    [-num_colours] and [num_colours - 1], and raises [IndexError] when one
    does not. *)
Theorem colouring_diagram_outcome (colouring : gmap Cabinet Z)
    (num_colours : Z) :
  match generate_cabinet_colouring_diagram colouring num_colours with
  | Coloured boards =>
      boards.*1 = keys colouring
      /\ forall coord colour_index,
           colouring !! coord = Some colour_index ->
           - Z.max 0 num_colours <= colour_index < Z.max 0 num_colours
  | PaletteError e => False
  | IndexError =>
      exists coord colour_index,
        colouring !! coord = Some colour_index
        /\ ~ (- Z.max 0 num_colours <= colour_index < Z.max 0 num_colours)
  end.
Proof.
  unfold generate_cabinet_colouring_diagram.
  destruct (palette_Ok num_colours) as (colours & -> & Hshape).
  assert (Hlen : len colours = Z.max 0 num_colours).
  { unfold len. rewrite <- (Forall2_length _ _ _ Hshape).
    apply range_length. }
  pose proof (colour_boards_outcome colours (map_to_list colouring))
    as Hboards.
  destruct (colour_boards colours (map_to_list colouring)) as [boards|].
  - split.
    + unfold keys. clear -Hboards.
      induction Hboards as [|ci b l r [Hb _] _ IH]; [done|].
      rewrite !fmap_cons. by f_equal.
    + intros coord colour_index Hlook. rewrite <- Hlen.
      apply elem_of_map_to_list, list_elem_of_lookup in Hlook as [k Hk].
      destruct (Forall2_lookup_l _ _ _ _ _ Hboards Hk)
        as (b & _ & _ & Hget).
      apply list_getitem_is_Some. by exists b.2.
  - apply Exists_exists in Hboards as ([coord colour_index] & Hin & Hout).
    exists coord, colour_index. rewrite <- Hlen.
    split; [by apply elem_of_map_to_list|done].
Qed.

Section ColouringDiagramFacts.
Context {Board : Type} `{Countable Board}.
Variable follow_wire : Board -> Direction -> Board.

(** X16.  In the script the colouring diagram is always produced once the
    relative wires are: every pattern id has a colour in the palette, so
    that no [IndexError] occurs, and the diagram shows exactly the
    coordinates that have a wire passing the filter. *)
Theorem script_colouring_diagram_produced
    (cabinet_torus : list (Board * Cabinet)) (wire_filter : Cabinet -> bool)
    direction rel_wires :
  get_relative_wires follow_wire cabinet_torus direction = Ok rel_wires ->
  exists colouring num_colours boards,
    pattern_colouring follow_wire cabinet_torus wire_filter direction
    = Ok (colouring, num_colours)
    /\ generate_cabinet_colouring_diagram colouring num_colours
       = Coloured boards
    /\ boards.*1 = keys colouring.
Proof.
  intros Hrel.
  destruct (pattern_colouring_Ok follow_wire cabinet_torus wire_filter
              direction rel_wires Hrel)
    as (colouring & ids & Hrun & _ & _ & _ & Hcol).
  exists colouring, (Z.max 1 (len ids)).
  unfold generate_cabinet_colouring_diagram.
  destruct (palette_Ok (Z.max 1 (len ids))) as (colours & -> & Hshape).
  assert (Hlen : len colours = Z.max 1 (len ids)).
  { pose proof (Forall2_length _ _ _ Hshape) as Hl.
    pose proof (range_length (Z.max 1 (len ids))) as Hr.
    unfold len in *. lia. }
  pose proof (colour_boards_outcome colours (map_to_list colouring))
    as Hboards.
  destruct (colour_boards colours (map_to_list colouring)) as [boards|].
  - exists boards. split; [done|]. split; [done|].
    unfold keys. clear -Hboards.
    induction Hboards as [|ci b l r [Hb _] _ IH]; [done|].
    rewrite !fmap_cons. by f_equal.
  - exfalso.
    apply Exists_exists in Hboards as ([coord colour_index] & Hin & Hout).
    apply elem_of_map_to_list, Hcol in Hin as (n & p & -> & Hn & _).
    apply lookup_lt_Some in Hn. apply Hout. simpl. rewrite Hlen.
    unfold len. lia.
Qed.

(** X17.  With at most 300 distinct patterns, two coordinates of the diagram
    are filled with the same colour exactly when they have the same
    pattern of relative wires. *)
Theorem script_colours_tell_patterns_apart
    (cabinet_torus : list (Board * Cabinet)) (wire_filter : Cabinet -> bool)
    direction rel_wires :
  get_relative_wires follow_wire cabinet_torus direction = Ok rel_wires ->
  Z.of_nat (num_patterns
              (filter (fun co => wire_filter co.2 = true) rel_wires)
              (fun c => c) (fun _ => ())) <= 300 ->
  exists colouring num_colours boards,
    pattern_colouring follow_wire cabinet_torus wire_filter direction
    = Ok (colouring, num_colours)
    /\ generate_cabinet_colouring_diagram colouring num_colours
       = Coloured boards
    /\ forall c c' colour colour',
         (c, colour) ∈ boards -> (c', colour') ∈ boards ->
         (colour = colour'
          <-> group_relative_wires
                (filter (fun co => wire_filter co.2 = true) rel_wires)
                (fun c => c) (fun _ => ()) !! c
              = group_relative_wires
                  (filter (fun co => wire_filter co.2 = true) rel_wires)
                  (fun c => c) (fun _ => ()) !! c').
Proof.
  intros Hrel Hfew.
  destruct (pattern_colouring_Ok follow_wire cabinet_torus wire_filter
              direction rel_wires Hrel)
    as (colouring & ids & Hrun & Hnodup & Hperm & _ & Hcol).
  assert (Hlen : len ids <= 300).
  { unfold num_patterns in Hfew. unfold len.
    rewrite (Permutation_length Hperm). unfold keys.
    by rewrite length_fmap, length_map_to_list. }
  exists colouring, (Z.max 1 (len ids)).
  unfold generate_cabinet_colouring_diagram.
  destruct (palette (Z.max 1 (len ids))) as [colours|e] eqn:Hpalette.
  2:{ destruct (palette_Ok (Z.max 1 (len ids))) as (colours & Hp & _).
      congruence. }
  assert (Hdistinct : NoDup colours)
    by (eapply palette_NoDup; [|exact Hpalette]; lia).
  pose proof (colour_boards_outcome colours (map_to_list colouring))
    as Hboards.
  destruct (colour_boards colours (map_to_list colouring)) as [boards|].
  2:{ exfalso.
      destruct (palette_Ok (Z.max 1 (len ids))) as (colours' & Hp & Hshape).
      assert (colours' = colours) as -> by congruence.
      pose proof (Forall2_length _ _ _ Hshape) as Hl.
      pose proof (range_length (Z.max 1 (len ids))) as Hr.
      apply Exists_exists in Hboards as ([coord colour_index] & Hin & Hout).
      apply elem_of_map_to_list, Hcol in Hin as (n & p & -> & Hn & _).
      apply lookup_lt_Some in Hn. apply Hout. simpl.
      unfold len in *. lia. }
  exists boards. split; [done|]. split; [done|].
  assert (Hboard : forall c colour,
            (c, colour) ∈ boards ->
            exists (n : nat) p,
              colours !! n = Some colour /\ ids !! n = Some p
              /\ group_relative_wires
                   (filter (fun co => wire_filter co.2 = true) rel_wires)
                   (fun c => c) (fun _ => ()) !! c = Some p).
  { intros c colour Hin. apply list_elem_of_lookup in Hin as [k Hk].
    destruct (Forall2_lookup_r _ _ _ _ _ Hboards Hk)
      as ([c0 i] & Hci & Hc & Hget).
    simpl in Hc, Hget. subst c0.
    apply list_elem_of_lookup_2, elem_of_map_to_list, Hcol in Hci
      as (n & p & -> & Hn & Hg).
    rewrite list_getitem_nonneg, Nat2Z.id in Hget by lia.
    by exists n, p. }
  intros c c' colour colour' Hin Hin'.
  apply Hboard in Hin as (n & p & Hn & Hp & Hg).
  apply Hboard in Hin' as (n' & p' & Hn' & Hp' & Hg').
  rewrite Hg, Hg'. split.
  - intros <-. f_equal.
    assert (n = n') as <- by by apply (NoDup_lookup colours n n' colour).
    congruence.
  - intros [= <-].
    assert (n = n') as <- by by apply (NoDup_lookup ids n n' p).
    congruence.
Qed.

End ColouringDiagramFacts.

Lemma script_colouring_diagram_produced_witness :
  exists colouring num_colours boards,
    pattern_colouring ring3 ring3_torus change_slot NORTH
    = Ok (colouring, num_colours)
    /\ generate_cabinet_colouring_diagram colouring num_colours
       = Coloured boards.
Proof.
  assert (Hrel : get_relative_wires ring3 ring3_torus NORTH
                 = Ok [((0, 0, 0), (0, 0, 1)); ((0, 0, 1), (0, 0, 1));
                       ((0, 0, 2), (0, 0, -2))])
    by (vm_compute; reflexivity).
  destruct (script_colouring_diagram_produced ring3 ring3_torus change_slot
              NORTH _ Hrel)
    as (colouring & num_colours & boards & Hrun & Hdiagram & _).
  exists colouring, num_colours, boards.
  split; [exact Hrun|exact Hdiagram].
Defined.

Lemma script_colours_tell_patterns_apart_witness :
  exists colouring num_colours boards,
    pattern_colouring ring3 ring3_torus change_slot NORTH
    = Ok (colouring, num_colours)
    /\ generate_cabinet_colouring_diagram colouring num_colours
       = Coloured boards.
Proof.
  assert (Hrel : get_relative_wires ring3 ring3_torus NORTH
                 = Ok [((0, 0, 0), (0, 0, 1)); ((0, 0, 1), (0, 0, 1));
                       ((0, 0, 2), (0, 0, -2))])
    by (vm_compute; reflexivity).
  assert (Hfew : Z.of_nat (num_patterns
                   (filter (fun co => change_slot co.2 = true)
                      [((0, 0, 0), (0, 0, 1)); ((0, 0, 1), (0, 0, 1));
                       ((0, 0, 2), (0, 0, -2))])
                   (fun c => c) (fun _ => ())) <= 300)
    by (vm_compute; intros Hgt; discriminate Hgt).
  destruct (script_colours_tell_patterns_apart ring3 ring3_torus change_slot
              NORTH _ Hrel Hfew)
    as (colouring & num_colours & boards & Hrun & Hdiagram & _).
  exists colouring, num_colours, boards.
  split; [exact Hrun|exact Hdiagram].
Defined.

(** * Properties of the board position list and of the coordinate lookups *)

Lemma mapM_fmap {A B} (f : A -> result B) (g : A -> B) (l : list A) :
  (forall x, x ∈ l -> f x = Ok (g x)) -> mapM f l = Ok (g <$> l).
Proof.
  induction l as [|x l IH]; intros Hall; [done|].
  simpl. rewrite (Hall x) by apply list_elem_of_here. simpl.
  rewrite IH by (intros y Hy; by apply Hall, list_elem_of_further). done.
Qed.

Lemma Sorted_fmap {A B} (R : A -> A -> Prop) (R' : B -> B -> Prop)
    (f : A -> B) (l : list A) :
  (forall a b, R a b -> R' (f a) (f b)) ->
  Sorted R l -> Sorted R' (f <$> l).
Proof.
  intros HR. induction 1 as [|a l Hs IH Hhd]; [constructor|].
  rewrite fmap_cons. constructor; [done|].
  destruct Hhd; constructor. by apply HR.
Qed.

Lemma pair_lt_asym (a b : Z * Z) : pair_lt a b = true -> pair_lt b a = false.
Proof.
  unfold pair_lt.
  destruct (Z.ltb_spec a.1 b.1), (Z.ltb_spec b.1 a.1), (Z.eqb_spec a.1 b.1),
    (Z.eqb_spec b.1 a.1), (Z.ltb_spec a.2 b.2), (Z.ltb_spec b.2 a.2);
    simpl; try done; lia.
Qed.

Section PositionListFacts.
Context {Board : Type} `{Countable Board}.

(** X18.  [generate_board_position_list] returns exactly when every board has a
    Cartesian coordinate in [b2c], and raises [KeyError] otherwise.  The
    rows it writes are the rows of the boards, each with the board's
    [(x, y)] and cabinet coordinate, rearranged so that [(x, y)] never
    decreases. *)
Theorem board_position_list_outcome (boards : list (Board * Cabinet))
    (b2c : gmap Board (Z * Z)) :
  match generate_board_position_list boards b2c with
  | Ok rows =>
      Sorted (fun r r' : Z * Z * Cabinet =>
                pair_lt (r'.1.1, r'.1.2) (r.1.1, r.1.2) = false) rows
      /\ exists rows0,
           rows ≡ₚ rows0
           /\ Forall2 (fun (bc : Board * Cabinet) (r : Z * Z * Cabinet) =>
                         b2c !! bc.1 = Some (r.1.1, r.1.2) /\ r.2 = bc.2)
                      boards rows0
  | Raise e =>
      e = KeyError /\ Exists (fun bc => b2c !! bc.1 = None) boards
  end.
Proof.
  unfold generate_board_position_list.
  destruct (mapM (fun bc : Board * Cabinet =>
                    key ← getitem b2c bc.1; mret (key, bc)) boards)
    as [keyed|e] eqn:Hkeyed.
  - cbn [mbind result_bind]. apply mapM_Ok in Hkeyed.
    assert (Hkeys : Forall2 (fun (bc : Board * Cabinet)
                               (kb : Z * Z * (Board * Cabinet)) =>
                               b2c !! bc.1 = Some kb.1 /\ kb.2 = bc)
                            boards keyed).
    { eapply Forall2_impl; [exact Hkeyed|]. intros bc kb. unfold getitem.
      destruct (b2c !! bc.1) as [key|] eqn:Hkey; [|done].
      simpl. by intros [= <-]. }
    clear Hkeyed.
    rewrite (mapM_fmap _ (fun kb : Z * Z * (Board * Cabinet) =>
                            (kb.1.1, kb.1.2, kb.2.2))).
    2:{ intros [key [board coord] ] Hin.
        rewrite (sorted_Permutation _ keyed) in Hin.
        apply list_elem_of_lookup in Hin as [k Hk].
        destruct (Forall2_lookup_r _ _ _ _ _ Hkeys Hk)
          as (bc & _ & Hlook & Hbc).
        simpl in Hlook, Hbc. subst bc. unfold getitem. simpl in Hlook.
        by rewrite Hlook. }
    split.
    + eapply Sorted_fmap;
        [|apply (sorted_Sorted (fun a b : Z * Z * (Board * Cabinet) =>
                                  pair_lt a.1 b.1))].
      * intros [ [x y] bc] [ [x' y'] bc']. simpl. done.
      * intros a b. apply pair_lt_asym.
    + exists ((fun kb : Z * Z * (Board * Cabinet) =>
                 (kb.1.1, kb.1.2, kb.2.2)) <$> keyed).
      split; [by rewrite (sorted_Permutation _ keyed)|].
      apply Forall2_fmap_r. eapply Forall2_impl; [exact Hkeys|].
      intros bc [ [x y] bc'] [Hlook Hbc]. simpl in *. by subst.
  - cbn [mbind result_bind].
    apply mapM_Raise in Hkeyed as (bc & Hin & Hraise).
    unfold getitem in Hraise.
    destruct (b2c !! bc.1) as [key|] eqn:Hkey; [done|].
    injection Hraise as <-. split; [done|].
    apply Exists_exists. by exists bc.
Qed.

End PositionListFacts.

Section LookupFacts.
Context {Board : Type} `{Countable Board}.
Context {Coord : Type} `{Countable Coord}.

(** X19.  A lookup in [board2coord] or [cart_coord2board] only gives pairs of
    [cart_torus].  When no board and no coordinate occurs twice, the two
    dictionaries are inverse to each other and hold every pair. *)
Theorem coordinate_lookups_inverse (cart_torus : list (Board * Coord)) :
  (forall b c, board2coord cart_torus !! b = Some c -> (b, c) ∈ cart_torus)
  /\ (forall b c, cart_coord2board cart_torus !! c = Some b ->
                  (b, c) ∈ cart_torus)
  /\ (NoDup cart_torus.*1 -> NoDup cart_torus.*2 ->
      forall b c,
        ((b, c) ∈ cart_torus <-> board2coord cart_torus !! b = Some c)
        /\ (board2coord cart_torus !! b = Some c
            <-> cart_coord2board cart_torus !! c = Some b)).
Proof.
  unfold board2coord, cart_coord2board.
  assert (Hswap : forall b c,
            (c, b) ∈ prod_swap <$> cart_torus <-> (b, c) ∈ cart_torus).
  { intros b c. rewrite list_elem_of_fmap. split.
    - by intros ([b' c'] & [= -> ->] & Hin).
    - intros Hin. by exists (b, c). }
  assert (Hfst : (prod_swap <$> cart_torus).*1 = cart_torus.*2).
  { rewrite <- list_fmap_compose. by apply list_fmap_ext; intros ? []. }
  split; [|split].
  - intros b c. apply dict_of_list_lookup_elem.
  - intros b c Hlook. by apply Hswap, dict_of_list_lookup_elem.
  - intros Hboards Hcoords b c.
    assert (Hfwd : (b, c) ∈ cart_torus
                   <-> dict_of_list cart_torus !! b = Some c).
    { split; [by apply dict_of_list_lookup_NoDup|].
      apply dict_of_list_lookup_elem. }
    split; [done|]. rewrite <- Hfwd, <- Hswap. split.
    + apply dict_of_list_lookup_NoDup. by rewrite Hfst.
    + apply dict_of_list_lookup_elem.
Qed.

End LookupFacts.

(** X20.  [width_boards] and [height_boards] raise [ValueError] on an empty
    torus.  Otherwise every board has its [x] below the width and its [y]
    below the height, and some board reaches [width - 1] and some
    [height - 1]. *)
Theorem board_extent {Board : Type} (comp_torus : list (Board * (Z * Z))) :
  match width_boards comp_torus, height_boards comp_torus with
  | Ok width, Ok height =>
      Forall (fun bc => bc.2.1 < width /\ bc.2.2 < height) comp_torus
      /\ Exists (fun bc => bc.2.1 = width - 1) comp_torus
      /\ Exists (fun bc => bc.2.2 = height - 1) comp_torus
  | Raise e, Raise e' =>
      e = ValueError /\ e' = ValueError /\ comp_torus = []
  | _, _ => False
  end.
Proof.
  unfold width_boards, height_boards.
  destruct comp_torus as [|bc comp_torus]; [done|].
  destruct (py_max_int_returns
              ((fun bc : Board * (Z * Z) => bc.2.1) <$> bc :: comp_torus))
    as [mx Hmx]; [done|].
  destruct (py_max_int_returns
              ((fun bc : Board * (Z * Z) => bc.2.2) <$> bc :: comp_torus))
    as [my Hmy]; [done|].
  rewrite Hmx, Hmy. cbn [mbind result_bind mret result_ret].
  apply py_max_int_Ok in Hmx as [Hinx Hallx].
  apply py_max_int_Ok in Hmy as [Hiny Hally].
  rewrite Forall_fmap in Hallx, Hally.
  apply list_elem_of_fmap in Hinx as (bx & Hbx & Hinx).
  apply list_elem_of_fmap in Hiny as (by' & Hby & Hiny).
  split; [|split].
  - rewrite Forall_forall in *. intros bc' Hbc'.
    specialize (Hallx bc' Hbc'). specialize (Hally bc' Hbc').
    simpl in *. lia.
  - apply Exists_exists. exists bx. split; [done|]. lia.
  - apply Exists_exists. exists by'. split; [done|]. lia.
Qed.

(** * Properties of [generate_diagram] *)

Section DiagramFacts.
Context {Board : Type} `{Countable Board}.
Context {Coord System Scale : Type}.

(** X21.  [generate_diagram] returns exactly when every board has a label, and
    raises [KeyError] otherwise.  It first sets the cabinet system, then
    adds the boards in the order of the list, each once; with
    [show_wires] it draws the North, East and South-West wire of every
    board, in this order, and without it no wire. *)
Theorem generate_diagram_outcome (boards : list (Board * Coord))
    (b2l : gmap Board (Z * Z)) (show_wires : bool)
    (cabinet_system : option System) (cabinet_scale : Scale) :
  match generate_diagram boards b2l show_wires cabinet_system cabinet_scale
  with
  | Ok calls =>
      head calls = Some (call_set_cabinet_system cabinet_system cabinet_scale)
      /\ omap (fun call : DiagramCall (Board := Board) (Coord := Coord)
                            (System := System) (Scale := Scale) =>
                 match call with
                 | call_add_board board coord => Some (board, coord)
                 | _ => None
                 end) calls = boards
      /\ omap (fun call : DiagramCall (Board := Board) (Coord := Coord)
                            (System := System) (Scale := Scale) =>
                 match call with
                 | call_add_wire board direction _ => Some (board, direction)
                 | _ => None
                 end) calls
         = (if show_wires
            then boards ≫= (fun bc => (fun d => (bc.1, d))
                                        <$> principal_directions)
            else [])
      /\ Forall (fun bc => is_Some (b2l !! bc.1)) boards
  | Raise e =>
      e = KeyError /\ Exists (fun bc => b2l !! bc.1 = None) boards
  end.
Proof.
  unfold generate_diagram.
  match goal with
  | |- context [mapM ?f boards] =>
      destruct (mapM f boards) as [per_board|e] eqn:Hrun
  end.
  - cbn [mbind result_bind mret result_ret]. apply mapM_Ok in Hrun.
    split; [done|]. cbn [omap list_omap].
    induction Hrun as [|[board coord] calls l r Hcall _ IH].
    + split; [done|]. split; [by destruct show_wires|constructor].
    + unfold getitem in Hcall.
      destruct (b2l !! board) as [label|] eqn:Hlabel; [|done].
      cbn [mbind result_bind mret result_ret] in Hcall.
      injection Hcall as <-.
      destruct IH as (IHb & IHw & IHl).
      cbn [concat]. rewrite !omap_app.
      split; [|split].
      * rewrite IHb. destruct show_wires; reflexivity.
      * rewrite IHw. destruct show_wires; reflexivity.
      * constructor; [by exists label|done].
  - cbn [mbind result_bind].
    apply mapM_Raise in Hrun as ([board coord] & Hin & Hraise).
    unfold getitem in Hraise.
    destruct (b2l !! board) as [label|] eqn:Hlabel; [done|].
    injection Hraise as <-. split; [done|].
    apply Exists_exists. by exists (board, coord).
Qed.

End DiagramFacts.

Lemma coordinate_lookups_inverse_witness :
  board2coord [(0%nat, (0, 0)); (1%nat, (1, 0))] !! 1%nat = Some (1, 0)
  <-> cart_coord2board [(0%nat, (0, 0)); (1%nat, (1, 0))] !! (1, 0)
      = Some 1%nat.
Proof.
  destruct (coordinate_lookups_inverse [(0%nat, (0, 0)); (1%nat, (1, 0))])
    as (_ & _ & Hinverse).
  apply Hinverse; compute_done.
Defined.

(** * Further properties of the wiring instructions *)

Lemma group_append_nonempty {K : Type} `{Countable K} (k k' : K) (w : Wire)
    (d : gmap K (list Wire)) l :
  (forall k0 l0, d !! k0 = Some l0 -> l0 <> []) ->
  group_append k w d !! k' = Some l -> l <> [].
Proof.
  intros Hd. unfold group_append.
  destruct (decide (k = k')) as [->|Hne].
  - rewrite lookup_insert_eq. intros [= <-]. by destruct (default [] _).
  - rewrite lookup_insert_ne by done. apply Hd.
Qed.

(** No list of the two dictionaries of the second loop is empty. *)
Lemma group_wires_nonempty wires :
  forall slots racks cabs slots' racks' cabs',
    foldl place_wire (slots, racks, cabs) wires = (slots', racks', cabs') ->
    (forall k l, slots !! k = Some l -> l <> []) ->
    (forall k l, racks !! k = Some l -> l <> []) ->
    (forall k l, slots' !! k = Some l -> l <> [])
    /\ (forall k l, racks' !! k = Some l -> l <> []).
Proof.
  induction wires as [|[source target] wires IH]; intros * Hfold Hs Hr.
  - simpl in Hfold. by injection Hfold as <- <- <-.
  - cbn [foldl] in Hfold.
    destruct (place_wire (slots, racks, cabs) (source, target))
      as [ [slots1 racks1] cabs1] eqn:Hplace.
    apply (IH _ _ _ _ _ _ Hfold).
    + unfold place_wire in Hplace. repeat case_decide.
      * injection Hplace as <- <- <-. intros k l.
        by apply group_append_nonempty.
      * by injection Hplace as <- <- <-.
      * by injection Hplace as <- <- <-.
    + unfold place_wire in Hplace. repeat case_decide.
      * by injection Hplace as <- <- <-.
      * injection Hplace as <- <- <-. intros k l.
        by apply group_append_nonempty.
      * by injection Hplace as <- <- <-.
Qed.

Lemma all_wires_nil_iff {K : Type} `{Countable K} (d : gmap K (list Wire)) :
  (forall k l, d !! k = Some l -> l <> []) ->
  d = ∅ <-> all_wires d = [].
Proof.
  intros Hd. split; [intros ->; apply all_wires_empty|].
  intros Hnil. apply map_empty. intros k.
  destruct (d !! k) as [l|] eqn:Hk; [exfalso|done].
  destruct l as [|w l]; [by eapply Hd|].
  assert (Hw : w ∈ all_wires d).
  { apply elem_of_all_wires. exists k, (w :: l).
    split; [done|apply list_elem_of_here]. }
  rewrite Hnil in Hw. by apply elem_of_nil in Hw.
Qed.

Section InstructionMore.
Context {Board : Type} `{Countable Board}.
Variable follow_wire : Board -> Direction -> Board.
Variable cabinet_torus : list (Board * Cabinet).
Variables num_cabinets num_racks_per_cabinet : Z.

(** The first loop makes three records for every board. *)
Lemma collect_wires_length boards socket_names wires :
  collect_wires follow_wire cabinet_torus boards socket_names = Ok wires ->
  length wires = (3 * length cabinet_torus)%nat.
Proof.
  unfold collect_wires. intros Hrun.
  match type of Hrun with
  | context [mapM ?f cabinet_torus] =>
      destruct (mapM f cabinet_torus) as [per_board|] eqn:Hboards; [|done]
  end.
  cbn [mbind result_bind mret result_ret] in Hrun. injection Hrun as <-.
  apply mapM_Ok in Hboards.
  induction Hboards as [|[board coord] ws l r Hws _ IH]; [done|].
  cbn [concat]. rewrite length_app, IH. cbn [length].
  apply mapM_Ok, Forall2_length in Hws. simpl in Hws. lia.
Qed.

(** X22.  [generate_wiring_instructions] returns exactly when the three
    principal wires of every board of [cabinet_torus] lead to a board that
    has a coordinate and lie in directions whose socket, and whose
    opposite socket, have a name; otherwise it raises [KeyError]. *)
Theorem wiring_instructions_returns_iff (boards : list (Board * Cabinet))
    (socket_names : gmap Direction string) :
  match generate_wiring_instructions follow_wire cabinet_torus num_cabinets
          num_racks_per_cabinet boards socket_names with
  | Ok out =>
      forall bc d,
        bc ∈ cabinet_torus -> d ∈ principal_directions ->
        follow_wire bc.1 d ∈ boards.*1
        /\ is_Some (socket_names !! d)
        /\ is_Some (socket_names !! opposite d)
  | Raise e =>
      e = KeyError
      /\ exists bc d,
           bc ∈ cabinet_torus /\ d ∈ principal_directions
           /\ (follow_wire bc.1 d ∉ boards.*1
               \/ socket_names !! d = None
               \/ socket_names !! opposite d = None)
  end.
Proof.
  unfold generate_wiring_instructions, collect_wires.
  match goal with
  | |- context [mapM ?f cabinet_torus] =>
      destruct (mapM f cabinet_torus) as [per_board|e] eqn:Hboards
  end.
  - cbn [mbind result_bind mret result_ret].
    destruct (group_wires (concat per_board)) as [ [slots racks] cabs].
    intros [board coord] d Hbc Hd. apply mapM_Ok in Hboards.
    apply list_elem_of_lookup in Hbc as [k Hk].
    destruct (Forall2_lookup_l _ _ _ _ _ Hboards Hk) as (ws & _ & Hws).
    apply mapM_Ok in Hws. apply list_elem_of_lookup in Hd as [j Hj].
    destruct (Forall2_lookup_l _ _ _ _ _ Hws Hj) as (w & _ & Hw).
    unfold getitem in Hw. simpl.
    destruct (dict_of_list boards !! follow_wire board d) as [target|]
      eqn:Htarget; [|done].
    destruct (socket_names !! d) as [s|]; [|done].
    destruct (socket_names !! opposite d) as [t|]; [|done].
    split; [|by eauto]. apply dict_of_list_lookup_elem in Htarget.
    apply list_elem_of_fmap. by exists (follow_wire board d, target).
  - cbn [mbind result_bind].
    apply mapM_Raise in Hboards as ([board coord] & Hbc & Hraise).
    apply mapM_Raise in Hraise as (d & Hd & Hraise).
    unfold getitem in Hraise.
    destruct (dict_of_list boards !! follow_wire board d) as [target|]
      eqn:Htarget.
    + destruct (socket_names !! d) as [s|] eqn:Hs.
      * destruct (socket_names !! opposite d) as [t|] eqn:Ht; [done|].
        injection Hraise as <-. split; [done|].
        exists (board, coord), d. auto.
      * injection Hraise as <-. split; [done|].
        exists (board, coord), d. auto.
    + injection Hraise as <-. split; [done|].
      exists (board, coord), d. split; [done|]. split; [done|]. left.
      simpl. intros Hin. apply dict_of_list_lookup_key in Hin as [v Hv].
      congruence.
Qed.

(** X23.  The three collections of the second loop hold three wires for every
    board of [cabinet_torus] between them. *)
Theorem wiring_records_three_per_board boards socket_names wires slots racks
    cabs :
  collect_wires follow_wire cabinet_torus boards socket_names = Ok wires ->
  group_wires wires = (slots, racks, cabs) ->
  (length (all_wires slots) + length (all_wires racks) + length cabs
   = 3 * length cabinet_torus)%nat.
Proof.
  intros Hwires Hgroups.
  destruct (group_wires_scopes wires ∅ ∅ [] slots racks cabs Hgroups)
    as (_ & _ & _ & Hperm).
  - intros k l x Hk. by rewrite lookup_empty in Hk.
  - intros k l x Hk. by rewrite lookup_empty in Hk.
  - intros x Hx. by apply elem_of_nil in Hx.
  - unfold all_wires at 3 4 in Hperm. rewrite !map_to_list_empty in Hperm.
    simpl in Hperm. apply Permutation_length in Hperm.
    rewrite !length_app in Hperm.
    rewrite <- (collect_wires_length boards socket_names wires Hwires). lia.
Qed.

(** X24.  A wire between two cabinets is always printed.  A wire within a
    cabinet is printed exactly when the cabinet number is one of
    [range(num_cabinets)] and, if it stays in a rack, the rack number is
    one of [range(num_racks_per_cabinet)]; other wires are left out of the
    instructions without an error. *)
Theorem wiring_instructions_print_in_range boards socket_names out wires :
  generate_wiring_instructions follow_wire cabinet_torus num_cabinets
    num_racks_per_cabinet boards socket_names = Ok out ->
  collect_wires follow_wire cabinet_torus boards socket_names = Ok wires ->
  forall w, w ∈ wires ->
    ((exists rows, wiringtable rows ∈ out /\ w ∈ rows)
     <-> (same_cabinet w ->
          0 <= cabinet_of w.1.1 < num_cabinets
          /\ (same_rack w ->
              0 <= rack_of w.1.1 < num_racks_per_cabinet))).
Proof.
  intros Hrun Hwires w Hw.
  unfold generate_wiring_instructions in Hrun. rewrite Hwires in Hrun.
  cbn [mbind result_bind] in Hrun.
  destruct (group_wires wires) as [ [slots racks] cabs] eqn:Hgroups.
  injection Hrun as <-.
  destruct (group_wires_scopes wires ∅ ∅ [] slots racks cabs Hgroups)
    as (Hs & Hr & Hc & Hperm).
  { intros k l x Hk. by rewrite lookup_empty in Hk. }
  { intros k l x Hk. by rewrite lookup_empty in Hk. }
  { intros x Hx. by apply elem_of_nil in Hx. }
  unfold all_wires at 3 4 in Hperm. rewrite !map_to_list_empty in Hperm.
  simpl in Hperm.
  split.
  - intros (rows & Hrows & Hin).
    rewrite elem_of_cons, !elem_of_app in Hrows.
    destruct Hrows as [Hrows | [Hrows | [Hrows | Hrows] ] ]; [done| | |].
    + apply elem_of_concat in Hrows as (blocks & Hblocks & Hrows).
      apply list_elem_of_fmap in Hblocks as (cabinet_num & -> & Hcab).
      apply elem_of_concat in Hrows as (blocks & Hblocks & Hrows).
      apply list_elem_of_fmap in Hblocks as (rack_num & -> & Hrack).
      rewrite !elem_of_cons, elem_of_nil in Hrows.
      destruct Hrows as [Hrows | [ [= ->] | [] ] ]; [done|].
      rewrite generate_wiring_list_Permutation in Hin.
      destruct (slots !! (cabinet_num, rack_num)) as [l|] eqn:Hl;
        [|by apply elem_of_nil in Hin].
      destruct (Hs _ _ _ Hl Hin) as (_ & _ & [= -> ->]).
      apply elem_of_range in Hcab, Hrack. done.
    + destruct (decide (racks = ∅)); [by apply elem_of_nil in Hrows|].
      apply elem_of_cons in Hrows as [Hrows|Hrows]; [done|].
      apply elem_of_concat in Hrows as (blocks & Hblocks & Hrows).
      apply list_elem_of_fmap in Hblocks as (cabinet_num & -> & Hcab).
      rewrite !elem_of_cons, elem_of_nil in Hrows.
      destruct Hrows as [Hrows | [ [= ->] | [] ] ]; [done|].
      rewrite generate_wiring_list_Permutation in Hin.
      destruct (racks !! cabinet_num) as [l|] eqn:Hl;
        [|by apply elem_of_nil in Hin].
      destruct (Hr _ _ _ Hl Hin) as (_ & Hdiff & ->).
      apply elem_of_range in Hcab. done.
    + assert (Hrows' : rows = generate_wiring_list cabs).
      { destruct cabs as [|w0 cabs0]; [by apply elem_of_nil in Hrows|].
        rewrite !elem_of_cons, elem_of_nil in Hrows.
        by destruct Hrows as [Hrows | [ [= ->] | [] ] ]. }
      subst rows. rewrite generate_wiring_list_Permutation in Hin.
      intros Hsame. by apply Hc in Hin.
  - intros Hrange. rewrite <- Hperm, !elem_of_app in Hw.
    destruct Hw as [Hw | [Hw | Hw] ].
    + apply elem_of_all_wires in Hw as (k & l & Hl & Hin).
      destruct (Hs _ _ _ Hl Hin) as (Hcab & Hrack & ->).
      destruct (Hrange Hcab) as [Hc_range Hr_range].
      specialize (Hr_range Hrack).
      exists (generate_wiring_list l). split.
      * rewrite elem_of_cons, !elem_of_app. right. left.
        apply elem_of_concat. eexists. split.
        { apply list_elem_of_fmap. exists (cabinet_of w.1.1).
          split; [reflexivity|]. by apply elem_of_range. }
        apply elem_of_concat. eexists. split.
        { apply list_elem_of_fmap. exists (rack_of w.1.1).
          split; [reflexivity|]. by apply elem_of_range. }
        rewrite Hl. simpl. apply list_elem_of_further, list_elem_of_here.
      * by rewrite generate_wiring_list_Permutation.
    + apply elem_of_all_wires in Hw as (k & l & Hl & Hin).
      destruct (Hr _ _ _ Hl Hin) as (Hcab & Hrack & ->).
      destruct (Hrange Hcab) as [Hc_range _].
      exists (generate_wiring_list l). split.
      * rewrite elem_of_cons, !elem_of_app. right. right. left.
        rewrite decide_False
          by (intros Hempty; by rewrite Hempty, lookup_empty in Hl).
        apply list_elem_of_further, elem_of_concat. eexists. split.
        { apply list_elem_of_fmap. exists (cabinet_of w.1.1).
          split; [reflexivity|]. by apply elem_of_range. }
        rewrite Hl. simpl. apply list_elem_of_further, list_elem_of_here.
      * by rewrite generate_wiring_list_Permutation.
    + exists (generate_wiring_list cabs). split.
      * rewrite elem_of_cons, !elem_of_app. right. right. right.
        destruct cabs as [|w0 cabs0]; [by apply elem_of_nil in Hw|].
        apply list_elem_of_further, list_elem_of_here.
      * by rewrite generate_wiring_list_Permutation.
Qed.

(** X25.  The heading "Wires Within Racks" is always written; the heading
    "Wires Within Cabinets" exactly when some wire joins two racks of one
    cabinet, and the heading "Wires Between Cabinets" exactly when some
    wire joins two cabinets. *)
Theorem wiring_instructions_headings boards socket_names out wires :
  generate_wiring_instructions follow_wire cabinet_torus num_cabinets
    num_racks_per_cabinet boards socket_names = Ok out ->
  collect_wires follow_wire cabinet_torus boards socket_names = Ok wires ->
  subsection "Wires Within Racks" ∈ out
  /\ (subsection "Wires Within Cabinets" ∈ out
      <-> exists w, w ∈ wires /\ same_cabinet w /\ ~ same_rack w)
  /\ (subsection "Wires Between Cabinets" ∈ out
      <-> exists w, w ∈ wires /\ ~ same_cabinet w).
Proof.
  intros Hrun Hwires.
  unfold generate_wiring_instructions in Hrun. rewrite Hwires in Hrun.
  cbn [mbind result_bind] in Hrun.
  destruct (group_wires wires) as [ [slots racks] cabs] eqn:Hgroups.
  injection Hrun as <-.
  destruct (group_wires_scopes wires ∅ ∅ [] slots racks cabs Hgroups)
    as (Hs & Hr & Hc & Hperm).
  { intros k l x Hk. by rewrite lookup_empty in Hk. }
  { intros k l x Hk. by rewrite lookup_empty in Hk. }
  { intros x Hx. by apply elem_of_nil in Hx. }
  unfold all_wires at 3 4 in Hperm. rewrite !map_to_list_empty in Hperm.
  simpl in Hperm.
  destruct (group_wires_nonempty wires ∅ ∅ [] slots racks cabs Hgroups)
    as [_ Hracks].
  { intros k l Hk. by rewrite lookup_empty in Hk. }
  { intros k l Hk. by rewrite lookup_empty in Hk. }
  assert (Hnot_rack : forall title : string,
            subsection title
            ∉ concat ((fun cabinet_num =>
                concat ((fun rack_num =>
                  [subsubsection_rack cabinet_num rack_num;
                   wiringtable (generate_wiring_list
                     (default [] (slots !! (cabinet_num, rack_num))))])
                  <$> range num_racks_per_cabinet))
                <$> range num_cabinets)).
  { intros title Hin.
    apply elem_of_concat in Hin as (blocks & Hblocks & Hin).
    apply list_elem_of_fmap in Hblocks as (cabinet_num & -> & _).
    apply elem_of_concat in Hin as (blocks & Hblocks & Hin).
    apply list_elem_of_fmap in Hblocks as (rack_num & -> & _).
    rewrite !elem_of_cons, elem_of_nil in Hin.
    by destruct Hin as [|[|] ]. }
  assert (Hnot_cab : forall title : string,
            subsection title
            ∉ concat ((fun cabinet_num =>
                [subsubsection_cabinet cabinet_num;
                 wiringtable (generate_wiring_list
                   (default [] (racks !! cabinet_num)))])
                <$> range num_cabinets)).
  { intros title Hin.
    apply elem_of_concat in Hin as (blocks & Hblocks & Hin).
    apply list_elem_of_fmap in Hblocks as (cabinet_num & -> & _).
    rewrite !elem_of_cons, elem_of_nil in Hin.
    by destruct Hin as [|[|] ]. }
  split; [apply list_elem_of_here|]. split.
  - rewrite elem_of_cons, !elem_of_app. split.
    + intros [Hin | [Hin | [Hin | Hin] ] ].
      * done.
      * by apply Hnot_rack in Hin.
      * destruct (decide (racks = ∅)) as [|Hne];
          [by apply elem_of_nil in Hin|].
        assert (Hwire : all_wires racks <> [])
          by (intros Hnil; by apply (all_wires_nil_iff racks Hracks) in Hnil).
        assert (Hex : exists w, w ∈ all_wires racks).
        { destruct (all_wires racks) as [|w ws]; [done|].
          exists w. apply list_elem_of_here. }
        destruct Hex as [w Hw]. exists w. split.
        { rewrite <- Hperm, !elem_of_app. auto. }
        apply elem_of_all_wires in Hw as (k & l & Hl & Hin').
        by destruct (Hr _ _ _ Hl Hin') as (? & ? & _).
      * destruct cabs as [|w0 cabs0]; [by apply elem_of_nil in Hin|].
        rewrite !elem_of_cons, elem_of_nil in Hin.
        by destruct Hin as [|[|] ].
    + intros (w & Hw & Hcab & Hrack). right. right. left.
      rewrite <- Hperm, !elem_of_app in Hw.
      destruct Hw as [Hw | [Hw | Hw] ].
      * apply elem_of_all_wires in Hw as (k & l & Hl & Hin).
        by destruct (Hs _ _ _ Hl Hin) as (_ & ? & _).
      * apply elem_of_all_wires in Hw as (k & l & Hl & Hin).
        rewrite decide_False
          by (intros Hempty; by rewrite Hempty, lookup_empty in Hl).
        apply list_elem_of_here.
      * by apply Hc in Hw.
  - rewrite elem_of_cons, !elem_of_app. split.
    + intros [Hin | [Hin | [Hin | Hin] ] ].
      * done.
      * by apply Hnot_rack in Hin.
      * destruct (decide (racks = ∅)) as [|Hne];
          [by apply elem_of_nil in Hin|].
        apply elem_of_cons in Hin as [Hin|Hin]; [done|].
        by apply Hnot_cab in Hin.
      * destruct cabs as [|w0 cabs0]; [by apply elem_of_nil in Hin|].
        exists w0. split.
        { rewrite <- Hperm, !elem_of_app. right. right.
          apply list_elem_of_here. }
        apply Hc, list_elem_of_here.
    + intros (w & Hw & Hcab). right. right. right.
      rewrite <- Hperm, !elem_of_app in Hw.
      destruct Hw as [Hw | [Hw | Hw] ].
      * apply elem_of_all_wires in Hw as (k & l & Hl & Hin).
        by destruct (Hs _ _ _ Hl Hin) as (? & _).
      * apply elem_of_all_wires in Hw as (k & l & Hl & Hin).
        by destruct (Hr _ _ _ Hl Hin) as (? & _).
      * destruct cabs as [|w0 cabs0]; [by apply elem_of_nil in Hw|].
        apply list_elem_of_here.
Qed.

End InstructionMore.

Lemma wiring_records_three_per_board_witness :
  exists wires slots racks cabs,
    collect_wires ring3 ring3_cabinets ring3_cabinets example_socket_names
    = Ok wires
    /\ group_wires wires = (slots, racks, cabs)
    /\ (length (all_wires slots) + length (all_wires racks) + length cabs
        = 9)%nat.
Proof.
  assert (Hrun : exists wires,
            collect_wires ring3 ring3_cabinets ring3_cabinets
              example_socket_names = Ok wires)
    by (eexists; vm_compute; reflexivity).
  destruct Hrun as [wires Hrun].
  destruct (group_wires wires) as [ [slots racks] cabs] eqn:Hgroups.
  exists wires, slots, racks, cabs. split; [exact Hrun|].
  split; [exact Hgroups|].
  exact (wiring_records_three_per_board ring3 ring3_cabinets ring3_cabinets
           example_socket_names wires slots racks cabs Hrun Hgroups).
Defined.

Lemma wiring_instructions_print_in_range_witness :
  exists out wires,
    generate_wiring_instructions ring3 ring3_cabinets 2 2 ring3_cabinets
      example_socket_names = Ok out
    /\ collect_wires ring3 ring3_cabinets ring3_cabinets example_socket_names
       = Ok wires
    /\ Forall (fun w => exists rows, wiringtable rows ∈ out /\ w ∈ rows)
              wires.
Proof.
  assert (Hrun : exists out,
            generate_wiring_instructions ring3 ring3_cabinets 2 2
              ring3_cabinets example_socket_names = Ok out)
    by (eexists; vm_compute; reflexivity).
  destruct Hrun as [out Hrun].
  assert (Hwires : exists wires,
            collect_wires ring3 ring3_cabinets ring3_cabinets
              example_socket_names = Ok wires
            /\ Forall (fun w => same_cabinet w ->
                         0 <= cabinet_of w.1.1 < 2
                         /\ (same_rack w -> 0 <= rack_of w.1.1 < 2)) wires).
  { eexists. split; [vm_compute; reflexivity|].
    unfold same_cabinet, same_rack. compute_done. }
  destruct Hwires as (wires & Hwires & Hrange).
  exists out, wires. split; [exact Hrun|]. split; [exact Hwires|].
  rewrite Forall_forall in Hrange. apply Forall_forall. intros w Hw.
  apply (wiring_instructions_print_in_range ring3 ring3_cabinets 2 2
           ring3_cabinets example_socket_names out wires Hrun Hwires w Hw).
  by apply Hrange.
Defined.

Lemma wiring_instructions_headings_witness :
  exists out,
    generate_wiring_instructions ring3 ring3_cabinets 2 2 ring3_cabinets
      example_socket_names = Ok out
    /\ subsection "Wires Within Racks" ∈ out.
Proof.
  assert (Hrun : exists out,
            generate_wiring_instructions ring3 ring3_cabinets 2 2
              ring3_cabinets example_socket_names = Ok out)
    by (eexists; vm_compute; reflexivity).
  destruct Hrun as [out Hrun].
  assert (Hwires : exists wires,
            collect_wires ring3 ring3_cabinets ring3_cabinets
              example_socket_names = Ok wires)
    by (eexists; vm_compute; reflexivity).
  destruct Hwires as [wires Hwires].
  exists out. split; [exact Hrun|].
  by destruct (wiring_instructions_headings ring3 ring3_cabinets 2 2
                 ring3_cabinets example_socket_names out wires Hrun Hwires).
Defined.

(** * The three filters of the pattern diagrams *)

Lemma group_relative_wires_dom {G E : Type} `{Countable G} `{Countable E}
    (group_key : Cabinet -> G) (elem_key : Cabinet -> E)
    (rel_wires : list (Cabinet * Cabinet)) :
  dom (group_relative_wires rel_wires group_key elem_key)
  = list_to_set (group_key <$> rel_wires.*1).
Proof.
  unfold group_relative_wires.
  induction rel_wires as [|[c o] l IH] using rev_ind.
  - simpl. by rewrite dom_empty_L.
  - rewrite foldl_snoc. cbn [group_add].
    rewrite dom_insert_L, IH, !fmap_app, list_to_set_app_L. simpl.
    set_solver.
Qed.

Section FilterFacts.
Context {Board : Type} `{Countable Board}.
Variable follow_wire : Board -> Direction -> Board.

(** X26.  For every direction the three diagrams "Change Slot", "Change Rack"
    and "Change Cabinet" together show every cabinet coordinate of the
    torus; when no coordinate is used twice, each coordinate is shown in
    one of the three only. *)
Theorem filters_split_boards (cabinet_torus : list (Board * Cabinet))
    direction rel_wires :
  get_relative_wires follow_wire cabinet_torus direction = Ok rel_wires ->
  exists slot_colouring slot_colours rack_colouring rack_colours
         cabinet_colouring cabinet_colours,
    pattern_colouring follow_wire cabinet_torus change_slot direction
    = Ok (slot_colouring, slot_colours)
    /\ pattern_colouring follow_wire cabinet_torus change_rack direction
       = Ok (rack_colouring, rack_colours)
    /\ pattern_colouring follow_wire cabinet_torus change_cabinet direction
       = Ok (cabinet_colouring, cabinet_colours)
    /\ dom slot_colouring ∪ dom rack_colouring ∪ dom cabinet_colouring
       = list_to_set cabinet_torus.*2
    /\ (NoDup cabinet_torus.*2 ->
        dom slot_colouring ## dom rack_colouring
        /\ dom slot_colouring ## dom cabinet_colouring
        /\ dom rack_colouring ## dom cabinet_colouring).
Proof.
  intros Hrel.
  assert (Hdom : forall wire_filter : Cabinet -> bool,
            exists colouring num_colours,
              pattern_colouring follow_wire cabinet_torus wire_filter
                direction = Ok (colouring, num_colours)
              /\ forall c, c ∈ dom colouring
                   <-> exists o, (c, o) ∈ rel_wires /\ wire_filter o = true).
  { intros wire_filter.
    destruct (pattern_colouring_Ok follow_wire cabinet_torus wire_filter
                direction rel_wires Hrel)
      as (colouring & ids & Hrun & _ & _ & Hids & Hcol).
    exists colouring, (Z.max 1 (len ids)). split; [done|].
    intros c.
    assert (Hgroups : c ∈ dom colouring
              <-> c ∈ dom (group_relative_wires
                             (filter (fun co => wire_filter co.2 = true)
                                     rel_wires)
                             (fun c => c) (fun _ => ()))).
    { rewrite !elem_of_dom. split.
      - intros [i Hi]. apply Hcol in Hi as (n & p & _ & _ & Hg).
        by exists p.
      - intros [p Hp].
        assert (Hin : p ∈ ids) by (apply Hids; by exists c).
        apply list_elem_of_lookup in Hin as [n Hn].
        exists (Z.of_nat n). apply Hcol. by exists n, p. }
    rewrite Hgroups, group_relative_wires_dom, elem_of_list_to_set.
    rewrite list_fmap_id, list_elem_of_fmap. split.
    - intros ([c' o] & -> & Hin). apply list_elem_of_filter in Hin as [Hf Hin].
      by exists o.
    - intros (o & Hin & Hf). exists (c, o). split; [done|].
      by apply list_elem_of_filter. }
  destruct (Hdom change_slot) as (cs & ns & Hs & Hds).
  destruct (Hdom change_rack) as (cr & nr & Hr & Hdr).
  destruct (Hdom change_cabinet) as (cc & nc & Hc & Hdc).
  exists cs, ns, cr, nr, cc, nc.
  split; [done|]. split; [done|]. split; [done|].
  apply get_relative_wires_Ok in Hrel.
  assert (Hfst : rel_wires.*1 = cabinet_torus.*2).
  { assert (Hfst : Forall2 (fun (bc : Board * Cabinet)
                              (cv : Cabinet * Cabinet) => cv.1 = bc.2)
                           cabinet_torus rel_wires).
    { eapply Forall2_impl; [exact Hrel|]. by intros bc cv [Hcv _]. }
    clear -Hfst. induction Hfst as [|bc cv l r Hcv _ IH]; [done|].
    rewrite !fmap_cons. by f_equal. }
  assert (Hcases : forall o : Cabinet,
            (change_slot o = true /\ change_rack o = false
             /\ change_cabinet o = false)
            \/ (change_slot o = false /\ change_rack o = true
                /\ change_cabinet o = false)
            \/ (change_slot o = false /\ change_rack o = false
                /\ change_cabinet o = true)).
  { intros o. unfold change_slot, change_rack, change_cabinet.
    destruct (cabinet_of o =? 0), (rack_of o =? 0); simpl; tauto. }
  split.
  - apply set_eq. intros c.
    rewrite !elem_of_union, Hds, Hdr, Hdc, elem_of_list_to_set, <- Hfst.
    rewrite list_elem_of_fmap. split.
    + intros [ [ (o & Hin & _) | (o & Hin & _)] | (o & Hin & _)];
        by exists (c, o).
    + intros ([c' o] & -> & Hin). simpl.
      destruct (Hcases o) as [ (? & _) | [ (_ & ? & _) | (_ & _ & ?)] ];
        eauto.
  - intros Hnodup. rewrite <- Hfst in Hnodup.
    assert (Hone : forall c o o',
              (c, o) ∈ rel_wires -> (c, o') ∈ rel_wires -> o = o').
    { intros c o o' Hin Hin'.
      apply list_elem_of_lookup in Hin as [k Hk].
      apply list_elem_of_lookup in Hin' as [k' Hk'].
      assert (k = k').
      { apply (NoDup_lookup _ _ _ c Hnodup);
          rewrite list_lookup_fmap; [by rewrite Hk|by rewrite Hk']. }
      subst k'. congruence. }
    split; [|split]; intros c; rewrite ?Hds, ?Hdr, ?Hdc;
      intros (o & Hin & Hf) (o' & Hin' & Hf');
      rewrite (Hone c o o' Hin Hin') in Hf;
      destruct (Hcases o') as [ (? & ? & ?) | [ (? & ? & ?) | (? & ? & ?)] ];
      congruence.
Qed.

End FilterFacts.

Lemma end_compare_eq (a b : WireEnd) : end_compare a b = Eq -> a = b.
Proof.
  destruct a as [ [ [c1 r1] s1] n1], b as [ [ [c2 r2] s2] n2]. simpl.
  destruct (Z.compare_spec c1 c2); [|done|done].
  destruct (Z.compare_spec r1 r2); [|done|done].
  destruct (Z.compare_spec s1 s2); [|done|done].
  intros Hn. apply String.compare_eq_iff in Hn. by subst.
Qed.

(** X27.  The record of a wire does not depend on which of its two ends is
    taken as the source. *)
Theorem sorted_pair_symmetric (source target : WireEnd) :
  sorted_pair source target = sorted_pair target source.
Proof.
  rewrite !sorted_pair_cases. unfold end_lt.
  rewrite (end_compare_antisym target source).
  destruct (end_compare target source) eqn:Hcmp; simpl; try done.
  apply end_compare_eq in Hcmp. by subst.
Qed.

Lemma filters_split_boards_witness :
  exists slot_colouring slot_colours rack_colouring rack_colours
         cabinet_colouring cabinet_colours,
    pattern_colouring ring3 ring3_cabinets change_slot NORTH
    = Ok (slot_colouring, slot_colours)
    /\ pattern_colouring ring3 ring3_cabinets change_rack NORTH
       = Ok (rack_colouring, rack_colours)
    /\ pattern_colouring ring3 ring3_cabinets change_cabinet NORTH
       = Ok (cabinet_colouring, cabinet_colours)
    /\ dom slot_colouring ## dom rack_colouring.
Proof.
  assert (Hrel : exists rel_wires,
            get_relative_wires ring3 ring3_cabinets NORTH = Ok rel_wires)
    by (eexists; vm_compute; reflexivity).
  destruct Hrel as [rel_wires Hrel].
  destruct (filters_split_boards ring3 ring3_cabinets NORTH rel_wires Hrel)
    as (cs & ns & cr & nr & cc & nc & Hs & Hr & Hc & _ & Hdisjoint).
  exists cs, ns, cr, nr, cc, nc.
  split; [exact Hs|]. split; [exact Hr|]. split; [exact Hc|].
  apply Hdisjoint. compute_done.
Defined.

(** * The histogram in exact arithmetic *)





Section HistogramKeys.
Context {T : Type} `{PyNum T}.
Hypothesis py_eq_eq : forall x y : T, py_eq x y = true -> x = y.




End HistogramKeys.












(** * Properties of the basic torus diagram *)

Section TorusDiagramFacts.
Context {Board : Type} `{Countable Board}.
Context {System : Type}.

Lemma generate_diagram_returns {Coord Scale : Type}
    (boards : list (Board * Coord)) (b2l : gmap Board (Z * Z)) show_wires
    (cabinet_system : option System) (cabinet_scale : Scale) :
  Forall (fun bc => is_Some (b2l !! bc.1)) boards ->
  exists calls,
    generate_diagram boards b2l show_wires cabinet_system cabinet_scale
    = Ok calls.
Proof.
  intros Hlabels. unfold generate_diagram.
  match goal with
  | |- context [mapM ?f boards] =>
      destruct (mapM_returns f boards) as [per_board ->]
  end.
  - eapply Forall_impl; [exact Hlabels|].
    intros [board coord] [label Hlabel]. unfold getitem. simpl in Hlabel.
    rewrite Hlabel. by eexists.
  - by eexists.
Qed.

Lemma cart_coord2board_lookup (cart_torus : list (Board * (Z * Z))) c :
  (forall b, cart_coord2board cart_torus !! c = Some b -> (b, c) ∈ cart_torus)
  /\ (is_Some (cart_coord2board cart_torus !! c) <-> c ∈ cart_torus.*2).
Proof.
  unfold cart_coord2board.
  assert (Hfst : (prod_swap <$> cart_torus).*1 = cart_torus.*2).
  { rewrite <- list_fmap_compose. by apply list_fmap_ext; intros ? []. }
  split.
  - intros b Hlook. apply dict_of_list_lookup_elem in Hlook.
    apply list_elem_of_fmap in Hlook as ([b' c'] & [= -> ->] & Hin). done.
  - split.
    + intros [b Hlook]. apply dict_of_list_lookup_elem in Hlook.
      rewrite <- Hfst. apply list_elem_of_fmap. by exists (c, b).
    + intros Hin. apply dict_of_list_lookup_key. by rewrite Hfst.
Qed.

(** X29.  The section "Basic Torus Diagram" fails in one way only: with
    [KeyError] when no board lies at (0, 0).  The diagram itself is always
    generated ([board2coord] has a label for every board of [cart_torus]),
    [max] always has a candidate, and the board at [(0, max_y)] always
    exists; it is the board with the largest [y] in the column [x = 0]. *)
Theorem torus_diagram_outcome (cart_torus : list (Board * (Z * Z))) :
  match torus_diagram (System := System) cart_torus with
  | Ok (calls, bottom_left, top_left) =>
      (bottom_left, (0, 0)) ∈ cart_torus
      /\ exists max_y,
           (top_left, (0, max_y)) ∈ cart_torus
           /\ forall b y, (b, (0, y)) ∈ cart_torus -> y <= max_y
  | Raise e => e = KeyError /\ (0, 0) ∉ cart_torus.*2
  end.
Proof.
  unfold torus_diagram.
  destruct (generate_diagram_returns cart_torus (board2coord cart_torus) true
              (None : option System) 1%float) as [calls ->].
  { apply Forall_forall. intros [b c] Hin. simpl.
    apply dict_of_list_lookup_key, list_elem_of_fmap. by exists (b, c). }
  cbn [mbind result_bind]. unfold getitem.
  destruct (cart_coord2board cart_torus !! (0, 0)) as [bottom_left|]
    eqn:Hbottom; cbn [mbind result_bind].
  2:{ simpl. split; [done|]. intros Hin.
      apply (cart_coord2board_lookup cart_torus (0, 0)) in Hin as [b Hb].
      congruence. }
  assert (Hcolumn : forall y,
            y ∈ (fun xy : Z * Z => xy.2)
                  <$> filter (fun xy : Z * Z => xy.1 = 0)
                             (keys (cart_coord2board cart_torus))
            <-> (0, y) ∈ cart_torus.*2).
  { intros y. rewrite <- (proj2 (cart_coord2board_lookup cart_torus (0, y))).
    rewrite list_elem_of_fmap. unfold keys. split.
    - intros ([x y'] & -> & Hin). apply list_elem_of_filter in Hin as [Hx Hin].
      simpl in Hx. subst x.
      apply list_elem_of_fmap in Hin as ([c b] & Hc & Hin).
      simpl in Hc. subst c. apply elem_of_map_to_list in Hin. by exists b.
    - intros [b Hb]. exists (0, y). split; [done|].
      apply list_elem_of_filter. split; [done|].
      apply list_elem_of_fmap. exists ((0, y), b). split; [done|].
      by apply elem_of_map_to_list. }
  destruct (py_max_int_returns
              ((fun xy : Z * Z => xy.2)
                 <$> filter (fun xy : Z * Z => xy.1 = 0)
                            (keys (cart_coord2board cart_torus))))
    as [max_y Hmax].
  { intros Hnil.
    assert (Hzero : 0 ∈ (fun xy : Z * Z => xy.2)
                          <$> filter (fun xy : Z * Z => xy.1 = 0)
                                     (keys (cart_coord2board cart_torus))).
    { apply Hcolumn, (cart_coord2board_lookup cart_torus (0, 0)). eauto. }
    rewrite Hnil in Hzero. by apply elem_of_nil in Hzero. }
  rewrite Hmax. cbn [mbind result_bind].
  apply py_max_int_Ok in Hmax as [Hin Hall].
  apply Hcolumn, (cart_coord2board_lookup cart_torus (0, max_y)) in Hin
    as [top_left Htop].
  rewrite Htop. cbn [mbind result_bind mret result_ret].
  split; [by apply (cart_coord2board_lookup cart_torus (0, 0))|].
  exists max_y. split; [by apply (cart_coord2board_lookup cart_torus)|].
  intros b y Hb. rewrite Forall_forall in Hall. apply Hall, Hcolumn.
  apply list_elem_of_fmap. by exists (b, (0, y)).
Qed.

End TorusDiagramFacts.

(** * The order of the wiring tables *)

Lemma string_compare_trans (s1 s2 s3 : string) :
  String.compare s1 s2 = Lt -> String.compare s2 s3 = Lt ->
  String.compare s1 s3 = Lt.
Proof.
  revert s2 s3. induction s1 as [|a1 s1 IH]; intros [|a2 s2] [|a3 s3];
    simpl; try done.
  unfold Ascii.compare.
  destruct (N.compare_spec (Ascii.N_of_ascii a1) (Ascii.N_of_ascii a2)),
    (N.compare_spec (Ascii.N_of_ascii a2) (Ascii.N_of_ascii a3)),
    (N.compare_spec (Ascii.N_of_ascii a1) (Ascii.N_of_ascii a3));
    try done; try lia.
  apply IH.
Qed.

Lemma end_compare_trans (a b c : WireEnd) :
  end_compare a b = Lt -> end_compare b c = Lt -> end_compare a c = Lt.
Proof.
  destruct a as [ [ [c1 r1] s1] n1], b as [ [ [c2 r2] s2] n2],
    c as [ [ [c3 r3] s3] n3]. simpl.
  destruct (Z.compare_spec c1 c2), (Z.compare_spec c2 c3),
    (Z.compare_spec c1 c3); try done; try lia.
  destruct (Z.compare_spec r1 r2), (Z.compare_spec r2 r3),
    (Z.compare_spec r1 r3); try done; try lia.
  destruct (Z.compare_spec s1 s2), (Z.compare_spec s2 s3),
    (Z.compare_spec s1 s3); try done; try lia.
  apply string_compare_trans.
Qed.

Lemma wire_compare_eq (a b : Wire) : wire_compare a b = Eq -> a = b.
Proof.
  destruct a as [a1 a2], b as [b1 b2]. unfold wire_compare. simpl.
  destruct (end_compare a1 b1) eqn:H1; try done.
  intros H2. apply end_compare_eq in H1, H2. by subst.
Qed.

Lemma wire_compare_trans (a b c : Wire) :
  wire_compare a b = Lt -> wire_compare b c = Lt -> wire_compare a c = Lt.
Proof.
  destruct a as [a1 a2], b as [b1 b2], c as [c1 c2].
  unfold wire_compare. simpl.
  destruct (end_compare a1 b1) eqn:Hab; try done;
    destruct (end_compare b1 c1) eqn:Hbc; try done; intros H1 H2.
  - apply end_compare_eq in Hab, Hbc. subst.
    assert (Hrefl : end_compare c1 c1 = Eq).
    { pose proof (end_compare_antisym c1 c1) as Hanti.
      by destruct (end_compare c1 c1). }
    rewrite Hrefl. by eapply end_compare_trans.
  - apply end_compare_eq in Hab. subst. by rewrite Hbc.
  - apply end_compare_eq in Hbc. subst. by rewrite Hab.
  - by rewrite (end_compare_trans _ _ _ Hab Hbc).
Qed.

Lemma wire_le_cases (a b : Wire) :
  wire_le a b <-> wire_compare a b = Lt \/ a = b.
Proof.
  unfold wire_le, wire_lt, wire_compare.
  rewrite (end_compare_antisym a.1 b.1), (end_compare_antisym a.2 b.2).
  fold (wire_compare a b).
  pose proof (wire_compare_eq a b) as Heq. unfold wire_compare in *.
  split.
  - destruct (end_compare a.1 b.1); simpl; try done; try tauto.
    destruct (end_compare a.2 b.2); simpl; try done; tauto.
  - intros [Hlt| ->].
    + destruct (end_compare a.1 b.1); simpl; try done.
      by destruct (end_compare a.2 b.2).
    + pose proof (end_compare_antisym b.1 b.1) as H1.
      pose proof (end_compare_antisym b.2 b.2) as H2.
      destruct (end_compare b.1 b.1); simpl in *; try done.
      by destruct (end_compare b.2 b.2).
Qed.

Lemma wire_le_trans : Transitive wire_le.
Proof.
  intros a b c. rewrite !wire_le_cases.
  intros [Hab| ->] [Hbc| ->]; try tauto.
  left. by eapply wire_compare_trans.
Qed.

Lemma wire_le_antisym : AntiSymm eq wire_le.
Proof.
  intros a b. rewrite !wire_le_cases.
  intros [Hab| ->] [Hba|Heq]; try done.
  pose proof (wire_compare_trans _ _ _ Hab Hba) as Haa.
  unfold wire_compare in Haa.
  pose proof (end_compare_antisym a.1 a.1) as H1.
  pose proof (end_compare_antisym a.2 a.2) as H2.
  destruct (end_compare a.1 a.1); simpl in *; try done.
  by destruct (end_compare a.2 a.2).
Qed.

(** X30.  A wiring table does not depend on the order in which its wires were
    collected: two lists with the same wires give the same rows. *)
Theorem wiring_list_order_independent (wires wires' : list Wire) :
  wires ≡ₚ wires' ->
  generate_wiring_list wires = generate_wiring_list wires'.
Proof.
  intros Hperm.
  apply (@Sorted_unique _ wire_le wire_le_trans wire_le_antisym).
  - apply generate_wiring_list_Sorted.
  - apply generate_wiring_list_Sorted.
  - by rewrite !generate_wiring_list_Permutation.
Qed.

Lemma wiring_list_order_independent_witness :
  generate_wiring_list
    [((0, 0, 1, "N"), (0, 0, 2, "S")); ((0, 0, 0, "E"), (0, 0, 1, "W"))]%string
  = generate_wiring_list
      [((0, 0, 0, "E"), (0, 0, 1, "W")); ((0, 0, 1, "N"), (0, 0, 2, "S"))]%string.
Proof.
  apply wiring_list_order_independent. apply perm_swap.
Defined.
